(** * btrack.dataio: the track data exchange layer

    A shallow embedding of [btrack/dataio.py] (Python 2): the exporters
    ([export], [export_JSON], [export_MATLAB], [export_HDF],
    [export_all_tracks_JSON]), the fate table builder and the two HDF5
    readers ([HDF5_FileHandler_LEGACY], [HDF5_FileHandler]).

    Python values are a small tagged union, exceptions are data, and every
    function that touches the file system or standard output is a
    computation in a state-and-exception monad over an explicit [World].
    Calls to the logger leave no trace in this state and are left out;
    [assert] statements are executed (the interpreter runs without [-O]).

    Where the interpreter's behaviour depends on the platform (the width of
    numpy's ['int'], the order in which a [dict] lists its keys) the model
    is CPython 2.7 on 64-bit Linux.  Of an exception that the interpreter or
    a library raises the kind is modelled; its message may be shortened.
    The messages of the [raise] statements of [dataio.py] are literal. *)

From Stdlib Require Import ZArith QArith String Ascii List Lia Permutation Sorted.
From stdpp Require Import base option list sorting gmap strings pretty.

Set Warnings "-register-all,-clear-no-such-hyp".

Local Open Scope Z_scope.
Local Open Scope string_scope.
Local Open Scope list_scope.

(** ** Python exceptions and results *)

Inductive ExnKind :=
| TypeError | ValueError | IOError | OSError | IndexError | KeyError
| AttributeError | AssertionError | Exception.

Record Exn := mkExn { exn_kind : ExnKind; exn_msg : string }.

Inductive Result (A : Type) :=
| Ok (a : A)
| Raise (e : Exn).
Arguments Ok {A} a.
Arguments Raise {A} e.

Definition is_ok {A} (r : Result A) : bool :=
  match r with Ok _ => true | Raise _ => false end.

Definition raised {A} (r : Result A) : option ExnKind :=
  match r with Ok _ => None | Raise e => Some (exn_kind e) end.

(** A computation over a state [S] that may raise.  The state reached at the
    point of a [Raise] is kept: Python does not roll side effects back. *)
Definition St (S A : Type) : Type := S -> Result A * S.

Definition ret {S A} (a : A) : St S A := fun s => (Ok a, s).
Definition raise {S A} (k : ExnKind) (msg : string) : St S A :=
  fun s => (Raise (mkExn k msg), s).
Definition bind {S A B} (m : St S A) (f : A -> St S B) : St S B :=
  fun s => match m s with
           | (Ok a, s') => f a s'
           | (Raise e, s') => (Raise e, s')
           end.
Definition get {S} : St S S := fun s => (Ok s, s).
Definition put {S} (s : S) : St S unit := fun _ => (Ok tt, s).
Definition lift {S A} (r : Result A) : St S A := fun s => (r, s).

Declare Scope py_scope.
Delimit Scope py_scope with py.
Notation "x <- m ;; k" := (bind m (fun x => k))
  (at level 100, m at next level, right associativity) : py_scope.
Notation "m ;;; k" := (bind m (fun _ => k))
  (at level 100, right associativity) : py_scope.
Local Open Scope py_scope.

(** [for x in l: acc = body(acc, x)] *)
Fixpoint foldM {S A B} (body : B -> A -> St S B) (l : list A) (acc : B) : St S B :=
  match l with
  | [] => ret acc
  | x :: l' => acc' <- body acc x ;; foldM body l' acc'
  end.

(** [[f(x) for x in l]] *)
Fixpoint mapM {S A B} (f : A -> St S B) (l : list A) : St S (list B) :=
  match l with
  | [] => ret []
  | x :: l' => y <- f x ;; ys <- mapM f l' ;; ret (y :: ys)
  end.

(** [l[i]] on a Python list or on one axis of an array, for [i >= 0]. *)
Definition getitem {A} (l : list A) (i : nat) : Result A :=
  match l !! i with
  | Some x => Ok x
  | None => Raise (mkExn IndexError "list index out of range")
  end.

(** ** Data model *)

(** Numbers as Python holds them: an [int]/[long], or a float.  Finite
    floats are dyadic rationals and are embedded in [Q]; the layer only
    copies them or truncates them. *)
Inductive Num :=
| NInt (z : Z)
| NFloat (q : Q).

(** Truncation toward zero, with no bound on the result: [int(float)], which
    yields a [long] where an [int] is too small. *)
Definition astype_int (q : Q) : Z := Z.quot (Qnum q) (Zpos (Qden q)).

(** [x.astype('int')] for a numpy float [x]: ['int'] is the signed 64-bit
    integer (a 64-bit Linux build), so the conversion truncates toward zero
    when the result fits; when it does not, the conversion of the processor
    (x86-64) gives the smallest 64-bit integer. *)
Definition int64_min : Z := - 2 ^ 63.
Definition int64_max : Z := 2 ^ 63 - 1.

Definition astype_int64 (q : Q) : Z :=
  let z := astype_int q in
  if (int64_min <=? z)%Z && (z <=? int64_max)%Z then z else int64_min.

(** [btypes.PyTrackObject], with the attributes [new_PyTrackObject] sets. *)
Record PyTrackObject := mkObj {
  o_ID : Z;
  o_t : Num;
  o_x : Num;
  o_y : Num;
  o_z : Num;
  o_dummy : bool;
  o_label : Z;
  o_probability : list Q;
  o_type : Z }.

(** [btypes.Tracklet], with the attributes the exporters read. *)
Record Tracklet := mkTracklet {
  ID : Z;
  objects_of : list PyTrackObject;
  parentID : Z;
  rootID : Z;
  fate_label : string;
  cell_type : option string;
  filename_of : option string }.

(** Python values that can be handed to the exporters. *)
Inductive Value :=
| VNone
| VInt (z : Z)
| VStr (s : string)
| VList (l : list Value)
| VTracklet (t : Tracklet).

(** The document of one track, [Tracklet.to_dict()]: its keys are those of
    the per-track JSON file, and an object document has the attributes of
    the object. *)
Record TrackDict := mkTrackDict {
  d_ID : Z;
  d_parentID : Z;
  d_rootID : Z;
  d_fate_label : string;
  d_cell_type : option string;
  d_objects : list PyTrackObject }.

(** An HDF5 group holding the two datasets of one class or of one frame. *)
Record Group := mkGroup {
  coords : option (list (list Q));
  labels : option (list (list Z)) }.

(** An HDF5 file: the top-level members this layer names.  A group lists its
    members in the iteration order of [keys()]. *)
Record H5File := mkH5 {
  h5_objects : option (list (string * Group));
  h5_frames : option (list (string * Group));
  h5_tracks : option (list (list Z));
  h5_dummies : option (list (list Q)) }.

(** What [scipy.io.savemat] is given by [export_MATLAB]. *)
Record MatOutput := mkMat {
  mat_tracks : list (list Q);
  mat_track_labels : list string;
  mat_class_labels : list string;
  mat_fate_table : list (string * list Z) }.

(** What a file holds.  A JSON file is kept as the document given to
    [json.dump], a dictionary as the ordered list of its items. *)
Inductive FileData :=
| JsonTrack (doc : TrackDict)
| JsonTracks (docs : list (string * TrackDict))
| JsonManifest (key path : string) (zipped : bool) (names : list string)
| MatFile (m : MatOutput)
| ZipFile (members : list (string * FileData))
| HDF5File (h : H5File).

(** What a [print] statement sends to standard output. *)
Inductive Printed :=
| PStr (s : string)
| PTypeAndValue (v : Value).

(** The world outside the process: files by path, which paths [open(_, 'w')]
    can create or truncate, and standard output. *)
Record World := mkWorld {
  files : gmap string FileData;
  can_create : string -> bool;
  stdout : list Printed }.

Definition Py (A : Type) : Type := St World A.

Definition os_path_exists (path : string) : Py bool :=
  fun w => (Ok (bool_decide (is_Some (files w !! path))), w).

(** [open(path, 'w')] followed by writing [data] and closing.  As for
    [read_file] and [os_remove], the message of the error is abbreviated. *)
Definition write_file (path : string) (data : FileData) : Py unit :=
  fun w =>
    if can_create w path
    then (Ok tt, mkWorld (<[path := data]> (files w)) (can_create w) (stdout w))
    else (Raise (mkExn IOError "No such file or directory"), w).

Definition os_remove (path : string) : Py unit :=
  fun w =>
    match files w !! path with
    | Some _ => (Ok tt, mkWorld (delete path (files w)) (can_create w) (stdout w))
    | None => (Raise (mkExn OSError "No such file or directory"), w)
    end.

Definition print (p : Printed) : Py unit :=
  fun w => (Ok tt, mkWorld (files w) (can_create w) (stdout w ++ [p])).

(** ** [os.path] *)

Fixpoint rfind_from (c : ascii) (s : string) (i : Z) (last : Z) : Z :=
  match s with
  | EmptyString => last
  | String a s' => rfind_from c s' (i + 1) (if Ascii.eqb a c then i else last)
  end.

(** [s.rfind(c)]: the highest index of [c] in [s], or [-1]. *)
Definition rfind (c : ascii) (s : string) : Z := rfind_from c s 0 (-1).

(** [s[i:j]] for [0 <= i]. *)
Definition slice (s : string) (i j : Z) : string :=
  substring (Z.to_nat i) (Z.to_nat (j - i)) s.

(** Whether some character of [s] at an index in [[i, j)] differs from [c]. *)
Fixpoint some_other_char (c : ascii) (s : string) (i j : Z) (k : Z) : bool :=
  match s with
  | EmptyString => false
  | String a s' =>
      ((i <=? k)%Z && (k <? j)%Z && negb (Ascii.eqb a c))
      || some_other_char c s' i j (k + 1)
  end.

(** [os.path.splitext] (posix): the extension starts at the last dot of the
    last path component, leading dots of that component not counting. *)
Definition splitext (p : string) : string * string :=
  let sepIndex := rfind "/" p in
  let dotIndex := rfind "." p in
  if (sepIndex <? dotIndex)%Z && some_other_char "." p (sepIndex + 1) dotIndex 0
  then (slice p 0 dotIndex, slice p dotIndex (Z.of_nat (String.length p)))
  else (p, "").

Definition startswith_slash (s : string) : bool :=
  match s with String "/" _ => true | _ => false end.

Fixpoint endswith_slash (s : string) : bool :=
  match s with
  | EmptyString => false
  | String a EmptyString => Ascii.eqb a "/"
  | String _ s' => endswith_slash s'
  end.

(** [os.path.join(a, b)] (posix). *)
Definition os_path_join (a b : string) : string :=
  if startswith_slash b then b
  else if bool_decide (a = "") || endswith_slash a then a +:+ b
  else a +:+ "/" +:+ b.

(** ** Fate table *)

(** The dictionary that [fate_table] builds is held as the list of its
    entries in the order in which the code inserts them.  That order is a
    record of the run, not what a reader of the result sees: a Python 2
    [dict] lists its entries in the order of [dict_keys] below.

    [d[k].append(v)] when [k] is present, [d[k] = [v]] (a new last entry)
    when it is not. *)
Fixpoint fate_add (d : list (string * list Z)) (k : string) (v : Z)
  : list (string * list Z) :=
  match d with
  | [] => [(k, [v])]
  | (k', vs) :: d' =>
      if String.eqb k' k then (k', vs ++ [v]) :: d'
      else (k', vs) :: fate_add d' k v
  end.

Definition fate_table (tracks : list Tracklet) : list (string * list Z) :=
  fold_left (fun d t => fate_add d (fate_label t) (ID t)) tracks [].

(** *** The order of the keys of a Python 2 dictionary *)

(** A [dict] of Python 2 keeps no insertion order: [keys()], iteration and
    what [savemat] writes go through the slots of the hash table.  This is
    that table for [str] keys, as CPython 2.7 builds it on a 64-bit platform
    without hash randomisation (its default): [string_hash] of
    [Objects/stringobject.c], [lookdict_string], [dictresize] and
    [PyDict_SetItem] of [Objects/dictobject.c].  Nothing is ever deleted
    from the table here. *)
Definition wrap64 (x : Z) : Z := x mod 2 ^ 64.

Definition ord (c : ascii) : Z := Z.of_nat (nat_of_ascii c).

Fixpoint string_hash_loop (s : string) (x : Z) : Z :=
  match s with
  | EmptyString => x
  | String c s' => string_hash_loop s' (Z.lxor (wrap64 (1000003 * x)) (ord c))
  end.

(** [hash(s)], as the unsigned 64-bit pattern of the C [long]. *)
Definition string_hash (s : string) : Z :=
  match s with
  | EmptyString => 0
  | String c _ =>
      let x := Z.lxor (string_hash_loop s (Z.shiftl (ord c) 7))
                      (Z.of_nat (String.length s)) in
      if (x =? 2 ^ 64 - 1)%Z then 2 ^ 64 - 2 else x
  end.

(** The table: a slot is empty or holds a key with its hash. *)
Definition Slots : Type := list (option (Z * string)).

Definition taken_by_other (table : Slots) (j : nat) (key : string) : bool :=
  match table !! j with
  | Some (Some (_, k)) => negb (String.eqb k key)
  | _ => false
  end.

(** The probe loop of [lookdict_string]:
    [i = (i << 2) + i + perturb + 1], then [perturb >>= PERTURB_SHIFT]. *)
Fixpoint probe (fuel : nat) (table : Slots) (key : string) (mask i perturb : Z)
  : nat :=
  match fuel with
  | O => Z.to_nat (Z.land i mask)
  | S fuel' =>
      let i' := wrap64 (5 * i + perturb + 1) in
      let j := Z.to_nat (Z.land i' mask) in
      if taken_by_other table j key
      then probe fuel' table key mask i' (Z.shiftr perturb 5)
      else j
  end.

(** The slot of [key]: the one that holds it, or the empty one where it
    goes.  Once [perturb] has been shifted to zero (13 steps) the probe
    visits every slot, so the fuel is never used up on a table that has an
    empty slot. *)
Definition lookdict_string (table : Slots) (key : string) (hash : Z) : nat :=
  let mask := Z.of_nat (length table) - 1 in
  let i := Z.land hash mask in
  if taken_by_other table (Z.to_nat i) key
  then probe (64 + length table) table key mask i hash
  else Z.to_nat i.

Definition ma_used (table : Slots) : nat := length (omap id table).

(** The size after a resize: the first power of two above [minused],
    from [PyDict_MINSIZE = 8]. *)
Fixpoint new_size (fuel : nat) (size minused : nat) : nat :=
  match fuel with
  | O => size
  | S fuel' => if (size <=? minused)%nat then new_size fuel' (2 * size) minused
               else size
  end.

(** [dictresize]: the entries are put into the new table slot by slot. *)
Definition dictresize (table : Slots) (minused : nat) : Slots :=
  fold_left (fun t e =>
               match e with
               | Some (h, k) => <[lookdict_string t k h := Some (h, k)]> t
               | None => t
               end)
            table (replicate (new_size (S minused) 8 minused) None).

(** [d[key] = value] on the keys: a new key takes its slot, and the table
    grows when two thirds of it are in use. *)
Definition PyDict_SetItem (table : Slots) (key : string) : Slots :=
  let hash := string_hash key in
  let j := lookdict_string table key hash in
  match table !! j with
  | Some None =>
      let table' := <[j := Some (hash, key)]> table in
      let used := ma_used table' in
      if (2 * length table' <=? 3 * used)%nat
      then dictresize table'
                      ((if (50000 <? Z.of_nat used)%Z then 2 else 4) * used)
      else table'
  | _ => table
  end.

(** The keys of the dictionary built by the insertions [d], in the order in
    which the dictionary lists them. *)
Definition dict_keys {V} (d : list (string * V)) : list string :=
  map snd (omap id (fold_left PyDict_SetItem (map fst d) (replicate 8 None))).

(** ** Sorting and dictionaries *)

(** [sorted(l, key=key)] is stable: an element goes before the first one of
    the sorted rest whose key is not smaller. *)
Fixpoint insert_by {A} (key : A -> Z) (x : A) (l : list A) : list A :=
  match l with
  | [] => [x]
  | y :: l' => if (key y <? key x)%Z then y :: insert_by key x l' else x :: y :: l'
  end.

Definition sorted_by {A} (key : A -> Z) (l : list A) : list A :=
  fold_right (insert_by key) [] l.

(** [d[k] = v]: the value of an existing key is replaced where it stands, a
    new key becomes the last entry. *)
Fixpoint dict_set {V} (d : list (string * V)) (k : string) (v : V)
  : list (string * V) :=
  match d with
  | [] => [(k, v)]
  | (k', v') :: d' =>
      if String.eqb k' k then (k', v) :: d' else (k', v') :: dict_set d' k v
  end.

(** ** Tracklets as Python values *)

Definition isinstance_Tracklet (v : Value) : bool :=
  match v with VTracklet _ => true | _ => false end.

Definition isinstance_int (v : Value) : bool :=
  match v with VInt _ => true | _ => false end.

(** [v.name] for an attribute or method of [btypes.Tracklet].  On any other
    value the interpreter raises an [AttributeError]; its message also names
    the type of the value (['int' object has no attribute 'ID']), which is
    left out here: of this exception only the kind is modelled. *)
Definition as_Tracklet (name : string) (v : Value) : Result Tracklet :=
  match v with
  | VTracklet t => Ok t
  | _ => Raise (mkExn AttributeError ("object has no attribute '" +:+ name +:+ "'"))
  end.

(** Modelled from the spec: [Tracklet.to_dict] of [btypes], which is not part
    of this file; the document carries the track's [ID], lineage, fate,
    cell type and objects. *)
Definition to_dict (t : Tracklet) : TrackDict :=
  mkTrackDict (ID t) (parentID t) (rootID t) (fate_label t) (cell_type t)
              (objects_of t).

Definition Num_to_Q (n : Num) : Q :=
  match n with NInt z => inject_Z z | NFloat q => q end.

(** Modelled from the spec: [Tracklet.to_array] of [btypes], which is not part
    of this file; one row [x, y, frame, trackID, parentID, rootID,
    class_label] per object, in the track's object order. *)
Definition to_array (t : Tracklet) : list (list Q) :=
  map (fun o => [Num_to_Q (o_x o); Num_to_Q (o_y o); Num_to_Q (o_t o);
                 inject_Z (ID t); inject_Z (parentID t); inject_Z (rootID t);
                 inject_Z (o_label o)])
      (objects_of t).

(** ** Exporters *)

Definition check_track_type (tracks : list Value) : Result bool :=
  match getitem tracks 0 with
  | Ok v => Ok (isinstance_Tracklet v)
  | Raise e => Raise e
  end.

Definition Tracks_must_be : string := "Tracks must be of type btypes.Tracklet".

(** [filename] is a string by its type, so the first check passes. *)
Definition export_single_track_JSON (filename : string) (track : Value) : Py unit :=
  match track with
  | VTracklet t => write_file filename (JsonTrack (to_dict t))
  | _ => raise TypeError Tracks_must_be
  end.

(** The dictionary comprehension of [export_JSON]; Python 2 evaluates the
    value [trk.to_dict()] of an item before its key. *)
Definition tracklet_dict (tracks : list Value) : Result (list (string * TrackDict)) :=
  fold_left
    (fun acc trk =>
       match acc with
       | Raise e => Raise e
       | Ok d =>
           match as_Tracklet "to_dict" trk with
           | Ok t => Ok (dict_set d ("Tracklet_" +:+ pretty (ID t)) (to_dict t))
           | Raise e => Raise e
           end
       end)
    tracks (Ok []).

Definition export_JSON (filename : string) (tracks : list Value) : Py unit :=
  ok <- lift (check_track_type tracks) ;;
  if negb ok then raise TypeError Tracks_must_be
  else
    d <- lift (tracklet_dict tracks) ;;
    let json_export := sorted_by (fun t => d_ID (snd t)) d in
    write_file filename (JsonTracks json_export).

(** [cell_type in ['GFP','RFP','iRFP','Phase',None]], keeping what was
    found: [Some None] for [None], [Some (Some s)] for a listed string. *)
Definition allowed_cell_type (cell_type : Value) : option (option string) :=
  match cell_type with
  | VNone => Some None
  | VStr s =>
      if bool_decide (s ∈ ["GFP"; "RFP"; "iRFP"; "Phase"]) then Some (Some s) else None
  | _ => None
  end.

(** ["{}".format(cell_type)] and [str(cell_type)]. *)
Definition str_cell_type (ct : option string) : string :=
  match ct with Some s => s | None => "None" end.

(** Reading the file at [path] ([open], and the [os.stat] of
    [ZipFile.write]).  Of the error for a missing file only the kind is
    modelled: the interpreter's message carries the error number and the
    path as well. *)
Definition read_file (path : string) : Py FileData :=
  fun w =>
    match files w !! path with
    | Some d => (Ok d, w)
    | None => (Raise (mkExn OSError "No such file or directory"), w)
    end.

Definition export_all_tracks_JSON (export_dir : string) (tracks : list Value)
    (cell_type : Value) (as_zip_archive : bool) : Py unit :=
  match allowed_cell_type cell_type with
  | None => raise AssertionError ""
  | Some ct =>
      let cts := str_cell_type ct in
      filenames <-
        foldM (fun filenames track =>
                 t <- lift (as_Tracklet "ID" track) ;;
                 let fn := "track_" +:+ pretty (ID t) +:+ "_" +:+ cts +:+ ".json" in
                 let track_fn := os_path_join export_dir fn in
                 export_single_track_JSON track_fn track ;;;
                 ret (filenames ++ [fn]))
              tracks [] ;;
      (if as_zip_archive then
         let full_zip_fn := os_path_join export_dir ("tracks_" +:+ cts +:+ ".zip") in
         write_file full_zip_fn (ZipFile []) ;;;
         foldM (fun members fn =>
                  let src_json_file := os_path_join export_dir fn in
                  data <- read_file src_json_file ;;
                  write_file full_zip_fn (ZipFile (members ++ [(fn, data)])) ;;;
                  os_remove src_json_file ;;;
                  ret (members ++ [(fn, data)]))
               filenames [] ;;;
         ret tt
       else ret tt) ;;;
      let file_stats_fn := "tracks_" +:+ cts +:+ ".json" in
      write_file (os_path_join export_dir file_stats_fn)
                 (JsonManifest cts export_dir as_zip_archive filenames)
  end.

Fixpoint endswith (suffix s : string) : bool :=
  String.eqb s suffix
  || match s with
     | EmptyString => false
     | String _ s' => endswith suffix s'
     end.

(** [scipy.io.savemat(filename, output)]: [".mat"] is appended to a name
    that does not end with it. *)
Definition savemat (filename : string) (output : MatOutput) : Py unit :=
  write_file (if endswith ".mat" filename then filename else filename +:+ ".mat")
             (MatFile output).

Definition export_MATLAB (filename : string) (tracks : list Value) : Py unit :=
  ok <- lift (check_track_type tracks) ;;
  if negb ok then raise TypeError Tracks_must_be
  else
    trks <- mapM (fun trk => lift (as_Tracklet "to_array" trk)) tracks ;;
    let export_track := concat (map to_array trks) in
    let output :=
      mkMat export_track
            ["x"; "y"; "frm"; "ID"; "parentID"; "rootID"; "class_label"]
            ["interphase"; "prometaphase"; "metaphase"; "anaphase"; "apoptosis"]
            (fate_table trks) in
    savemat filename output.

(** ** HDF5 handlers *)

(** [grp[name]] for a dataset of a group, and [hdf[name]] for a top-level
    member. *)
Definition member {A} (name : string) (m : option A) : Result A :=
  match m with
  | Some x => Ok x
  | None => Raise (mkExn KeyError ("Unable to open object '" +:+ name +:+ "'"))
  end.

(** [group[name]] by member name. *)
Fixpoint group_lookup {A} (name : string) (g : list (string * A)) : Result A :=
  match g with
  | [] => Raise (mkExn KeyError ("Unable to open object '" +:+ name +:+ "'"))
  | (k, x) :: g' => if String.eqb k name then Ok x else group_lookup name g'
  end.

Definition enumerate {A} (l : list A) : list (nat * A) :=
  combine (seq 0 (length l)) l.

(** *** The legacy, per-frame schema *)

Definition is_digit (a : ascii) : bool :=
  let n := nat_of_ascii a in (48 <=? n)%nat && (n <=? 57)%nat.

Fixpoint take_digits (s : string) : string :=
  match s with
  | EmptyString => EmptyString
  | String a s' => if is_digit a then String a (take_digits s') else EmptyString
  end.

(** [re.search('([0-9]+)', f)]: the leftmost, longest run of digits. *)
Fixpoint re_search_digits (f : string) : option string :=
  match f with
  | EmptyString => None
  | String a f' =>
      if is_digit a then Some (String a (take_digits f')) else re_search_digits f'
  end.

(** [int(s)] for a string of decimal digits. *)
Fixpoint int_of_digits (s : string) (acc : Z) : Z :=
  match s with
  | EmptyString => acc
  | String a s' => int_of_digits s' (10 * acc + (Z.of_nat (nat_of_ascii a) - 48))
  end.

(** The class [HDF5_FileHandler_LEGACY]. *)
Module HDF5_FileHandler_LEGACY.

Definition lambda_frm (f : string) : Result Z :=
  match re_search_digits f with
  | Some d => Ok (int_of_digits d 0)
  | None => Raise (mkExn AttributeError "'NoneType' object has no attribute 'group'")
  end.

(** [sorted(keys, key=lambda_frm)]: every key is computed, then the names
    are sorted by it. *)
Definition sorted_frames {S} (keys : list string) : St S (list string) :=
  keyed <- mapM (fun f => k <- lift (lambda_frm f) ;; ret (k, f)) keys ;;
  ret (map snd (sorted_by fst keyed)).

Definition new_PyTrackObject (ID : Z) (txyz : list Q)
    (label : option (list Z)) (type : Q) : Result PyTrackObject :=
  match (match label with Some l => getitem l 0 | None => Ok 0 end) with
  | Raise e => Raise e
  | Ok class_label =>
      match getitem txyz 0, getitem txyz 1, getitem txyz 2, getitem txyz 3 with
      | Ok t, Ok x, Ok y, Ok z =>
          Ok (mkObj ID (NFloat t) (NFloat x) (NFloat y) (NFloat z) false
                    class_label [0%Q] (astype_int type))
      | _, _, _, _ => Raise (mkExn IndexError "index out of bounds")
      end
  end.

(** One pass of the inner loop of the legacy reader; the state is the
    counter [ID]. *)
Definition read_row (txyz : list (list Q)) (labels : option (list (list Z)))
    (o : nat) : St Z PyTrackObject :=
  class_label <-
    match labels with
    | Some l => row <- lift (getitem l o) ;; ret (Some row)
    | None => ret None
    end ;;
  row <- lift (getitem txyz o) ;;
  object_type <- lift (getitem row 4) ;;
  ID <- get ;;
  obj <- lift (new_PyTrackObject ID row class_label object_type) ;;
  put (ID + 1) ;;;
  ret obj.

(** The body of the loop over the sorted frame names. *)
Definition read_frame (frames : list (string * Group))
    (objects : list PyTrackObject) (frm : string) : St Z (list PyTrackObject) :=
  grp <- lift (group_lookup frm frames) ;;
  txyz <- lift (member "coords" (coords grp)) ;;
  labels <-
    match labels grp with
    | Some l =>
        if bool_decide (length txyz = length l) then ret (Some l)
        else raise AssertionError ""
    | None => ret None
    end ;;
  objs <- mapM (read_row txyz labels) (seq 0 (length txyz)) ;;
  ret (objects ++ objs).

(** The property [objects], on the open file [hdf]. *)
Definition objects (hdf : H5File) : St Z (list PyTrackObject) :=
  put 0 ;;;
  frames <- lift (member "frames" (h5_frames hdf)) ;;
  frms <- sorted_frames (map fst frames) ;;
  foldM (read_frame frames) frms [].

End HDF5_FileHandler_LEGACY.

(** *** The current, per-class schema *)

(** The class [HDF5_FileHandler]. *)
Module HDF5_FileHandler.

(** An [HDF5_FileHandler] instance; [_ID] is unset until [objects] runs. *)
Record Handler := mkHandler {
  filename : string;
  _hdf : H5File;
  _ID : option Z }.

(** The names the class body defines. *)
Definition members : list string :=
  ["__init__"; "__del__"; "close"; "objects"; "dummies"; "tracks";
   "new_PyTrackObject"].

(** [h5py.File(filename, 'r')]: the file must exist and be an HDF5 file;
    it is opened read-only. *)
Definition __init__ (fn : string) : Py Handler :=
  fun w =>
    match files w !! fn with
    | Some (HDF5File h) => (Ok (mkHandler fn h None), w)
    | _ => (Raise (mkExn IOError ("Unable to open file: " +:+ fn)), w)
    end.

(** Closing a file opened read-only leaves the world as it is. *)
Definition close (h : Handler) : Py unit := ret tt.

(** Evaluating [h.name] for a method call. *)
Definition getattr_method {S} (name : string) : St S unit :=
  if bool_decide (name ∈ members) then ret tt
  else raise AttributeError
         ("'HDF5_FileHandler' object has no attribute '" +:+ name +:+ "'").

Definition new_PyTrackObject (txyz : list Q) (label : option (list Z))
    (obj_type : Z) : St Handler PyTrackObject :=
  class_label <- lift (match label with Some l => getitem l 0 | None => Ok 0 end) ;;
  self <- get ;;
  ID <- lift (match _ID self with
              | Some i => Ok i
              | None => Raise (mkExn AttributeError
                                 "'HDF5_FileHandler' object has no attribute '_ID'")
              end) ;;
  t <- lift (getitem txyz 0) ;;
  x <- lift (getitem txyz 1) ;;
  y <- lift (getitem txyz 2) ;;
  z <- lift (getitem txyz 3) ;;
  put (mkHandler (filename self) (_hdf self) (Some (ID + 1))) ;;;
  ret (mkObj ID (NInt (astype_int64 t)) (NFloat x) (NFloat y) (NFloat z) false
             class_label [0%Q] obj_type).

(** The body of the loop over the class groups.  Member names of a group
    are unique, so [self._hdf['objects'][c]] is the group listed with [c]. *)
Definition read_class (objects : list PyTrackObject) (e : nat * (string * Group))
  : St Handler (list PyTrackObject) :=
  let '(ci, (c, grp)) := e in
  txyz <- lift (member "coords" (coords grp)) ;;
  labels <- lift (member "labels" (labels grp)) ;;
  let n_obj := length txyz in
  obj <- mapM (fun i =>
                 row <- lift (getitem txyz i) ;;
                 lab <- lift (getitem labels i) ;;
                 new_PyTrackObject row (Some lab) (Z.of_nat ci + 1))
              (seq 0 n_obj) ;;
  ret (objects ++ obj).

(** The property [objects]. *)
Definition objects : St Handler (list PyTrackObject) :=
  self <- get ;;
  put (mkHandler (filename self) (_hdf self) (Some 0)) ;;;
  groups <- lift (member "objects" (h5_objects (_hdf self))) ;;
  foldM read_class (enumerate groups) [].

End HDF5_FileHandler.

(** ** The HDF5 exporter and the format router *)

Section Exporting.

(** [constants.EXPORT_FORMATS], which is not part of this file. *)
Variable EXPORT_FORMATS : list string.

(** [export_HDF] calls [h.write_tracks] and [h.write_dummies]; the class
    body defines neither, so what they would do is left open. *)
Variables write_tracks write_dummies :
  HDF5_FileHandler.Handler -> list Value -> Py unit.

Definition export_HDF (filename : string) (tracks dummies : list Value) : Py unit :=
  t0 <- lift (getitem tracks 0) ;;
  match t0 with
  | VList refs =>
      found <- os_path_exists filename ;;
      if negb found then raise IOError ("HDF5 file does not exist: " +:+ filename)
      else
        r0 <- lift (getitem refs 0) ;;
        if negb (isinstance_int r0) then
          print (PTypeAndValue r0) ;;;
          raise TypeError "Track references should be integers"
        else
          h <- HDF5_FileHandler.__init__ filename ;;
          HDF5_FileHandler.getattr_method "write_tracks" ;;;
          write_tracks h tracks ;;;
          (match dummies with
           | [] => ret tt
           | _ :: _ => HDF5_FileHandler.getattr_method "write_dummies" ;;; write_dummies h dummies
           end) ;;;
          HDF5_FileHandler.close h
  | _ =>
      ok <- lift (check_track_type tracks) ;;
      if ok then print (PStr "oops!")
      else raise TypeError "Tracks is of an unknown format."
  end.

Definition export (filename : Value) (tracks : list Value) : Py unit :=
  match filename with
  | VStr filename =>
      let fmt := snd (splitext filename) in
      let '(fmt, filename) :=
        if String.eqb fmt "" then (".json", filename +:+ ".json")
        else (fmt, filename) in
      if negb (bool_decide (fmt ∈ EXPORT_FORMATS))
      then raise ValueError "Export format not recognised"
      else if String.eqb fmt ".json" then export_JSON filename tracks
      else if String.eqb fmt ".mat" then export_MATLAB filename tracks
      else if String.eqb fmt ".hdf5" then export_HDF filename tracks []
      else raise Exception "How did we get here?"
  | _ => raise TypeError "Filename must be a string"
  end.

End Exporting.

(** Modelled from the spec: [constants.EXPORT_FORMATS], which is not part of
    this file, holds the three recognized suffixes. *)
Definition EXPORT_FORMATS_of_spec : list string := [".json"; ".mat"; ".hdf5"].

(** The format [export] settles on and the path it hands to the codec. *)
Definition routed_format (filename : string) : string :=
  let fmt := snd (splitext filename) in
  if String.eqb fmt "" then ".json" else fmt.

Definition routed_filename (filename : string) : string :=
  if String.eqb (snd (splitext filename)) "" then filename +:+ ".json" else filename.

(** [sub in s] for strings. *)
Fixpoint contains (s sub : string) : bool :=
  String.prefix sub s
  || match s with
     | EmptyString => false
     | String _ s' => contains s' sub
     end.

Definition IndexError_list : Exn := mkExn IndexError "list index out of range".

(** ** Reference descriptions *)

(** The labels of [l] in the order in which each is first met: going
    through [l], a label not seen so far is put last. *)
Definition first_seen (l : list string) : list string :=
  fold_left (fun seen k => if bool_decide (k ∈ seen) then seen else seen ++ [k]) l [].

(** The IDs of the tracks labelled [k], in input order. *)
Definition ids_with_label (k : string) (tracks : list Tracklet) : list Z :=
  map ID (filter (fun t => fate_label t = k) tracks).

(** Order of two elements by their sort key. *)
Definition key_le {A} (key : A -> Z) (a b : A) : Prop := (key a <= key b)%Z.
Definition key_lt {A} (key : A -> Z) (a b : A) : Prop := (key a < key b)%Z.

(** The key of a track in the JSON collection. *)
Definition tracklet_key (t : Tracklet) : string := "Tracklet_" +:+ pretty (ID t).

(** The dictionary that the comprehension of [export_JSON] builds from a
    list of Tracklets. *)
Definition tracklet_docs (T : list Tracklet) : list (string * TrackDict) :=
  fold_left (fun d t => dict_set d (tracklet_key t) (to_dict t)) T [].

(** The object that [new_PyTrackObject] of the current schema builds from
    a coordinate row and a label row. *)
(** The integer [z] is the rational [q] rounded toward zero, said through
    the order of the rationals: between [0] and [q], [z] is the integer
    nearest to [q]. *)
Definition truncates_to (q : Q) (z : Z) : Prop :=
  ((0 <= q)%Q -> (inject_Z z <= q)%Q /\ (q < inject_Z (z + 1))%Q)
  /\ ((q <= 0)%Q -> (inject_Z (z - 1) < q)%Q /\ (q <= inject_Z z)%Q).

(** The rationals whose integer part is a signed 64-bit integer. *)
Definition in_int64 (q : Q) : Prop :=
  (inject_Z (- 2 ^ 63) <= q)%Q /\ (q < inject_Z (2 ^ 63))%Q.

Definition object_of_row (id obj_type : Z) (row : list Q) (lab : list Z)
  : PyTrackObject :=
  mkObj id (NInt (astype_int64 (nth 0 row 0%Q)))
        (NFloat (nth 1 row 0%Q)) (NFloat (nth 2 row 0%Q)) (NFloat (nth 3 row 0%Q))
        false (nth 0 lab 0%Z) [0%Q] obj_type.

(** The objects of one class, IDs counting up from [id]. *)
Fixpoint class_objects (id obj_type : Z) (rows : list (list Q * list Z))
  : list PyTrackObject :=
  match rows with
  | [] => []
  | (row, lab) :: rows' =>
      object_of_row id obj_type row lab :: class_objects (id + 1) obj_type rows'
  end.

(** The paired datasets of a class of the current schema: as many label
    rows as coordinate rows, the columns [t, x, y, z] present in every
    coordinate row, and no label row empty. *)
Definition datasets_ok (txyz : list (list Q)) (labs : list (list Z)) : Prop :=
  length labs = length txyz
  /\ Forall (fun row => (4 <= length row)%nat) txyz
  /\ Forall (fun lab => (1 <= length lab)%nat) labs.

(** The objects of a file of the current schema: class by class, the
    type the 1-based position of the class, IDs counting on across classes. *)
Fixpoint file_objects (id : Z) (ci : nat)
    (classes : list (list (list Q) * list (list Z))) : list PyTrackObject :=
  match classes with
  | [] => []
  | (txyz, labs) :: classes' =>
      class_objects id (Z.of_nat ci + 1) (zip txyz labs)
      ++ file_objects (id + Z.of_nat (length txyz)) (S ci) classes'
  end.

(** The class group holding the datasets [txyz] and [labs]. *)
Definition class_group (c : list (list Q) * list (list Z)) : Group :=
  mkGroup (Some (fst c)) (Some (snd c)).

(** The handler [h] after [self._ID = id]. *)
Definition with_ID (h : HDF5_FileHandler.Handler) (id : Z)
  : HDF5_FileHandler.Handler :=
  HDF5_FileHandler.mkHandler (HDF5_FileHandler.filename h) (HDF5_FileHandler._hdf h)
                             (Some id).

(** The numeral of a frame name, [0] when the name has none. *)
Definition frame_number (f : string) : Z :=
  match HDF5_FileHandler_LEGACY.lambda_frm f with Ok n => n | Raise _ => 0%Z end.

(** What it is for a name to carry a number, said without the regular
    expression: the name is some characters that are not digits, then the
    decimal numeral of [n] (zeros may pad it on the left), then nothing or
    something that does not start with a digit. *)
Definition decimal_digits : list ascii :=
  ["0"; "1"; "2"; "3"; "4"; "5"; "6"; "7"; "8"; "9"]%char.

Definition digit_free (s : string) : Prop :=
  Forall (fun c => c ∉ decimal_digits) (list_ascii_of_string s).

Definition no_leading_digit (s : string) : Prop :=
  match s with
  | EmptyString => True
  | String c _ => c ∉ decimal_digits
  end.

Fixpoint zeros (k : nat) : string :=
  match k with
  | O => EmptyString
  | S k' => String "0" (zeros k')
  end.

Definition embeds_numeral (f : string) (n : N) : Prop :=
  exists prefix k rest,
    f = prefix +:+ zeros k +:+ pretty n +:+ rest
    /\ digit_free prefix /\ no_leading_digit rest.

(** The object that the legacy [new_PyTrackObject] builds from a coordinate
    row and, when the frame has labels, a label row. *)
Definition legacy_object (id : Z) (row : list Q) (lab : option (list Z))
  : PyTrackObject :=
  mkObj id (NFloat (nth 0 row 0%Q))
        (NFloat (nth 1 row 0%Q)) (NFloat (nth 2 row 0%Q)) (NFloat (nth 3 row 0%Q))
        false (match lab with Some l => nth 0 l 0%Z | None => 0%Z end) [0%Q]
        (astype_int (nth 4 row 0%Q)).

Fixpoint legacy_objects_of (id : Z) (rows : list (list Q * option (list Z)))
  : list PyTrackObject :=
  match rows with
  | [] => []
  | (row, lab) :: rows' => legacy_object id row lab :: legacy_objects_of (id + 1) rows'
  end.

(** The label row of each of [n] coordinate rows. *)
Definition label_rows (n : nat) (labs : option (list (list Z)))
  : list (option (list Z)) :=
  match labs with
  | Some l => map Some l
  | None => replicate n None
  end.

(** The coordinate rows of the frame named [frm], and the rows paired with
    their labels. *)
Definition frame_coords (frames : list (string * Group)) (frm : string)
  : list (list Q) :=
  match group_lookup frm frames with
  | Ok grp => default [] (coords grp)
  | Raise _ => []
  end.

Definition frame_rows (frames : list (string * Group)) (frm : string)
  : list (list Q * option (list Z)) :=
  match group_lookup frm frames with
  | Ok grp =>
      let txyz := default [] (coords grp) in
      zip txyz (label_rows (length txyz) (labels grp))
  | Raise _ => []
  end.

(** A frame group of the legacy schema: a coordinates dataset with the
    columns [t, x, y, z, type] in every row and, when there is a labels
    dataset, as many non-empty label rows as coordinate rows. *)
Definition frame_ok (grp : Group) : Prop :=
  exists txyz,
    coords grp = Some txyz
    /\ Forall (fun row => (5 <= length row)%nat) txyz
    /\ match labels grp with
       | Some l => length txyz = length l /\ Forall (fun lab => (1 <= length lab)%nat) l
       | None => True
       end.

(** ** Sample data *)

Definition world0 : World := mkWorld ∅ (fun _ => true) [].

Definition track1 : Tracklet := mkTracklet 1 [] 0 1 "apoptosis" None None.

Definition track3 : Tracklet := mkTracklet 3 [] 1 1 "interphase" None None.

Definition h5_sample : H5File :=
  mkH5 (Some [("GFP", mkGroup (Some [[0%Q; 1%Q; 2%Q; 0%Q; 0%Q]]) (Some [[0]]))])
       None None None.

Definition sample_row (t type : Q) : list Q := [t; 10%Q; 20%Q; 0%Q; type].

Definition coords_A : list (list Q) :=
  [sample_row (7 # 2) 0; sample_row (-7 # 2) 0; sample_row 4 0].
Definition coords_B : list (list Q) := [sample_row 0 5; sample_row (1 # 3) 5].
Definition coords_C : list (list Q) :=
  [sample_row 1 9; sample_row 2 9; sample_row 3 9; sample_row (9 # 4) 9].

Definition labels_of (n : nat) : list (list Z) := replicate n [2%Z; 0%Z].

Definition legacy_sample : H5File :=
  mkH5 None
       (Some [("frame_2", mkGroup (Some [sample_row 2 1]) None);
              ("frame_10", mkGroup (Some [sample_row 10 (5 # 2); sample_row 10 3])
                                   (Some [[4%Z]; [1%Z]]));
              ("frame_1", mkGroup (Some [sample_row 1 2]) None)])
       None None.

Definition world_h5 : World :=
  mkWorld {["data.hdf5" := HDF5File h5_sample]} (fun _ => true) [].

(** ** The archive importer *)

Definition is_json (d : FileData) : bool :=
  match d with
  | JsonTrack _ | JsonTracks _ | JsonManifest _ _ _ _ => true
  | _ => false
  end.

(** [open(path, 'r')] followed by [json.load]. *)
Definition json_load (path : string) : Py FileData :=
  fun w =>
    match files w !! path with
    | None => (Raise (mkExn IOError "No such file or directory"), w)
    | Some d =>
        if is_json d then (Ok d, w)
        else (Raise (mkExn ValueError "No JSON object could be decoded"), w)
    end.

(** [json.loads] of the bytes of an archive member. *)
Definition json_loads (d : FileData) : Result FileData :=
  if is_json d then Ok d
  else Raise (mkExn ValueError "No JSON object could be decoded").

(** The keys of the document of one track. *)
Definition track_document_keys : list string :=
  ["ID"; "parentID"; "rootID"; "fate_label"; "cell_type"; "objects"].

(** [track_files[cell_type]] with its entries ['zipped'] and ['files'].  A
    manifest has the one key it was written with; in a collection every
    value is the document of a track, which has no key 'zipped'; in the
    document of a track no value can be indexed by a string. *)
Definition manifest_entry (track_files : FileData) (cell_type : option string)
  : Result (bool * list string) :=
  match track_files with
  | JsonManifest key _ zipped names =>
      if bool_decide (cell_type = Some key) then Ok (zipped, names)
      else Raise (mkExn KeyError (str_cell_type cell_type))
  | JsonTracks _ => Raise (mkExn KeyError "zipped")
  | JsonTrack _ =>
      if bool_decide (cell_type ∈ map Some track_document_keys)
      then Raise (mkExn TypeError "indices must be integers")
      else Raise (mkExn KeyError (str_cell_type cell_type))
  | _ => Raise (mkExn ValueError "No JSON object could be decoded")
  end.

(** [zipfile.ZipFile(path, 'r')]. *)
Definition zip_open (path : string) : Py (list (string * FileData)) :=
  fun w =>
    match files w !! path with
    | None => (Raise (mkExn IOError "No such file or directory"), w)
    | Some (ZipFile members) => (Ok members, w)
    | Some _ => (Raise (mkExn Exception "File is not a zip file"), w)
    end.

(** [archive.read(name)]: the member written last under that name. *)
Fixpoint zip_read (members : list (string * FileData)) (name : string)
  : Result FileData :=
  match members with
  | [] => Raise (mkExn KeyError "There is no item named in the archive")
  | (n, d) :: members' =>
      match zip_read members' name with
      | Ok d' => Ok d'
      | Raise e => if String.eqb n name then Ok d else Raise e
      end
  end.

Section Importing.

(** [btypes.Tracklet.from_dict], which is not part of this file, on the
    document of a track and the value set under 'filename'. *)
Variable from_dict : TrackDict -> string -> Tracklet.

(** [d['cell_type'] = cell_type], [d['filename'] = track_fn] and
    [Tracklet.from_dict(d)].  Modelled from the spec: a document that is not
    the document of a track lacks the keys [from_dict] requires, which is a
    decode error naming the missing key. *)
Definition load_track (cell_type : option string) (track_fn : string) (d : FileData)
  : Result Tracklet :=
  match d with
  | JsonTrack doc =>
      Ok (from_dict (mkTrackDict (d_ID doc) (d_parentID doc) (d_rootID doc)
                                 (d_fate_label doc) cell_type (d_objects doc))
                    track_fn)
  | _ => Raise (mkExn KeyError "ID")
  end.

Definition import_all_tracks_JSON (folder : string) (cell_type : option string)
  : Py (list Tracklet) :=
  let file_stats_fn :=
    os_path_join folder ("tracks_" +:+ str_cell_type cell_type +:+ ".json") in
  found <- os_path_exists file_stats_fn ;;
  if negb found
  then raise IOError ("Tracking data file not found: " +:+ file_stats_fn)
  else
    track_files <- json_load file_stats_fn ;;
    entry <- lift (manifest_entry track_files cell_type) ;;
    let '(as_zipped, names) := entry in
    if as_zipped then
      let zip_fn :=
        os_path_join folder ("tracks_" +:+ str_cell_type cell_type +:+ ".zip") in
      zipped_tracks <- zip_open zip_fn ;;
      mapM (fun track_fn =>
              track_file <- lift (zip_read zipped_tracks track_fn) ;;
              d <- lift (json_loads track_file) ;;
              lift (load_track cell_type track_fn d))
           names
    else
      mapM (fun track_fn =>
              d <- json_load (os_path_join folder track_fn) ;;
              lift (load_track cell_type track_fn d))
           names.

End Importing.

(** ** Paths and files of an archive *)

(** What [os.path.join] puts before a relative name. *)
Definition join_prefix (dir : string) : string :=
  if bool_decide (dir = "") || endswith_slash dir then dir else dir +:+ "/".

(** The per-track file name, the archive name and the manifest name for the
    cell type rendered as [cts]. *)
Definition track_file_name (cts : string) (t : Tracklet) : string :=
  "track_" +:+ pretty (ID t) +:+ "_" +:+ cts +:+ ".json".

Definition zip_file_name (cts : string) : string := "tracks_" +:+ cts +:+ ".zip".

Definition manifest_file_name (cts : string) : string := "tracks_" +:+ cts +:+ ".json".

(** The per-track file of [t] with its content, and the archive member of
    [t]. *)
Definition track_entry (dir cts : string) (t : Tracklet) : string * FileData :=
  (os_path_join dir (track_file_name cts t), JsonTrack (to_dict t)).

Definition track_member (cts : string) (t : Tracklet) : string * FileData :=
  (track_file_name cts t, JsonTrack (to_dict t)).

(** Writing a list of files one after the other, and removing a list of
    files. *)
Definition write_all (entries : list (string * FileData)) (m : gmap string FileData)
  : gmap string FileData :=
  fold_left (fun m e => <[fst e := snd e]> m) entries m.

Definition remove_all (paths : list string) (m : gmap string FileData)
  : gmap string FileData :=
  fold_left (fun m p => delete p m) paths m.

(** The track that [import_all_tracks_JSON] makes of the exported track [t]. *)
Definition imported_track (from_dict : TrackDict -> string -> Tracklet)
    (cell_type : option string) (t : Tracklet) : Tracklet :=
  from_dict (mkTrackDict (ID t) (parentID t) (rootID t) (fate_label t) cell_type
                         (objects_of t))
            (track_file_name (str_cell_type cell_type) t).

(** The bodies of the two loops of [export_all_tracks_JSON], for the cell
    type rendered as [cts] and the archive [full_zip_fn]. *)
Definition write_track (export_dir cts : string) (filenames : list string)
    (track : Value) : Py (list string) :=
  t <- lift (as_Tracklet "ID" track) ;;
  let fn := "track_" +:+ pretty (ID t) +:+ "_" +:+ cts +:+ ".json" in
  let track_fn := os_path_join export_dir fn in
  export_single_track_JSON track_fn track ;;;
  ret (filenames ++ [fn]).

Definition zip_member (export_dir full_zip_fn : string)
    (members : list (string * FileData)) (fn : string)
  : Py (list (string * FileData)) :=
  let src_json_file := os_path_join export_dir fn in
  data <- read_file src_json_file ;;
  write_file full_zip_fn (ZipFile (members ++ [(fn, data)])) ;;;
  os_remove src_json_file ;;;
  ret (members ++ [(fn, data)]).

(** The files after a successful [export_all_tracks_JSON] of the Tracklets
    [T] into [dir], starting from the files [m]. *)
Definition archive_files (dir cts : string) (T : list Tracklet) (zipped : bool)
    (m : gmap string FileData) : gmap string FileData :=
  <[os_path_join dir (manifest_file_name cts) :=
      JsonManifest cts dir zipped (map (track_file_name cts) T)]>
    (if zipped
     then <[os_path_join dir (zip_file_name cts) := ZipFile (map (track_member cts) T)]>
            (remove_all (map fst (map (track_entry dir cts) T))
                        (write_all (map (track_entry dir cts) T) m))
     else write_all (map (track_entry dir cts) T) m).

(** A computation that leaves the world as it found it, whatever its
    result. *)
Definition leaves_world {A} (m : Py A) : Prop := forall w, snd (m w) = w.

(** Two handler states on the same open file. *)
Definition same_file (h h' : HDF5_FileHandler.Handler) : Prop :=
  HDF5_FileHandler.filename h = HDF5_FileHandler.filename h'
  /\ HDF5_FileHandler._hdf h = HDF5_FileHandler._hdf h'.

(** A frame group whose labels dataset has another number of rows than its
    coordinates dataset. *)
Definition label_count_mismatch (grp : Group) : Prop :=
  exists txyz l,
    coords grp = Some txyz /\ labels grp = Some l /\ length txyz <> length l.

(** * Properties *)

Ltac run := unfold bind, lift, ret, raise, get, put; simpl.

Lemma foldM_cons {S A B} (body : B -> A -> St S B) x l acc :
  foldM body (x :: l) acc = (acc' <- body acc x ;; foldM body l acc').
Proof. reflexivity. Qed.

Lemma mapM_cons {S A B} (f : A -> St S B) x l :
  mapM f (x :: l) = (y <- f x ;; ys <- mapM f l ;; ret (y :: ys)).
Proof. reflexivity. Qed.

(** ** [os.path] on small inputs *)

Example splitext_unknown : splitext "x.xyz" = ("x", ".xyz").
Proof. reflexivity. Qed.

Example splitext_none : splitext "x" = ("x", "").
Proof. reflexivity. Qed.

Example splitext_dot_in_directory : splitext "runs.v2/tracks" = ("runs.v2/tracks", "").
Proof. reflexivity. Qed.

Example splitext_leading_dot : splitext "out/.hidden" = ("out/.hidden", "").
Proof. reflexivity. Qed.

Example os_path_join_plain : os_path_join "out" "track_1_GFP.json" = "out/track_1_GFP.json".
Proof. reflexivity. Qed.

(** ** The format router *)

Lemma export_routes fmts wt wd filename tracks :
  export fmts wt wd (VStr filename) tracks =
  let fmt := routed_format filename in
  let fn := routed_filename filename in
  if negb (bool_decide (fmt ∈ fmts))
  then raise ValueError "Export format not recognised"
  else if String.eqb fmt ".json" then export_JSON fn tracks
  else if String.eqb fmt ".mat" then export_MATLAB fn tracks
  else if String.eqb fmt ".hdf5" then export_HDF wt wd fn tracks []
  else raise Exception "How did we get here?".
Proof.
  unfold export, routed_format, routed_filename.
  destruct (String.eqb (snd (splitext filename)) ""); reflexivity.
Qed.

Lemma export_JSON_empty filename w :
  export_JSON filename [] w = (Raise IndexError_list, w).
Proof. reflexivity. Qed.

Lemma export_MATLAB_empty filename w :
  export_MATLAB filename [] w = (Raise IndexError_list, w).
Proof. reflexivity. Qed.

Lemma export_HDF_empty wt wd filename dummies w :
  export_HDF wt wd filename [] dummies w = (Raise IndexError_list, w).
Proof. reflexivity. Qed.

Lemma export_empty_raises fmts wt wd filename w :
  exists e, export fmts wt wd filename [] w = (Raise e, w).
Proof.
  destruct filename as [| z | fn | l | t]; try (eexists; reflexivity).
  rewrite export_routes. cbv zeta.
  destruct (negb _); [eexists; reflexivity |].
  repeat (match goal with |- context [String.eqb ?a ?b] => destruct (String.eqb a b) end;
          try (eexists; reflexivity)).
Qed.

(** C10: on the empty list each exporter raises before any file is
    created.  [export_JSON], [export_MATLAB] and [export_HDF] raise the
    index error of [tracks[0]]; [export] raises for every file name, and
    the exception is that index error whenever the name is a string that
    the router hands to one of the three codecs. *)
Theorem empty_tracks_raise_before_writing fmts wt wd (filename : string) dummies w :
  export_JSON filename [] w = (Raise IndexError_list, w)
  /\ export_MATLAB filename [] w = (Raise IndexError_list, w)
  /\ export_HDF wt wd filename [] dummies w = (Raise IndexError_list, w)
  /\ (forall fv, exists e, export fmts wt wd fv [] w = (Raise e, w))
  /\ (routed_format filename ∈ fmts ->
      routed_format filename ∈ EXPORT_FORMATS_of_spec ->
      export fmts wt wd (VStr filename) [] w = (Raise IndexError_list, w)).
Proof.
  repeat split; try reflexivity.
  - intros fv. apply export_empty_raises.
  - intros Hin Hspec. rewrite export_routes. cbv zeta.
    rewrite (bool_decide_eq_true_2 _ Hin). simpl negb. cbv iota.
    unfold EXPORT_FORMATS_of_spec in Hspec.
    rewrite !elem_of_cons in Hspec.
    destruct Hspec as [-> | [-> | [-> | H]]]; [reflexivity .. |].
    inversion H.
Qed.

Lemma empty_tracks_raise_before_writing_witness :
  export EXPORT_FORMATS_of_spec (fun _ _ => ret tt) (fun _ _ => ret tt)
         (VStr "x") [] world0 = (Raise IndexError_list, world0).
Proof.
  apply (empty_tracks_raise_before_writing EXPORT_FORMATS_of_spec
           (fun _ _ => ret tt) (fun _ _ => ret tt) "x" [] world0).
  - vm_compute. repeat constructor.
  - vm_compute. repeat constructor.
Defined.

(** ** The archive exporter *)

(** C9: a [cell_type] outside ['GFP', 'RFP', 'iRFP', 'Phase', None] fails
    the assertion, and the world is as it was: no per-track file, archive or
    manifest has been written. *)
Theorem export_all_tracks_JSON_asserts_cell_type
    export_dir tracks cell_type as_zip_archive w :
  cell_type ∉ [VStr "GFP"; VStr "RFP"; VStr "iRFP"; VStr "Phase"; VNone] ->
  export_all_tracks_JSON export_dir tracks cell_type as_zip_archive w
  = (Raise (mkExn AssertionError ""), w).
Proof.
  intros Hnot. unfold export_all_tracks_JSON.
  assert (allowed_cell_type cell_type = None) as ->; [| reflexivity].
  destruct cell_type as [| z | s | l | t]; simpl; try reflexivity.
  - exfalso. apply Hnot. set_solver.
  - case_bool_decide as Hs; [| reflexivity].
    exfalso. apply Hnot.
    rewrite !elem_of_cons in Hs. rewrite !elem_of_cons.
    destruct Hs as [-> | [-> | [-> | [-> | H]]]]; [tauto .. |].
    inversion H.
Qed.

Lemma export_all_tracks_JSON_asserts_cell_type_witness :
  export_all_tracks_JSON "out" [VTracklet (mkTracklet 1 [] 0 1 "apoptosis" None None)]
                         (VStr "gfp") true world0
  = (Raise (mkExn AssertionError ""), world0).
Proof.
  apply export_all_tracks_JSON_asserts_cell_type.
  rewrite !elem_of_cons. intros [H | [H | [H | [H | [H | H]]]]];
    try discriminate H. inversion H.
Defined.

(** ** The HDF5 exporter *)

Lemma export_HDF_not_found wt wd filename refs rest dummies w :
  files w !! filename = None ->
  export_HDF wt wd filename (VList refs :: rest) dummies w
  = (Raise (mkExn IOError ("HDF5 file does not exist: " +:+ filename)), w).
Proof.
  intros Hnone. unfold export_HDF, os_path_exists. run.
  rewrite Hnone. rewrite bool_decide_eq_false_2; [reflexivity |].
  intros [x Hx]. discriminate Hx.
Qed.

Lemma export_HDF_reference_not_int wt wd filename r0 refs rest dummies w :
  is_Some (files w !! filename) ->
  isinstance_int r0 = false ->
  export_HDF wt wd filename (VList (r0 :: refs) :: rest) dummies w
  = (Raise (mkExn TypeError "Track references should be integers"),
     mkWorld (files w) (can_create w) (stdout w ++ [PTypeAndValue r0])).
Proof.
  intros Hsome Hint. unfold export_HDF, os_path_exists. run.
  rewrite (bool_decide_eq_true_2 _ Hsome). simpl. rewrite Hint. reflexivity.
Qed.

(** With integer references and an existing HDF5 file, the handler is
    opened and the lookup of [write_tracks] fails: nothing is written,
    whatever [write_tracks] and [write_dummies] would have done. *)
Lemma export_HDF_references_raise wt wd filename h i refs rest dummies w :
  files w !! filename = Some (HDF5File h) ->
  export_HDF wt wd filename (VList (VInt i :: refs) :: rest) dummies w
  = (Raise (mkExn AttributeError
              "'HDF5_FileHandler' object has no attribute 'write_tracks'"), w).
Proof.
  intros Hfile. unfold export_HDF, os_path_exists, HDF5_FileHandler.__init__. run.
  rewrite bool_decide_eq_true_2 by (rewrite Hfile; eauto). simpl.
  rewrite Hfile. reflexivity.
Qed.

(** C1 (the code departs from the claim): with the integer references
    [[0, 1]] and the existing HDF5 file [data.hdf5], [export_HDF] raises an
    attribute error at [h.write_tracks] and leaves the file as it was, so no
    'tracks' dataset is appended. *)
Theorem export_HDF_references_no_tracks_dataset wt wd :
  export_HDF wt wd "data.hdf5" [VList [VInt 0; VInt 1]] [] world_h5
  = (Raise (mkExn AttributeError
              "'HDF5_FileHandler' object has no attribute 'write_tracks'"),
     world_h5)
  /\ files world_h5 !! "data.hdf5" = Some (HDF5File h5_sample)
  /\ h5_tracks h5_sample = None.
Proof.
  split; [| split; reflexivity].
  apply export_HDF_references_raise with (h := h5_sample). reflexivity.
Qed.

(** C2 (the code departs from the claim): a list whose first element is a
    Tracklet makes [export_HDF] print ['oops!'] and return normally; no file
    is written and no exception is raised. *)
Theorem export_HDF_tracklets_return_normally wt wd filename t rest dummies w :
  export_HDF wt wd filename (VTracklet t :: rest) dummies w
  = (Ok tt, mkWorld (files w) (can_create w) (stdout w ++ [PStr "oops!"]))
  /\ raised (fst (export_HDF wt wd filename (VTracklet t :: rest) dummies w)) = None.
Proof.
  assert (export_HDF wt wd filename (VTracklet t :: rest) dummies w
          = (Ok tt, mkWorld (files w) (can_create w) (stdout w ++ [PStr "oops!"])))
    as Hrun.
  { unfold export_HDF, check_track_type, print. run. reflexivity. }
  split; [exact Hrun |]. by rewrite Hrun.
Qed.

(** ** Type checks of the exporters *)

Lemma export_JSON_first_not_Tracklet filename v rest w :
  isinstance_Tracklet v = false ->
  export_JSON filename (v :: rest) w = (Raise (mkExn TypeError Tracks_must_be), w).
Proof. intros Hv. unfold export_JSON, check_track_type. run. rewrite Hv. reflexivity. Qed.

Lemma export_MATLAB_first_not_Tracklet filename v rest w :
  isinstance_Tracklet v = false ->
  export_MATLAB filename (v :: rest) w = (Raise (mkExn TypeError Tracks_must_be), w).
Proof. intros Hv. unfold export_MATLAB, check_track_type. run. rewrite Hv. reflexivity. Qed.

(** C3, as stated, fails: a non-Tracklet after the first element is not
    met by the type check; [export_JSON] then raises an attribute error,
    not a type error. *)
Lemma later_non_Tracklet_not_type_error :
  ~ (forall filename tracks w,
        (exists v, v ∈ tracks /\ isinstance_Tracklet v = false) ->
        raised (fst (export_JSON filename tracks w)) = Some TypeError).
Proof.
  intros H.
  specialize (H "out.json" [VTracklet track1; VInt 5] world0).
  assert (raised (fst (export_JSON "out.json" [VTracklet track1; VInt 5] world0))
          = Some AttributeError) as Hrun by reflexivity.
  rewrite H in Hrun; [discriminate Hrun |].
  exists (VInt 5). split; [set_solver | reflexivity].
Qed.

(** C3, amended: when the first element of the list is not a Tracklet,
    [export_JSON] and [export_MATLAB] raise the type error before any file
    is created, and so does [export] for a file name routed to the JSON or
    MATLAB codec. *)
Theorem first_non_Tracklet_type_error fmts wt wd filename v rest w :
  isinstance_Tracklet v = false ->
  export_JSON filename (v :: rest) w = (Raise (mkExn TypeError Tracks_must_be), w)
  /\ export_MATLAB filename (v :: rest) w = (Raise (mkExn TypeError Tracks_must_be), w)
  /\ (routed_format filename ∈ fmts ->
      routed_format filename ∈ [".json"; ".mat"] ->
      export fmts wt wd (VStr filename) (v :: rest) w
      = (Raise (mkExn TypeError Tracks_must_be), w)).
Proof.
  intros Hv. split; [| split].
  - by apply export_JSON_first_not_Tracklet.
  - by apply export_MATLAB_first_not_Tracklet.
  - intros Hin Hfmt. rewrite export_routes. cbv zeta.
    rewrite (bool_decide_eq_true_2 _ Hin). simpl negb. cbv iota.
    rewrite !elem_of_cons in Hfmt.
    destruct Hfmt as [-> | [-> | H]]; [| | inversion H]; simpl.
    + by apply export_JSON_first_not_Tracklet.
    + by apply export_MATLAB_first_not_Tracklet.
Qed.

Lemma first_non_Tracklet_type_error_witness :
  export_JSON "out.json" [VInt 5; VTracklet track1] world0
  = (Raise (mkExn TypeError Tracks_must_be), world0)
  /\ export EXPORT_FORMATS_of_spec (fun _ _ => ret tt) (fun _ _ => ret tt)
            (VStr "out.mat") [VInt 5; VTracklet track1] world0
     = (Raise (mkExn TypeError Tracks_must_be), world0).
Proof.
  pose proof (first_non_Tracklet_type_error EXPORT_FORMATS_of_spec
                (fun _ _ => ret tt) (fun _ _ => ret tt) "out.json"
                (VInt 5) [VTracklet track1] world0 eq_refl) as [HJ _].
  pose proof (first_non_Tracklet_type_error EXPORT_FORMATS_of_spec
                (fun _ _ => ret tt) (fun _ _ => ret tt) "out.mat"
                (VInt 5) [VTracklet track1] world0 eq_refl) as [_ [_ HE]].
  split; [exact HJ |].
  apply HE; vm_compute; repeat constructor.
Defined.

(** ** The fate table *)

Section FateTable.

Implicit Types (T : list Tracklet) (t : Tracklet) (k : string).

Lemma fate_table_snoc T t :
  fate_table (T ++ [t]) = fate_add (fate_table T) (fate_label t) (ID t).
Proof. unfold fate_table. by rewrite fold_left_app. Qed.

Lemma first_seen_snoc (l : list string) k :
  first_seen (l ++ [k])
  = if bool_decide (k ∈ first_seen l) then first_seen l else first_seen l ++ [k].
Proof. unfold first_seen. by rewrite fold_left_app. Qed.

Lemma first_seen_elem (l : list string) k : k ∈ first_seen l <-> k ∈ l.
Proof.
  induction l as [| x l IH] using rev_ind.
  - reflexivity.
  - rewrite first_seen_snoc. case_bool_decide as Hx; set_solver.
Qed.

Lemma first_seen_NoDup (l : list string) : NoDup (first_seen l).
Proof.
  induction l as [| x l IH] using rev_ind.
  - constructor.
  - rewrite first_seen_snoc. case_bool_decide as Hx; [done |].
    apply NoDup_app. split; [done |]. split; [| apply NoDup_singleton].
    intros y Hy Hyx. apply list_elem_of_singleton in Hyx. by subst.
Qed.

Lemma first_seen_from (seen l : list string) :
  fold_left (fun seen k => if bool_decide (k ∈ seen) then seen else seen ++ [k]) l seen
  = seen ++ filter (fun k => k ∉ seen) (first_seen l).
Proof.
  revert seen. induction l as [| x l IH]; intros seen.
  - unfold first_seen. simpl. by rewrite app_nil_r.
  - unfold first_seen. simpl. rewrite (IH [x]), IH. case_bool_decide as Hx.
    + f_equal. rewrite filter_app, filter_cons_False, filter_nil by tauto. simpl.
      rewrite list_filter_filter_l; [done | set_solver].
    + rewrite <- app_assoc. f_equal.
      rewrite filter_app, filter_cons_True, filter_nil by done. simpl. f_equal.
      rewrite list_filter_filter. apply list_filter_iff. set_solver.
Qed.

(** [first_seen] keeps the first occurrence of each label and drops the
    later ones. *)
Lemma first_seen_cons (l : list string) k :
  first_seen (k :: l) = k :: filter (fun k' => k' <> k) (first_seen l).
Proof.
  unfold first_seen at 1. simpl. rewrite first_seen_from. simpl. f_equal.
  apply list_filter_iff. set_solver.
Qed.

Lemma ids_with_label_snoc k T t :
  ids_with_label k (T ++ [t])
  = ids_with_label k T ++ (if String.eqb (fate_label t) k then [ID t] else []).
Proof.
  unfold ids_with_label. rewrite filter_app, map_app. f_equal.
  rewrite filter_cons, filter_nil.
  destruct (String.eqb_spec (fate_label t) k); case_decide; done.
Qed.

Lemma ids_with_label_absent k T :
  k ∉ map fate_label T -> ids_with_label k T = [].
Proof.
  unfold ids_with_label. induction T as [| t T IH]; [done |].
  intros Hk. rewrite filter_cons. case_decide as Ht.
  - exfalso. apply Hk. simpl. rewrite <- Ht. set_solver.
  - apply IH. set_solver.
Qed.

(** Adding one ID to a table that lists each key once. *)
Lemma fate_add_map (f : string -> list Z) (seen : list string) k v :
  NoDup seen ->
  fate_add (map (fun k' => (k', f k')) seen) k v
  = map (fun k' => (k', f k' ++ (if String.eqb k k' then [v] else []))) seen
    ++ (if bool_decide (k ∈ seen) then [] else [(k, [v])]).
Proof.
  induction seen as [| k' seen IH]; intros Hnd.
  - done.
  - apply NoDup_cons in Hnd as [Hk' Hnd]. simpl.
    destruct (String.eqb_spec k' k) as [-> | Hne].
    + rewrite String.eqb_refl.
      rewrite bool_decide_eq_true_2 by set_solver.
      rewrite app_nil_r. f_equal.
      apply map_ext_in. intros k'' Hin.
      apply list_elem_of_In in Hin.
      destruct (String.eqb_spec k k'') as [-> | _]; [done |].
      by rewrite app_nil_r.
    + destruct (String.eqb_spec k k') as [-> | _]; [done |].
      rewrite app_nil_r, IH by done. simpl. do 2 f_equal.
      case_bool_decide as H1; case_bool_decide as H2; set_solver.
Qed.

(** The table is the list of first-seen labels, each with its IDs. *)
Lemma fate_table_spec T :
  fate_table T
  = map (fun k => (k, ids_with_label k T)) (first_seen (map fate_label T)).
Proof.
  induction T as [| t T IH] using rev_ind; [done |].
  rewrite fate_table_snoc, IH, map_app. simpl map.
  rewrite first_seen_snoc, fate_add_map by apply first_seen_NoDup.
  assert (forall l : list string,
             map (fun k' => (k', ids_with_label k' T
                                 ++ (if String.eqb (fate_label t) k' then [ID t] else []))) l
             = map (fun k' => (k', ids_with_label k' (T ++ [t]))) l) as Hmap.
  { intros l. apply map_ext. intros k'. by rewrite ids_with_label_snoc. }
  rewrite Hmap. case_bool_decide as Hseen.
  - by rewrite app_nil_r.
  - rewrite map_app. simpl. do 3 f_equal.
    rewrite ids_with_label_snoc, String.eqb_refl.
    rewrite ids_with_label_absent; [done |].
    by rewrite <- first_seen_elem.
Qed.

Example fate_table_of_three :
  fate_table [track3; track1; mkTracklet 7 [] 3 1 "interphase" None None]
  = [("interphase", [3; 7]); ("apoptosis", [1])].
Proof. reflexivity. Qed.

(** The dictionary of a Python 2 run lists its keys by their hashes. *)
Example dict_keys_by_hash :
  string_hash "a" = 12416037344
  /\ dict_keys [("a", 1); ("b", 2); ("c", 3)] = ["a"; "c"; "b"]
  /\ dict_keys [("interphase", [1]); ("prometaphase", [2])]
     = ["interphase"; "prometaphase"]
  /\ dict_keys [("prometaphase", [1]); ("interphase", [2])]
     = ["interphase"; "prometaphase"].
Proof. repeat split; vm_compute; reflexivity. Qed.

(** C6, as stated, fails: the keys of the dictionary that [fate_table]
    returns are not in the order in which their labels are first seen.  For
    a track that ends in prometaphase followed by one that ends in
    interphase, the dictionary lists [interphase] first. *)
Lemma fate_table_keys_not_first_seen :
  ~ (forall T, dict_keys (fate_table T) = first_seen (map fate_label T)).
Proof.
  intros H.
  specialize (H [mkTracklet 1 [] 0 1 "prometaphase" None None;
                 mkTracklet 2 [] 0 2 "interphase" None None]).
  vm_compute in H. discriminate H.
Qed.

(** C6, amended: [fate_table T] maps each fate label to the IDs of the
    tracks with that label in input order; the IDs found in its lists are
    those of [T]; and its keys are the labels of [T], each once.  Nothing
    is said of the order of the keys. *)
Theorem fate_table_groups_ids_by_label T :
  (forall k ids, (k, ids) ∈ fate_table T ->
                 ids = map ID (filter (fun t => fate_label t = k) T))
  /\ (forall id, id ∈ map ID T <->
                 exists k ids, (k, ids) ∈ fate_table T /\ id ∈ ids)
  /\ (forall k, k ∈ map fst (fate_table T) <-> k ∈ map fate_label T)
  /\ NoDup (map fst (fate_table T))
  /\ (forall t, t ∈ T -> fate_label t ∈ map fst (fate_table T)).
Proof.
  assert (map fst (fate_table T) = first_seen (map fate_label T)) as Hkeys.
  { rewrite fate_table_spec, map_map. simpl. apply map_id. }
  split; [| split; [| split; [| split]]].
  - intros k ids Hin. rewrite fate_table_spec in Hin.
    apply list_elem_of_In, in_map_iff in Hin as [k' [Heq _]].
    by inversion Heq.
  - intros id. split.
    + intros Hid. apply list_elem_of_In, in_map_iff in Hid as [t [<- Ht]].
      apply list_elem_of_In in Ht.
      exists (fate_label t), (ids_with_label (fate_label t) T). split.
      * rewrite fate_table_spec. apply list_elem_of_In, in_map_iff.
        exists (fate_label t). split; [done |].
        apply list_elem_of_In, first_seen_elem, list_elem_of_In, in_map.
        by apply list_elem_of_In.
      * unfold ids_with_label. apply list_elem_of_In, in_map, list_elem_of_In.
        by apply list_elem_of_filter.
    + intros [k [ids [Hin Hid]]]. rewrite fate_table_spec in Hin.
      apply list_elem_of_In, in_map_iff in Hin as [k' [Heq _]].
      inversion Heq; subst. unfold ids_with_label in Hid.
      apply list_elem_of_In, in_map_iff in Hid as [t [<- Ht]].
      apply list_elem_of_In, list_elem_of_filter in Ht as [_ Ht].
      apply list_elem_of_In, in_map. by apply list_elem_of_In.
  - intros k. rewrite Hkeys. apply first_seen_elem.
  - rewrite Hkeys. apply first_seen_NoDup.
  - intros t Ht. rewrite Hkeys. apply first_seen_elem.
    apply list_elem_of_In, in_map. by apply list_elem_of_In.
Qed.

End FateTable.

(** ** Sorting by a key *)

Section SortedBy.

Context {A : Type} (key : A -> Z).

Lemma insert_by_Permutation x l : insert_by key x l ≡ₚ x :: l.
Proof.
  induction l as [| y l IH]; simpl; [done |].
  destruct (key y <? key x)%Z; [| done].
  rewrite IH. apply Permutation_swap.
Qed.

Lemma sorted_by_Permutation l : sorted_by key l ≡ₚ l.
Proof.
  induction l as [| x l IH]; simpl; [done |].
  unfold sorted_by in *. simpl. by rewrite insert_by_Permutation, IH.
Qed.

Lemma insert_by_sorted x l :
  StronglySorted (key_le key) l -> StronglySorted (key_le key) (insert_by key x l).
Proof.
  induction 1 as [| y l Hl IH Hy]; simpl.
  - repeat constructor.
  - destruct (Z.ltb_spec (key y) (key x)) as [Hlt | Hge].
    + constructor; [done |].
      rewrite insert_by_Permutation. constructor; [| done].
      unfold key_le. lia.
    + constructor; [by constructor |].
      constructor; [done |].
      eapply Forall_impl; [exact Hy |]. unfold key_le. intros z Hz. simpl in Hz. lia.
Qed.

Lemma sorted_by_sorted l : StronglySorted (key_le key) (sorted_by key l).
Proof.
  induction l as [| x l IH]; [constructor |].
  unfold sorted_by in *. simpl. by apply insert_by_sorted.
Qed.

Lemma sorted_distinct_strict l :
  StronglySorted (key_le key) l -> NoDup (map key l) -> StronglySorted (key_lt key) l.
Proof.
  induction 1 as [| y l Hl IH Hy]; intros Hnd; [constructor |].
  simpl in Hnd. apply NoDup_cons in Hnd as [Hy' Hnd].
  constructor; [by apply IH |].
  rewrite Forall_forall in Hy. apply Forall_forall. intros z Hz.
  specialize (Hy z Hz). unfold key_le in Hy. unfold key_lt.
  assert (key y <> key z); [| lia].
  intros Heq. apply Hy'. rewrite Heq. by apply list_elem_of_fmap_2.
Qed.

Lemma sorted_by_strict l :
  NoDup (map key l) -> StronglySorted (key_lt key) (sorted_by key l).
Proof.
  intros Hnd. apply sorted_distinct_strict; [apply sorted_by_sorted |].
  by rewrite (Permutation_map key (sorted_by_Permutation l)).
Qed.

(** With pairwise distinct keys the result does not depend on the order
    of the input. *)
Lemma sorted_by_order_irrelevant l l' :
  NoDup (map key l) -> l' ≡ₚ l -> sorted_by key l' = sorted_by key l.
Proof.
  intros Hnd Hperm.
  apply (StronglySorted_unique_strong (key_lt key)).
  - unfold key_lt. intros; lia.
  - apply sorted_by_strict. by rewrite (Permutation_map key Hperm).
  - by apply sorted_by_strict.
  - by rewrite !sorted_by_Permutation.
Qed.

Lemma key_lt_map l : StronglySorted (key_lt key) l -> StronglySorted Z.lt (map key l).
Proof.
  induction 1 as [| y l Hl IH Hy]; simpl; constructor; [done |].
  apply Forall_forall. intros z Hz.
  apply list_elem_of_fmap in Hz as [a [-> Ha]].
  rewrite Forall_forall in Hy. by apply Hy.
Qed.

End SortedBy.

(** ** The JSON collection *)

Section JSONCollection.

Implicit Types (T : list Tracklet) (t : Tracklet) (d : list (string * TrackDict)).

Lemma tracklet_key_inj t t' : tracklet_key t = tracklet_key t' -> ID t = ID t'.
Proof.
  unfold tracklet_key. intros Heq.
  injection Heq as Heq. change (pretty (ID t) = pretty (ID t')) in Heq.
  by apply (inj pretty) in Heq.
Qed.

Lemma dict_set_fresh {V} (d : list (string * V)) k v :
  k ∉ map fst d -> dict_set d k v = d ++ [(k, v)].
Proof.
  induction d as [| [k' v'] d IH]; simpl; [done |].
  intros Hk. destruct (String.eqb_spec k' k) as [-> | Hne].
  - exfalso. apply Hk. set_solver.
  - rewrite IH; [done | set_solver].
Qed.

Lemma dict_set_keys {V} (d : list (string * V)) k v :
  map fst (dict_set d k v)
  = if bool_decide (k ∈ map fst d) then map fst d else map fst d ++ [k].
Proof.
  induction d as [| [k' v'] d IH]; simpl; [done |].
  destruct (String.eqb_spec k' k) as [-> | Hne]; simpl.
  - rewrite bool_decide_eq_true_2; [done | set_solver].
  - rewrite IH. case_bool_decide as H1; case_bool_decide as H2; set_solver.
Qed.

Lemma dict_set_elem {V} (d : list (string * V)) k v e :
  e ∈ dict_set d k v -> e = (k, v) \/ e ∈ d.
Proof.
  induction d as [| [k' v'] d IH]; simpl.
  - set_solver.
  - destruct (String.eqb_spec k' k) as [-> | Hne]; set_solver.
Qed.

Lemma dict_set_NoDup {V} (d : list (string * V)) k v :
  NoDup (map fst d) -> NoDup (map fst (dict_set d k v)).
Proof.
  intros Hnd. rewrite dict_set_keys. case_bool_decide as Hk; [done |].
  apply NoDup_app. split; [done |]. split; [| apply NoDup_singleton].
  intros y Hy Hyk. apply list_elem_of_singleton in Hyk. by subst.
Qed.

Lemma tracklet_docs_snoc T t :
  tracklet_docs (T ++ [t]) = dict_set (tracklet_docs T) (tracklet_key t) (to_dict t).
Proof. unfold tracklet_docs. by rewrite fold_left_app. Qed.

Lemma tracklet_docs_NoDup T : NoDup (map fst (tracklet_docs T)).
Proof.
  induction T as [| t T IH] using rev_ind; [constructor |].
  rewrite tracklet_docs_snoc. by apply dict_set_NoDup.
Qed.

Lemma tracklet_docs_elem T k doc :
  (k, doc) ∈ tracklet_docs T -> exists t, t ∈ T /\ k = tracklet_key t /\ doc = to_dict t.
Proof.
  induction T as [| t T IH] using rev_ind; [by intros ?%elem_of_nil |].
  rewrite tracklet_docs_snoc. intros [Heq | Hin]%dict_set_elem.
  - inversion Heq; subst. exists t. set_solver.
  - destruct (IH Hin) as [t' [? [? ?]]]. exists t'. set_solver.
Qed.

Lemma tracklet_docs_keys T t : t ∈ T -> tracklet_key t ∈ map fst (tracklet_docs T).
Proof.
  induction T as [| t' T IH] using rev_ind; [by intros ?%elem_of_nil |].
  rewrite tracklet_docs_snoc, dict_set_keys. intros Hin.
  apply elem_of_app in Hin as [Hin | ->%list_elem_of_singleton].
  - specialize (IH Hin). case_bool_decide; set_solver.
  - case_bool_decide; set_solver.
Qed.

Lemma tracklet_docs_IDs_NoDup T : NoDup (map (fun e => d_ID (snd e)) (tracklet_docs T)).
Proof.
  pose proof (tracklet_docs_NoDup T) as Hnd.
  assert (map fst (tracklet_docs T)
          = map (fun z => "Tracklet_" +:+ pretty z)
                (map (fun e => d_ID (snd e)) (tracklet_docs T))) as Heq.
  { rewrite map_map. apply map_ext_in. intros [k doc] Hin.
    apply list_elem_of_In, tracklet_docs_elem in Hin as [t [_ [-> ->]]]. done. }
  rewrite Heq in Hnd. by apply NoDup_fmap_1 in Hnd.
Qed.

(** Tracks with pairwise distinct IDs each get an entry of their own. *)
Lemma tracklet_docs_distinct T :
  NoDup (map ID T) ->
  tracklet_docs T = map (fun t => (tracklet_key t, to_dict t)) T.
Proof.
  induction T as [| t T IH] using rev_ind; [done |].
  rewrite map_app. intros [HT [Ht _]]%NoDup_app.
  rewrite tracklet_docs_snoc, map_app, IH by done. simpl.
  apply dict_set_fresh. rewrite map_map. simpl.
  intros Hin. apply list_elem_of_fmap in Hin as [t' [Hkey Ht']].
  apply (Ht (ID t)); [| set_solver].
  apply tracklet_key_inj in Hkey. rewrite Hkey. by apply list_elem_of_fmap_2.
Qed.

Lemma tracklet_dict_from acc T :
  fold_left
    (fun acc trk =>
       match acc with
       | Raise e => Raise e
       | Ok d =>
           match as_Tracklet "to_dict" trk with
           | Ok t => Ok (dict_set d ("Tracklet_" +:+ pretty (ID t)) (to_dict t))
           | Raise e => Raise e
           end
       end)
    (map VTracklet T) (Ok acc)
  = Ok (fold_left (fun d t => dict_set d (tracklet_key t) (to_dict t)) T acc).
Proof. revert acc. induction T as [| t T IH]; intros acc; simpl; [done | apply IH]. Qed.

Lemma tracklet_dict_Tracklets T : tracklet_dict (map VTracklet T) = Ok (tracklet_docs T).
Proof. apply tracklet_dict_from. Qed.

(** The order in which the items of the dictionary are met (Python 2 does
    not fix it) has no bearing on the sorted list. *)
Lemma sorted_items_order_irrelevant T (items : list (string * TrackDict)) :
  items ≡ₚ tracklet_docs T ->
  sorted_by (fun e => d_ID (snd e)) items
  = sorted_by (fun e => d_ID (snd e)) (tracklet_docs T).
Proof. apply sorted_by_order_irrelevant, tracklet_docs_IDs_NoDup. Qed.

(** On a non-empty list of Tracklets [export_JSON] comes down to writing the
    sorted dictionary. *)
Lemma export_JSON_Tracklets filename T :
  T <> [] ->
  export_JSON filename (map VTracklet T)
  = write_file filename
      (JsonTracks (sorted_by (fun e => d_ID (snd e)) (tracklet_docs T))).
Proof.
  intros HT. destruct T as [| t T]; [done |].
  unfold export_JSON. rewrite tracklet_dict_Tracklets. reflexivity.
Qed.

(** C7: for a non-empty collection of Tracklets, [export_JSON] writes a
    mapping in which every entry has the key "Tracklet_<ID>" of the track it
    documents, every track's key is present, and the entries are in
    strictly ascending order of ID; when the IDs are pairwise distinct the
    written file is the same for every order of the input. *)
Theorem export_JSON_keyed_and_sorted_by_ID filename T w :
  T <> [] ->
  can_create w filename = true ->
  exists docs,
    export_JSON filename (map VTracklet T) w
    = (Ok tt, mkWorld (<[filename := JsonTracks docs]> (files w))
                      (can_create w) (stdout w))
    /\ (forall k doc, (k, doc) ∈ docs ->
          k = "Tracklet_" +:+ pretty (d_ID doc) /\ exists t, t ∈ T /\ doc = to_dict t)
    /\ (forall t, t ∈ T ->
          exists doc, ("Tracklet_" +:+ pretty (ID t), doc) ∈ docs /\ d_ID doc = ID t)
    /\ StronglySorted Z.lt (map (fun e => d_ID (snd e)) docs)
    /\ (forall T', NoDup (map ID T) -> T' ≡ₚ T ->
          export_JSON filename (map VTracklet T') w
          = export_JSON filename (map VTracklet T) w).
Proof.
  intros HT Hw.
  set (key := fun e : string * TrackDict => d_ID (snd e)).
  exists (sorted_by key (tracklet_docs T)).
  split; [| split; [| split; [| split]]].
  - rewrite export_JSON_Tracklets by done. unfold write_file. by rewrite Hw.
  - intros k doc Hin. rewrite sorted_by_Permutation in Hin.
    apply tracklet_docs_elem in Hin as [t [Ht [-> ->]]]. split; [done | eauto].
  - intros t Ht. pose proof (tracklet_docs_keys T t Ht) as Hk.
    apply list_elem_of_fmap in Hk as [[k doc] [Hk Hin]]. simpl in Hk. subst k.
    exists doc. split; [by rewrite sorted_by_Permutation |].
    apply tracklet_docs_elem in Hin as [t' [_ [Hkey ->]]].
    apply tracklet_key_inj in Hkey. done.
  - apply key_lt_map, sorted_by_strict, tracklet_docs_IDs_NoDup.
  - intros T' Hnd Hperm.
    assert (T' <> []) as HT'.
    { intros ->. apply Permutation_nil in Hperm. done. }
    rewrite !export_JSON_Tracklets by done. do 2 f_equal.
    apply sorted_by_order_irrelevant; [apply tracklet_docs_IDs_NoDup |].
    rewrite !tracklet_docs_distinct; [by apply Permutation_map | done |].
    by rewrite (Permutation_map ID Hperm).
Qed.

Lemma export_JSON_keyed_and_sorted_by_ID_witness :
  exists docs,
    export_JSON "out.json" (map VTracklet [track3; track1]) world0
    = (Ok tt, mkWorld (<["out.json" := JsonTracks docs]> (files world0))
                      (can_create world0) (stdout world0))
    /\ (forall k doc, (k, doc) ∈ docs ->
          k = "Tracklet_" +:+ pretty (d_ID doc)
          /\ exists t, t ∈ [track3; track1] /\ doc = to_dict t)
    /\ (forall t, t ∈ [track3; track1] ->
          exists doc, ("Tracklet_" +:+ pretty (ID t), doc) ∈ docs /\ d_ID doc = ID t)
    /\ StronglySorted Z.lt (map (fun e => d_ID (snd e)) docs)
    /\ (forall T', NoDup (map ID [track3; track1]) -> T' ≡ₚ [track3; track1] ->
          export_JSON "out.json" (map VTracklet T') world0
          = export_JSON "out.json" (map VTracklet [track3; track1]) world0).
Proof.
  apply (export_JSON_keyed_and_sorted_by_ID "out.json" [track3; track1] world0).
  - discriminate.
  - reflexivity.
Defined.

End JSONCollection.

(** ** Unknown and missing extensions *)

(** C8, as stated, fails: the error raised for an unknown extension carries
    a fixed message, which does not name the extension. *)
Lemma unknown_extension_not_named :
  ~ (forall fmts wt wd filename tracks w e,
        snd (splitext filename) ∉ fmts ->
        fst (export fmts wt wd (VStr filename) tracks w) = Raise e ->
        contains (exn_msg e) (snd (splitext filename)) = true).
Proof.
  intros H.
  specialize (H EXPORT_FORMATS_of_spec (fun _ _ => ret tt) (fun _ _ => ret tt)
                "x.xyz" [VTracklet track1] world0
                (mkExn ValueError "Export format not recognised")).
  assert (contains "Export format not recognised" ".xyz" = false) as Hno by reflexivity.
  simpl exn_msg in H. change (snd (splitext "x.xyz")) with ".xyz" in H.
  rewrite H in Hno; [discriminate Hno | | reflexivity].
  unfold EXPORT_FORMATS_of_spec. rewrite !elem_of_cons.
  intros [Heq | [Heq | [Heq | Hnil]]]; try discriminate Heq. inversion Hnil.
Qed.

(** C8, amended: for a file name whose extension is not in
    [EXPORT_FORMATS], [export] raises the value error 'Export format not
    recognised' before any file is created; for a file name with no
    extension (and '.json' a recognized format) [export] is [export_JSON]
    on the name with '.json' appended, and for a non-empty list of
    Tracklets it succeeds and leaves the collection in that file, provided
    the file can be created. *)
Theorem export_unknown_or_missing_extension fmts wt wd filename tracks w :
  (snd (splitext filename) <> "" ->
   snd (splitext filename) ∉ fmts ->
   export fmts wt wd (VStr filename) tracks w
   = (Raise (mkExn ValueError "Export format not recognised"), w))
  /\ (snd (splitext filename) = "" ->
      ".json" ∈ fmts ->
      export fmts wt wd (VStr filename) tracks w
      = export_JSON (filename +:+ ".json") tracks w
      /\ forall T,
          tracks = map VTracklet T -> T <> [] ->
          can_create w (filename +:+ ".json") = true ->
          exists docs,
            export fmts wt wd (VStr filename) tracks w
            = (Ok tt, mkWorld (<[filename +:+ ".json" := JsonTracks docs]> (files w))
                              (can_create w) (stdout w))).
Proof.
  split.
  - intros Hext Hnot. rewrite export_routes. cbv zeta. unfold routed_format.
    destruct (String.eqb_spec (snd (splitext filename)) "") as [Heq | _]; [done |].
    by rewrite bool_decide_eq_false_2.
  - intros Hext Hjson.
    assert (export fmts wt wd (VStr filename) tracks w
            = export_JSON (filename +:+ ".json") tracks w) as Hroute.
    { rewrite export_routes. cbv zeta. unfold routed_format, routed_filename.
      rewrite Hext. simpl. by rewrite bool_decide_eq_true_2. }
    split; [exact Hroute |].
    intros T -> HT Hw. rewrite Hroute, export_JSON_Tracklets by done.
    eexists. unfold write_file. rewrite Hw. reflexivity.
Qed.

Lemma export_unknown_or_missing_extension_witness :
  export EXPORT_FORMATS_of_spec (fun _ _ => ret tt) (fun _ _ => ret tt)
         (VStr "x.xyz") [VTracklet track1] world0
  = (Raise (mkExn ValueError "Export format not recognised"), world0)
  /\ exists docs,
      export EXPORT_FORMATS_of_spec (fun _ _ => ret tt) (fun _ _ => ret tt)
             (VStr "x") [VTracklet track1] world0
      = (Ok tt, mkWorld (<["x.json" := JsonTracks docs]> (files world0))
                        (can_create world0) (stdout world0)).
Proof.
  split.
  - apply (export_unknown_or_missing_extension EXPORT_FORMATS_of_spec
             (fun _ _ => ret tt) (fun _ _ => ret tt) "x.xyz" [VTracklet track1] world0).
    + discriminate.
    + unfold EXPORT_FORMATS_of_spec. rewrite !elem_of_cons.
      intros [Heq | [Heq | [Heq | Hnil]]]; try discriminate Heq. inversion Hnil.
  - apply (export_unknown_or_missing_extension EXPORT_FORMATS_of_spec
             (fun _ _ => ret tt) (fun _ _ => ret tt) "x" [VTracklet track1] world0)
      with (T := [track1]).
    + reflexivity.
    + unfold EXPORT_FORMATS_of_spec. rewrite !elem_of_cons. by left.
    + reflexivity.
    + discriminate.
    + reflexivity.
Defined.

(** ** Reading the current schema *)

Section CurrentSchema.

Import HDF5_FileHandler.

Implicit Types (h : Handler) (txyz : list (list Q)) (labs : list (list Z)).

Lemma new_PyTrackObject_run h id row lab obj_type :
  _ID h = Some id ->
  (4 <= length row)%nat ->
  (1 <= length lab)%nat ->
  new_PyTrackObject row (Some lab) obj_type h
  = (Ok (object_of_row id obj_type row lab), with_ID h (id + 1)).
Proof.
  intros Hid Hrow Hlab.
  destruct row as [| t [| x [| y [| z row]]]]; simpl in Hrow; try lia.
  destruct lab as [| c lab]; simpl in Hlab; try lia.
  unfold new_PyTrackObject. run. rewrite Hid. reflexivity.
Qed.

Lemma class_objects_IDs id obj_type rows :
  map o_ID (class_objects id obj_type rows) = seqZ id (Z.of_nat (length rows)).
Proof.
  revert id. induction rows as [| [row lab] rows IH]; intros id; [done |].
  simpl length. rewrite Nat2Z.inj_succ, seqZ_cons by lia. simpl.
  rewrite IH. do 2 f_equal; lia.
Qed.

Lemma class_objects_types id obj_type rows :
  map o_type (class_objects id obj_type rows) = replicate (length rows) obj_type.
Proof.
  revert id. induction rows as [| [row lab] rows IH]; intros id; [done |].
  simpl. by rewrite IH.
Qed.

Lemma class_objects_not_dummy id obj_type rows :
  Forall (fun o => o_dummy o = false) (class_objects id obj_type rows).
Proof.
  revert id. induction rows as [| [row lab] rows IH]; intros id; constructor; auto.
Qed.

Lemma class_objects_t id obj_type rows :
  map o_t (class_objects id obj_type rows)
  = map (fun r => NInt (astype_int64 (nth 0 (fst r) 0%Q))) rows.
Proof.
  revert id. induction rows as [| [row lab] rows IH]; intros id; [done |].
  simpl. by rewrite IH.
Qed.

Lemma class_objects_length id obj_type rows :
  length (class_objects id obj_type rows) = length rows.
Proof.
  revert id. induction rows as [| [row lab] rows IH]; intros id; [done |].
  simpl. by rewrite IH.
Qed.

Lemma with_ID_with_ID h id id' : with_ID (with_ID h id) id' = with_ID h id'.
Proof. reflexivity. Qed.

Lemma with_ID_same h id : _ID h = Some id -> with_ID h id = h.
Proof. destruct h as [fname hdf i]. simpl. by intros ->. Qed.

(** The comprehension of [objects] over the rows [k, k + n) of a class. *)
Lemma read_rows_run txyz labs obj_type :
  datasets_ok txyz labs ->
  forall n k id h,
    _ID h = Some id ->
    (k + n = length txyz)%nat ->
    mapM (fun i =>
            row <- lift (getitem txyz i) ;;
            lab <- lift (getitem labs i) ;;
            new_PyTrackObject row (Some lab) obj_type)
         (seq k n) h
    = (Ok (class_objects id obj_type (drop k (zip txyz labs))),
       with_ID h (id + Z.of_nat n)).
Proof.
  intros (Hlen & Hrows & Hlabs). induction n as [| n IH]; intros k id h Hid Hk.
  - simpl. rewrite drop_ge by (rewrite length_zip_with; lia). simpl.
    rewrite Z.add_0_r, with_ID_same by done. reflexivity.
  - destruct (lookup_lt_is_Some_2 txyz k) as [row Hrow]; [lia |].
    destruct (lookup_lt_is_Some_2 labs k) as [lab Hlab]; [lia |].
    assert (zip txyz labs !! k = Some (row, lab)) as Hzip.
    { rewrite lookup_zip_with, Hrow, Hlab. reflexivity. }
    rewrite (drop_S _ _ _ Hzip). simpl seq. simpl mapM.
    unfold bind at 1. unfold bind at 1. unfold lift at 1, getitem at 1.
    rewrite Hrow. unfold bind at 1. unfold lift at 1, getitem at 1. rewrite Hlab.
    rewrite (new_PyTrackObject_run h id row lab obj_type Hid
               (Forall_lookup_1 _ _ _ _ Hrows Hrow) (Forall_lookup_1 _ _ _ _ Hlabs Hlab)).
    unfold bind at 1. rewrite (IH (S k) (id + 1) (with_ID h (id + 1))) by (done || lia).
    unfold ret. simpl class_objects. rewrite with_ID_with_ID.
    replace (id + 1 + Z.of_nat n) with (id + Z.of_nat (S n)) by lia. reflexivity.
Qed.

Lemma read_class_run objects_so_far ci c cls h id :
  datasets_ok (fst cls) (snd cls) ->
  _ID h = Some id ->
  read_class objects_so_far (ci, (c, class_group cls)) h
  = (Ok (objects_so_far
         ++ class_objects id (Z.of_nat ci + 1) (zip (fst cls) (snd cls))),
     with_ID h (id + Z.of_nat (length (fst cls)))).
Proof.
  intros Hok Hid. destruct cls as [txyz labs]. unfold read_class, class_group.
  simpl fst in *. simpl snd in *. simpl coords. simpl labels.
  unfold member. unfold bind at 1. unfold lift at 1. unfold bind at 1. unfold lift at 1.
  unfold bind at 1.
  rewrite (read_rows_run txyz labs (Z.of_nat ci + 1) Hok (length txyz) 0 id h) by done.
  reflexivity.
Qed.

Lemma read_classes_run (named : list (string * (list (list Q) * list (list Z)))) :
  Forall (fun c => datasets_ok (fst (snd c)) (snd (snd c))) named ->
  forall ci id h objects_so_far,
    _ID h = Some id ->
    foldM read_class
          (combine (seq ci (length named))
                   (map (fun c => (fst c, class_group (snd c))) named))
          objects_so_far h
    = (Ok (objects_so_far ++ file_objects id ci (map snd named)),
       with_ID h (id + Z.of_nat (length (file_objects id ci (map snd named))))).
Proof.
  induction 1 as [| [c cls] named Hok Hnamed IH]; intros ci id h acc Hid.
  - simpl. rewrite app_nil_r, Z.add_0_r, with_ID_same by done. reflexivity.
  - simpl in Hok. cbn [length seq map combine fst snd]. rewrite foldM_cons.
    unfold bind at 1. rewrite (read_class_run acc ci c cls h id) by done.
    rewrite (IH (S ci) (id + Z.of_nat (length (fst cls)))) by done.
    rewrite with_ID_with_ID. destruct cls as [txyz labs]. simpl.
    rewrite <- app_assoc. f_equal. unfold with_ID. do 2 f_equal.
    destruct Hok as (Hlen & _).
    rewrite length_app, class_objects_length, length_zip_with.
    simpl in Hlen. rewrite Hlen, Nat.min_id, Nat2Z.inj_add. lia.
Qed.

(** [objects] on a file whose class groups are well formed. *)
Lemma objects_run h (named : list (string * (list (list Q) * list (list Z)))) :
  h5_objects (_hdf h) = Some (map (fun c => (fst c, class_group (snd c))) named) ->
  Forall (fun c => datasets_ok (fst (snd c)) (snd (snd c))) named ->
  objects h
  = (Ok (file_objects 0 0 (map snd named)),
     with_ID h (Z.of_nat (length (file_objects 0 0 (map snd named))))).
Proof.
  intros Hobjs Hok. unfold objects. unfold bind at 1. unfold get.
  unfold bind at 1. unfold put. unfold bind at 1. unfold lift, member.
  rewrite Hobjs. unfold enumerate. rewrite length_map.
  rewrite (read_classes_run named Hok 0 0) by done.
  reflexivity.
Qed.

(** IDs are gapless from the first one, across class boundaries. *)
Lemma file_objects_IDs id ci (classes : list (list (list Q) * list (list Z))) :
  Forall (fun c => length (snd c) = length (fst c)) classes ->
  map o_ID (file_objects id ci classes)
  = seqZ id (Z.of_nat (length (file_objects id ci classes))).
Proof.
  intros Hlen. revert id ci.
  induction Hlen as [| [txyz labs] classes Hc Hlen IH]; intros id ci; [done |].
  simpl in Hc. simpl.
  rewrite map_app, length_app, Nat2Z.inj_add, seqZ_app by lia.
  rewrite class_objects_IDs, class_objects_length, IH.
  rewrite length_zip_with, Hc, Nat.min_id. reflexivity.
Qed.

Lemma file_objects_not_dummy id ci (classes : list (list (list Q) * list (list Z))) :
  Forall (fun o => o_dummy o = false) (file_objects id ci classes).
Proof.
  revert id ci. induction classes as [| [txyz labs] classes IH]; intros id ci.
  - constructor.
  - simpl. apply Forall_app. split; [apply class_objects_not_dummy | apply IH].
Qed.

(** The type of an object is the 1-based position of its class. *)
Lemma file_objects_types id ci (classes : list (list (list Q) * list (list Z))) :
  Forall (fun c => length (snd c) = length (fst c)) classes ->
  map o_type (file_objects id ci classes)
  = concat (imap (fun i c => replicate (length (fst c)) (Z.of_nat (ci + i) + 1))
                 classes).
Proof.
  intros Hlen. revert id ci.
  induction Hlen as [| [txyz labs] classes Hc Hlen IH]; intros id ci; [done |].
  simpl in Hc. simpl.
  rewrite map_app, class_objects_types, IH, length_zip_with, Hc, Nat.min_id.
  rewrite Nat.add_0_r. do 2 f_equal.
  apply imap_ext. intros i c _. simpl. do 2 f_equal. lia.
Qed.

(** [astype_int] rounds toward zero. *)
Lemma astype_int_truncates (q : Q) :
  ((0 <= q)%Q -> (inject_Z (astype_int q) <= q)%Q /\ (q < inject_Z (astype_int q + 1))%Q)
  /\ ((q <= 0)%Q -> (q <= inject_Z (astype_int q))%Q /\ (inject_Z (astype_int q - 1) < q)%Q).
Proof.
  destruct q as [n d]. unfold astype_int, Qle, Qlt, inject_Z. simpl.
  pose proof (Z.quot_rem' n (Z.pos d)) as Hqr.
  pose proof (Z.rem_bound_pos n (Z.pos d)) as Hpos.
  pose proof (Z.rem_bound_pos_neg n (Z.pos d)) as Hneg.
  generalize dependent (Z.rem n (Z.pos d)).
  generalize dependent (Z.quot n (Z.pos d)).
  intros k r Hqr Hpos Hneg. split; intros Hn; nia.
Qed.

(** Outside the range of the 64-bit integers the conversion does not
    truncate. *)
Example astype_int64_out_of_range :
  astype_int64 (inject_Z (10 ^ 19)) = (- 9223372036854775808)%Z
  /\ astype_int (inject_Z (10 ^ 19)) = (10 ^ 19)%Z.
Proof. split; reflexivity. Qed.

(** Within the range of the 64-bit integers the conversion rounds toward
    zero. *)
Lemma astype_int64_truncates (q : Q) :
  in_int64 q -> truncates_to q (astype_int64 q).
Proof.
  intros [Hlo Hhi].
  assert (astype_int64 q = astype_int q) as ->.
  { unfold astype_int64, int64_min, int64_max. cbv zeta.
    destruct q as [n d]. unfold astype_int, Qle, Qlt, inject_Z in *. simpl in *.
    pose proof (Z.quot_rem' n (Z.pos d)) as Hqr.
    pose proof (Z.rem_bound_pos n (Z.pos d)) as Hpos.
    pose proof (Z.rem_bound_pos_neg n (Z.pos d)) as Hneg.
    generalize dependent (Z.rem n (Z.pos d)).
    generalize dependent (Z.quot n (Z.pos d)).
    intros k r Hqr Hpos Hneg.
    assert (- 2 ^ 63 <= k <= 2 ^ 63 - 1)%Z as [Hk1 Hk2] by nia.
    apply Z.leb_le in Hk1, Hk2. by rewrite Hk1, Hk2. }
  destruct (astype_int_truncates q) as [Hpos Hneg]. split; intros Hq.
  - by apply Hpos.
  - destruct (Hneg Hq). by split.
Qed.

Lemma class_objects_t_truncated id obj_type (rows : list (list Q * list Z)) :
  Forall (fun r => in_int64 (nth 0 (fst r) 0%Q)) rows ->
  Forall2 (fun o r => exists z, o_t o = NInt z /\ truncates_to (nth 0 (fst r) 0%Q) z)
          (class_objects id obj_type rows) rows.
Proof.
  intros Hrows. revert id.
  induction Hrows as [| [row lab] rows Hrow _ IH]; intros id; simpl.
  - constructor.
  - constructor; [| apply IH].
    eexists. split; [reflexivity |]. by apply astype_int64_truncates.
Qed.

(** C4: a file of the current schema whose 'objects' group holds three
    classes, in iteration order, with 3, 2 and 4 coordinate rows is read as
    9 objects; their IDs are 0..8 in class order, their types are
    1,1,1,2,2,3,3,3,3 (the 1-based position of the class, whatever the
    coordinate columns hold), none is a dummy, and the [t] of each object
    is an integer: the first coordinate of its row rounded toward zero, for
    times that fit a 64-bit integer. *)
Theorem objects_of_three_classes
    fn nameA nameB nameC tA lA tB lB tC lC frames tracks dummies id0 :
  datasets_ok tA lA -> datasets_ok tB lB -> datasets_ok tC lC ->
  length tA = 3%nat -> length tB = 2%nat -> length tC = 4%nat ->
  Forall (fun row => in_int64 (nth 0 row 0%Q)) (tA ++ tB ++ tC) ->
  let hdf :=
    mkH5 (Some [(nameA, mkGroup (Some tA) (Some lA));
                (nameB, mkGroup (Some tB) (Some lB));
                (nameC, mkGroup (Some tC) (Some lC))])
         frames tracks dummies in
  exists objs h',
    objects (mkHandler fn hdf id0) = (Ok objs, h')
    /\ length objs = 9%nat
    /\ map o_ID objs = [0; 1; 2; 3; 4; 5; 6; 7; 8]
    /\ map o_type objs = [1; 1; 1; 2; 2; 3; 3; 3; 3]
    /\ Forall (fun o => o_dummy o = false) objs
    /\ Forall2 (fun o row =>
                  exists z, o_t o = NInt z /\ truncates_to (nth 0 row 0%Q) z)
               objs (tA ++ tB ++ tC).
Proof.
  intros HA HB HC nA nB nC Ht hdf.
  set (named := [(nameA, (tA, lA)); (nameB, (tB, lB)); (nameC, (tC, lC))]).
  assert (Forall (fun c => datasets_ok (fst (snd c)) (snd (snd c))) named) as Hok.
  { repeat constructor; simpl; apply HA || apply HB || apply HC. }
  assert (Forall (fun c : list (list Q) * list (list Z) =>
                    length (snd c) = length (fst c)) (map snd named)) as Hlen.
  { repeat constructor; simpl; apply HA || apply HB || apply HC. }
  pose proof (objects_run (mkHandler fn hdf id0) named eq_refl Hok) as Hrun.
  assert (length (file_objects 0 0 (map snd named)) = 9%nat) as Hcount.
  { simpl. rewrite !length_app, !class_objects_length, !length_zip_with.
    destruct HA as (-> & _), HB as (-> & _), HC as (-> & _).
    rewrite nA, nB, nC. reflexivity. }
  eexists _, _. split; [exact Hrun |].
  split; [exact Hcount |].
  split; [| split; [| split]].
  - rewrite file_objects_IDs, Hcount by done. reflexivity.
  - rewrite file_objects_types by done. simpl. rewrite nA, nB, nC. reflexivity.
  - apply file_objects_not_dummy.
  - simpl. rewrite app_nil_r.
    destruct HA as (HA & _), HB as (HB & _), HC as (HC & _).
    apply Forall_app in Ht as [HtA Ht]. apply Forall_app in Ht as [HtB HtC].
    assert (forall id ty (txyz : list (list Q)) (labs : list (list Z)),
               length labs = length txyz ->
               Forall (fun row => in_int64 (nth 0 row 0%Q)) txyz ->
               Forall2 (fun o row =>
                          exists z, o_t o = NInt z /\ truncates_to (nth 0 row 0%Q) z)
                       (class_objects id ty (zip txyz labs)) txyz) as Hclass.
    { intros id ty txyz labs Hlen' Hin.
      rewrite <- (fst_zip txyz labs) at 2 by lia.
      apply Forall2_fmap_r, class_objects_t_truncated.
      apply Forall_forall. intros [row lab] Hr. simpl.
      apply (Forall_forall (fun row => in_int64 (nth 0 row 0%Q)) txyz); [done |].
      rewrite <- (fst_zip txyz labs) by lia.
      by apply (list_elem_of_fmap_2 fst) in Hr. }
    repeat apply Forall2_app; by apply Hclass.
Qed.

Lemma objects_of_three_classes_witness :
  exists objs h',
    objects (mkHandler "cells.hdf5"
               (mkH5 (Some [("GFP", mkGroup (Some coords_A) (Some (labels_of 3)));
                            ("RFP", mkGroup (Some coords_B) (Some (labels_of 2)));
                            ("iRFP", mkGroup (Some coords_C) (Some (labels_of 4)))])
                     None None None)
               None)
    = (Ok objs, h')
    /\ length objs = 9%nat
    /\ map o_ID objs = [0; 1; 2; 3; 4; 5; 6; 7; 8]
    /\ map o_type objs = [1; 1; 1; 2; 2; 3; 3; 3; 3]
    /\ Forall (fun o => o_dummy o = false) objs
    /\ Forall2 (fun o row =>
                  exists z, o_t o = NInt z /\ truncates_to (nth 0 row 0%Q) z)
               objs (coords_A ++ coords_B ++ coords_C).
Proof.
  apply (objects_of_three_classes "cells.hdf5" "GFP" "RFP" "iRFP"
           coords_A (labels_of 3) coords_B (labels_of 2) coords_C (labels_of 4)
           None None None None);
    try reflexivity.
  - split; [reflexivity | split; repeat constructor].
  - split; [reflexivity | split; repeat constructor].
  - split; [reflexivity | split; repeat constructor].
  - repeat constructor; vm_compute; discriminate.
Defined.

End CurrentSchema.

(** ** Reading the legacy schema *)

Section LegacySchema.

Import HDF5_FileHandler_LEGACY.

Implicit Types (txyz : list (list Q)) (frames : list (string * Group)).

Lemma insert_by_decorated {A} (key : A -> Z) x (l : list (Z * A)) :
  Forall (fun p => fst p = key (snd p)) l ->
  map snd (insert_by fst (key x, x) l) = insert_by key x (map snd l).
Proof.
  induction 1 as [| [k y] l Hy Hl IH]; [done |].
  simpl in *. subst k. destruct (key y <? key x)%Z; simpl; [by rewrite IH | done].
Qed.

(** Sorting the pairs of key and element is sorting the elements by key. *)
Lemma sorted_by_decorated {A} (key : A -> Z) (l : list A) :
  map snd (sorted_by fst (map (fun a => (key a, a)) l)) = sorted_by key l.
Proof.
  induction l as [| x l IH]; [done |].
  unfold sorted_by in *. simpl. rewrite insert_by_decorated, IH; [done |].
  apply Forall_forall. intros p Hp.
  pose proof (sorted_by_Permutation fst (map (fun a => (key a, a)) l)) as Hperm.
  unfold sorted_by in Hperm. rewrite Hperm in Hp.
  apply list_elem_of_fmap in Hp as [a [-> _]]. done.
Qed.

Lemma frame_keys_run {S} (names : list string) (s : S) :
  Forall (fun f => is_ok (lambda_frm f) = true) names ->
  mapM (fun f => k <- lift (lambda_frm f) ;; ret (k, f)) names s
  = (Ok (map (fun f => (frame_number f, f)) names), s).
Proof.
  induction 1 as [| f names Hf Hnames IH]; [done |].
  rewrite mapM_cons. simpl map. unfold bind at 1. unfold bind at 1. unfold lift at 1.
  assert (lambda_frm f = Ok (frame_number f)) as ->.
  { unfold frame_number. destruct (lambda_frm f); done. }
  unfold ret at 1. unfold bind at 1. rewrite IH. reflexivity.
Qed.

Lemma sorted_frames_run {S} (names : list string) (s : S) :
  Forall (fun f => is_ok (lambda_frm f) = true) names ->
  sorted_frames names s = (Ok (sorted_by frame_number names), s).
Proof.
  intros Hok. unfold sorted_frames. unfold bind at 1. rewrite frame_keys_run by done.
  unfold ret. by rewrite sorted_by_decorated.
Qed.

Lemma LEGACY_new_PyTrackObject_run id row lab type :
  (4 <= length row)%nat ->
  match lab with Some l => (1 <= length l)%nat | None => True end ->
  new_PyTrackObject id row lab type
  = Ok (mkObj id (NFloat (nth 0 row 0%Q)) (NFloat (nth 1 row 0%Q))
              (NFloat (nth 2 row 0%Q)) (NFloat (nth 3 row 0%Q)) false
              (match lab with Some l => nth 0 l 0%Z | None => 0%Z end) [0%Q]
              (astype_int type)).
Proof.
  intros Hrow Hlab.
  destruct row as [| t [| x [| y [| z row]]]]; simpl in Hrow; try lia.
  destruct lab as [[| c l] |]; simpl in Hlab; try lia; reflexivity.
Qed.

Lemma label_rows_lookup n labs o :
  (o < n)%nat ->
  match labs with Some l => n = length l | None => True end ->
  label_rows n labs !! o
  = Some (match labs with Some l => l !! o | None => None end).
Proof.
  intros Ho Hn. destruct labs as [l |]; simpl.
  - rewrite list_lookup_fmap. subst n.
    destruct (lookup_lt_is_Some_2 l o Ho) as [lab ->]. reflexivity.
  - by rewrite lookup_replicate_2.
Qed.

Lemma LEGACY_read_row_run txyz labs o id row :
  txyz !! o = Some row ->
  (5 <= length row)%nat ->
  match labs with
  | Some l => exists lab, l !! o = Some lab /\ (1 <= length lab)%nat
  | None => True
  end ->
  read_row txyz labs o id
  = (Ok (legacy_object id row (match labs with Some l => l !! o | None => None end)),
     id + 1).
Proof.
  intros Hrow Hlen Hlab. unfold read_row.
  assert (getitem row 4 = Ok (nth 4 row 0%Q)) as Htype.
  { destruct row as [| t [| x [| y [| z [| ty row]]]]]; simpl in Hlen; try lia. done. }
  destruct labs as [l |].
  - destruct Hlab as (lab & Hl & Hlab).
    unfold bind at 1. unfold bind at 1. unfold lift at 1, getitem at 1. rewrite Hl.
    unfold ret at 1. unfold bind at 1. unfold lift at 1, getitem at 1. rewrite Hrow.
    unfold bind at 1. unfold lift at 1. rewrite Htype.
    unfold bind at 1. unfold get. unfold bind at 1. unfold lift at 1.
    rewrite LEGACY_new_PyTrackObject_run by (done || lia). reflexivity.
  - unfold bind at 1. unfold ret at 1.
    unfold bind at 1. unfold lift at 1, getitem at 1. rewrite Hrow.
    unfold bind at 1. unfold lift at 1. rewrite Htype.
    unfold bind at 1. unfold get. unfold bind at 1. unfold lift at 1.
    rewrite LEGACY_new_PyTrackObject_run by (done || lia). reflexivity.
Qed.

(** The inner loop of the legacy reader over the rows [k, k + n). *)
Lemma LEGACY_read_rows_run txyz labs :
  Forall (fun row => (5 <= length row)%nat) txyz ->
  match labs with
  | Some l => length txyz = length l /\ Forall (fun lab => (1 <= length lab)%nat) l
  | None => True
  end ->
  forall n k id,
    (k + n = length txyz)%nat ->
    mapM (read_row txyz labs) (seq k n) id
    = (Ok (legacy_objects_of id (drop k (zip txyz (label_rows (length txyz) labs)))),
       id + Z.of_nat n).
Proof.
  intros Hrows Hlabs. induction n as [| n IH]; intros k id Hk.
  - simpl. rewrite drop_ge by (rewrite length_zip_with; lia).
    rewrite Z.add_0_r. reflexivity.
  - destruct (lookup_lt_is_Some_2 txyz k) as [row Hrow]; [lia |].
    assert (zip txyz (label_rows (length txyz) labs) !! k
            = Some (row, match labs with Some l => l !! k | None => None end)) as Hzip.
    { rewrite lookup_zip_with, Hrow. simpl.
      rewrite label_rows_lookup; [done | lia |].
      destruct labs; [apply Hlabs | done]. }
    rewrite (drop_S _ _ _ Hzip). simpl seq. rewrite mapM_cons.
    unfold bind at 1.
    rewrite (LEGACY_read_row_run txyz labs k id row Hrow).
    + unfold bind at 1. rewrite (IH (S k) (id + 1)) by lia.
      unfold ret. simpl legacy_objects_of.
      replace (id + 1 + Z.of_nat n) with (id + Z.of_nat (S n)) by lia. reflexivity.
    + by apply (Forall_lookup_1 _ _ _ _ Hrows Hrow).
    + destruct labs as [l |]; [| done]. destruct Hlabs as [Hlen Hl].
      destruct (lookup_lt_is_Some_2 l k) as [lab Hlab]; [lia |].
      exists lab. split; [done |]. by apply (Forall_lookup_1 _ _ _ _ Hl Hlab).
Qed.

Lemma frame_rows_length frames frm grp :
  group_lookup frm frames = Ok grp -> frame_ok grp ->
  length (frame_rows frames frm) = length (frame_coords frames frm)
  /\ (frame_rows frames frm).*1 = frame_coords frames frm.
Proof.
  intros Hgrp (txyz & Hc & _ & Hlabs). unfold frame_rows, frame_coords.
  rewrite Hgrp, Hc. simpl.
  assert (length (label_rows (length txyz) (labels grp)) = length txyz) as Hlen.
  { destruct (labels grp) as [l |]; simpl.
    - rewrite length_map. by destruct Hlabs.
    - by rewrite length_replicate. }
  split.
  - rewrite length_zip_with. lia.
  - apply fst_zip. lia.
Qed.

Lemma LEGACY_read_frame_run frames objects_so_far frm grp id :
  group_lookup frm frames = Ok grp ->
  frame_ok grp ->
  read_frame frames objects_so_far frm id
  = (Ok (objects_so_far ++ legacy_objects_of id (frame_rows frames frm)),
     id + Z.of_nat (length (frame_rows frames frm))).
Proof.
  intros Hgrp Hok.
  destruct (frame_rows_length frames frm grp Hgrp Hok) as [Hlen _].
  destruct Hok as (txyz & Hc & Hrows & Hlabs).
  unfold frame_rows, frame_coords in *. rewrite Hgrp, Hc in Hlen |- *. simpl in Hlen |- *.
  unfold read_frame.
  unfold bind at 1. unfold lift at 1. rewrite Hgrp.
  unfold bind at 1. unfold lift at 1. rewrite Hc. unfold member.
  assert (forall s : Z,
             match labels grp with
             | Some l =>
                 if bool_decide (length txyz = length l) then ret (Some l)
                 else raise AssertionError ""
             | None => ret None
             end s = (Ok (labels grp), s)) as Hassert.
  { intros s. destruct (labels grp) as [l |]; [| done].
    destruct Hlabs as [Hl _]. by rewrite bool_decide_eq_true_2. }
  unfold bind at 1. rewrite Hassert.
  unfold bind at 1.
  rewrite (LEGACY_read_rows_run txyz (labels grp) Hrows Hlabs (length txyz) 0 id) by done.
  unfold ret. rewrite Hlen. reflexivity.
Qed.

Lemma legacy_objects_of_app id rows rows' :
  legacy_objects_of id (rows ++ rows')
  = legacy_objects_of id rows
    ++ legacy_objects_of (id + Z.of_nat (length rows)) rows'.
Proof.
  revert id. induction rows as [| [row lab] rows IH]; intros id; simpl.
  - by rewrite Z.add_0_r.
  - rewrite IH. do 3 f_equal. lia.
Qed.

Lemma LEGACY_read_frames_run frames (frms : list string) :
  Forall (fun frm => exists grp, group_lookup frm frames = Ok grp /\ frame_ok grp) frms ->
  forall objects_so_far id,
    foldM (read_frame frames) frms objects_so_far id
    = (Ok (objects_so_far
           ++ legacy_objects_of id (concat (map (frame_rows frames) frms))),
       id + Z.of_nat (length (concat (map (frame_rows frames) frms)))).
Proof.
  induction 1 as [| frm frms (grp & Hgrp & Hok) Hfrms IH]; intros acc id.
  - simpl. by rewrite app_nil_r, Z.add_0_r.
  - rewrite foldM_cons. unfold bind at 1.
    rewrite (LEGACY_read_frame_run frames acc frm grp id Hgrp Hok), IH.
    simpl. rewrite legacy_objects_of_app, length_app, Nat2Z.inj_add, <- app_assoc.
    f_equal. lia.
Qed.

Lemma group_lookup_found (P : Group -> Prop) frames frm :
  frm ∈ map fst frames ->
  Forall (fun f => P (snd f)) frames ->
  exists grp, group_lookup frm frames = Ok grp /\ P grp.
Proof.
  induction frames as [| [k g] frames IH]; simpl.
  - by intros ?%elem_of_nil.
  - intros Hin [Hg Hrest]%Forall_cons.
    destruct (String.eqb_spec k frm) as [-> | Hne]; [by exists g |].
    apply IH; [| done]. set_solver.
Qed.

Lemma legacy_objects_of_IDs id rows :
  map o_ID (legacy_objects_of id rows) = seqZ id (Z.of_nat (length rows)).
Proof.
  revert id. induction rows as [| [row lab] rows IH]; intros id; [done |].
  simpl length. rewrite Nat2Z.inj_succ, seqZ_cons by lia. simpl.
  rewrite IH. do 2 f_equal; lia.
Qed.

Lemma legacy_objects_of_length id rows :
  length (legacy_objects_of id rows) = length rows.
Proof.
  revert id. induction rows as [| [row lab] rows IH]; intros id; [done |].
  simpl. by rewrite IH.
Qed.

Lemma legacy_objects_of_t id rows :
  map o_t (legacy_objects_of id rows)
  = map (fun row => NFloat (nth 0 row 0%Q)) (rows.*1).
Proof.
  revert id. induction rows as [| [row lab] rows IH]; intros id; [done |].
  simpl. by rewrite IH.
Qed.

Lemma legacy_objects_of_types id rows :
  map o_type (legacy_objects_of id rows)
  = map (fun row => astype_int (nth 4 row 0%Q)) (rows.*1).
Proof.
  revert id. induction rows as [| [row lab] rows IH]; intros id; [done |].
  simpl. by rewrite IH.
Qed.

Example lambda_frm_frame_10 : lambda_frm "frame_10" = Ok 10.
Proof. reflexivity. Qed.

Example lambda_frm_no_numeral :
  raised (lambda_frm "frame_x") = Some AttributeError.
Proof. reflexivity. Qed.

Lemma frame_rows_coords frames (frms : list string) :
  Forall (fun frm => exists grp, group_lookup frm frames = Ok grp /\ frame_ok grp) frms ->
  (concat (map (frame_rows frames) frms)).*1 = concat (map (frame_coords frames) frms).
Proof.
  induction 1 as [| frm frms (grp & Hgrp & Hok) Hfrms IH]; [done |].
  simpl. rewrite fmap_app, IH. f_equal.
  by destruct (frame_rows_length frames frm grp Hgrp Hok).
Qed.

Lemma is_digit_spec (c : ascii) : is_digit c = true <-> c ∈ decimal_digits.
Proof.
  assert (is_digit c = bool_decide (c ∈ decimal_digits)) as ->.
  { destruct c as [[] [] [] [] [] [] [] []]; vm_compute; reflexivity. }
  apply bool_decide_eq_true.
Qed.

Lemma append_cons c (a b : string) : String c a +:+ b = String c (a +:+ b).
Proof. reflexivity. Qed.

Lemma append_nil (b : string) : "" +:+ b = b.
Proof. reflexivity. Qed.

Lemma append_assoc (a b c : string) : (a +:+ b) +:+ c = a +:+ (b +:+ c).
Proof.
  induction a as [| x a IH]; [done |]. by rewrite !append_cons, IH.
Qed.

Lemma re_search_digits_prefix prefix s :
  digit_free prefix -> re_search_digits (prefix +:+ s) = re_search_digits s.
Proof.
  unfold digit_free. induction prefix as [| c prefix IH]; [done |].
  rewrite append_cons. simpl. intros [Hc Hp]%Forall_cons. rewrite <- is_digit_spec in Hc.
  destruct (is_digit c); [done | by apply IH].
Qed.

Lemma re_search_digits_run s :
  take_digits s <> "" -> re_search_digits s = Some (take_digits s).
Proof. destruct s as [| c s]; simpl; [done |]. by destruct (is_digit c). Qed.

Lemma take_digits_rest d rest :
  take_digits d = d -> no_leading_digit rest -> take_digits (d +:+ rest) = d.
Proof.
  induction d as [| c d IH]; rewrite ?append_cons, ?append_nil; simpl;
    intros Hd Hrest.
  - destruct rest as [| c rest]; simpl; [done |].
    simpl in Hrest. rewrite <- is_digit_spec in Hrest. by destruct (is_digit c).
  - destruct (is_digit c); [| done]. injection Hd as Hd. by rewrite IH.
Qed.

Lemma take_digits_app a b :
  take_digits a = a -> take_digits b = b -> take_digits (a +:+ b) = a +:+ b.
Proof.
  induction a as [| c a IH]; rewrite ?append_cons, ?append_nil; simpl;
    intros Ha Hb; [done |].
  destruct (is_digit c); [| done]. injection Ha as Ha. by rewrite IH.
Qed.

Lemma take_digits_zeros k : take_digits (zeros k) = zeros k.
Proof. induction k as [| k IH]; simpl; [done |]. by rewrite IH. Qed.

Lemma pretty_N_char_digit (d : N) :
  (d < 10)%N ->
  is_digit (pretty_N_char d) = true
  /\ (Z.of_nat (nat_of_ascii (pretty_N_char d)) - 48 = Z.of_N d)%Z.
Proof.
  intros Hd. replace d with (N.of_nat (N.to_nat d)) by lia.
  assert (N.to_nat d < 10)%nat as Hk by lia.
  generalize dependent (N.to_nat d). intros k Hk.
  do 10 (destruct k as [| k]; [by split |]). lia.
Qed.

Lemma take_digits_pretty_N_go (x : N) s :
  take_digits s = s -> take_digits (pretty_N_go x s) = pretty_N_go x s.
Proof.
  revert s. induction (N.lt_wf_0 x) as [x _ IH]; intros s Hs.
  assert (x = 0 \/ 0 < x)%N as [-> | Hx] by lia.
  - by rewrite pretty_N_go_0.
  - rewrite pretty_N_go_step by done. apply IH; [by apply N.div_lt |].
    simpl. destruct (pretty_N_char_digit (x `mod` 10)) as [-> _].
    + by apply N.mod_lt.
    + by rewrite Hs.
Qed.

Lemma take_digits_pretty (n : N) : take_digits (pretty n) = pretty n.
Proof.
  unfold pretty, pretty_N. case_decide; [done |]. by apply take_digits_pretty_N_go.
Qed.

Lemma int_of_digits_pretty_N_go (x : N) s :
  int_of_digits (pretty_N_go x s) 0 = int_of_digits s (Z.of_N x).
Proof.
  revert s. induction (N.lt_wf_0 x) as [x _ IH]; intros s.
  assert (x = 0 \/ 0 < x)%N as [-> | Hx] by lia.
  - by rewrite pretty_N_go_0.
  - rewrite pretty_N_go_step by done. rewrite IH by (by apply N.div_lt).
    simpl. f_equal.
    destruct (pretty_N_char_digit (x `mod` 10)) as [_ ->]; [by apply N.mod_lt |].
    pose proof (N.div_mod x 10). lia.
Qed.

Lemma int_of_digits_pretty (n : N) : int_of_digits (pretty n) 0 = Z.of_N n.
Proof.
  unfold pretty, pretty_N. case_decide as Hn; [by subst |].
  by rewrite int_of_digits_pretty_N_go.
Qed.

Lemma int_of_digits_zeros k s : int_of_digits (zeros k +:+ s) 0 = int_of_digits s 0.
Proof.
  induction k as [| k IH]; [done |]. simpl zeros. rewrite append_cons. exact IH.
Qed.

Lemma pretty_N_nonempty (n : N) : pretty n <> "".
Proof.
  intros Hn. pose proof (int_of_digits_pretty n) as Hint.
  rewrite Hn in Hint. simpl in Hint.
  assert (n = 0%N) as -> by lia. discriminate Hn.
Qed.

(** The key of a name that carries the number [n] is [n]. *)
Lemma lambda_frm_numeral f n :
  embeds_numeral f n -> lambda_frm f = Ok (Z.of_N n).
Proof.
  intros (prefix & k & rest & -> & Hprefix & Hrest).
  unfold lambda_frm. rewrite re_search_digits_prefix by done.
  rewrite <- !append_assoc.
  assert (take_digits ((zeros k +:+ pretty n) +:+ rest) = zeros k +:+ pretty n) as Hrun.
  { apply take_digits_rest; [| done].
    apply take_digits_app; [apply take_digits_zeros | apply take_digits_pretty]. }
  rewrite re_search_digits_run; rewrite Hrun.
  - by rewrite int_of_digits_zeros, int_of_digits_pretty.
  - intros Hempty. apply (pretty_N_nonempty n).
    destruct k; [done | discriminate].
Qed.

Lemma StronglySorted_lookup {A} (R : A -> A -> Prop) (l : list A) i j x y :
  StronglySorted R l -> l !! i = Some x -> l !! j = Some y -> (i < j)%nat -> R x y.
Proof.
  intros Hl. revert i j. induction Hl as [| a l Hl IH Ha]; intros i j Hi Hj Hij.
  - done.
  - destruct j as [| j]; [lia |]. destruct i as [| i]; simpl in *.
    + injection Hi as <-. apply (Forall_forall (R a) l); [done |].
      by apply list_elem_of_lookup_2 in Hj.
    + apply (IH i j); [done | done | lia].
Qed.

Lemma Forall2_of_map_eq {A B C} (f : A -> C) (g : B -> C) (l : list A) (k : list B) :
  map f l = map g k -> Forall2 (fun x y => f x = g y) l k.
Proof.
  revert k. induction l as [| x l IH]; intros [| y k] Heq; simplify_eq/=;
    constructor; auto.
Qed.

Lemma astype_int_truncates_to (q : Q) : truncates_to q (astype_int q).
Proof.
  destruct (astype_int_truncates q) as [Hpos Hneg]. split; intros Hq.
  - by apply Hpos.
  - destruct (Hneg Hq). by split.
Qed.

Example lambda_frm_examples :
  lambda_frm "frame_3b" = Ok 3
  /\ lambda_frm "t007_x12" = Ok 7
  /\ lambda_frm "frame_10" = Ok 10
  /\ raised (lambda_frm "frame") = Some AttributeError.
Proof. repeat split; reflexivity. Qed.

(** C5: the legacy reader goes through the frame groups in ascending order
    of the numeral in their names ([frame_2], [frame_10], [frame_1] are
    taken in the order 1, 2, 10): the key of a name that carries the number
    [n] is [n], and of two frames the one taken first carries the smaller
    number.  The reader gives the objects IDs that count up from 0 across
    the whole file, and takes each object's type from column 4 of its
    coordinate row, rounded toward zero. *)
Theorem LEGACY_objects_in_numeral_order hdf frames id0 :
  h5_frames hdf = Some frames ->
  Forall (fun f => is_ok (lambda_frm (fst f)) = true /\ frame_ok (snd f)) frames ->
  let frms := sorted_by frame_number (map fst frames) in
  let rows := concat (map (frame_coords frames) frms) in
  sorted_by frame_number ["frame_2"; "frame_10"; "frame_1"]
  = ["frame_1"; "frame_2"; "frame_10"]
  /\ frms ≡ₚ map fst frames
  /\ StronglySorted (key_le frame_number) frms
  /\ (forall f n, embeds_numeral f n -> frame_number f = Z.of_N n)
  /\ (forall i j f g n m,
        frms !! i = Some f -> frms !! j = Some g -> (i < j)%nat ->
        embeds_numeral f n -> embeds_numeral g m -> (n <= m)%N)
  /\ exists objs,
      objects hdf id0 = (Ok objs, Z.of_nat (length objs))
      /\ length objs = length rows
      /\ map o_ID objs = seqZ 0 (Z.of_nat (length objs))
      /\ map o_t objs = map (fun row => NFloat (nth 0 row 0%Q)) rows
      /\ map o_type objs = map (fun row => astype_int (nth 4 row 0%Q)) rows
      /\ Forall2 (fun o row => truncates_to (nth 4 row 0%Q) (o_type o)) objs rows.
Proof.
  intros Hframes Hok frms rows.
  assert (frms ≡ₚ map fst frames) as Hperm by apply sorted_by_Permutation.
  assert (Forall (fun frm => exists grp, group_lookup frm frames = Ok grp /\ frame_ok grp)
                 frms) as Hfound.
  { apply Forall_forall. intros frm Hfrm. rewrite Hperm in Hfrm.
    apply group_lookup_found; [done |].
    eapply Forall_impl; [exact Hok |]. by intros f [_ Hf]. }
  assert (Forall (fun f => is_ok (lambda_frm f) = true) (map fst frames)) as Hnum.
  { apply Forall_fmap. eapply Forall_impl; [exact Hok |]. by intros f [Hf _]. }
  assert (forall f n, embeds_numeral f n -> frame_number f = Z.of_N n) as Hkey.
  { intros f n Hf. unfold frame_number. by rewrite (lambda_frm_numeral f n). }
  split; [reflexivity |]. split; [exact Hperm |].
  split; [apply sorted_by_sorted |].
  split; [exact Hkey |].
  split.
  { intros i j f g n m Hi Hj Hij Hf Hg.
    pose proof (StronglySorted_lookup (key_le frame_number) frms i j f g
                  (sorted_by_sorted frame_number (map fst frames)) Hi Hj Hij) as Hle.
    unfold key_le in Hle. rewrite (Hkey f n), (Hkey g m) in Hle by done. lia. }
  exists (legacy_objects_of 0 (concat (map (frame_rows frames) frms))).
  assert (length (concat (map (frame_rows frames) frms)) = length rows) as Hlen.
  { unfold rows. rewrite <- (frame_rows_coords frames frms Hfound).
    by rewrite length_fmap. }
  assert (map o_type (legacy_objects_of 0 (concat (map (frame_rows frames) frms)))
          = map (fun row => astype_int (nth 4 row 0%Q)) rows) as Htypes.
  { by rewrite legacy_objects_of_types, frame_rows_coords. }
  split; [| split; [| split; [| split; [| split]]]].
  - unfold objects. unfold bind at 1. unfold put.
    unfold bind at 1. unfold lift, member. rewrite Hframes.
    unfold bind at 1. rewrite sorted_frames_run by done.
    fold frms. rewrite (LEGACY_read_frames_run frames frms Hfound [] 0).
    rewrite legacy_objects_of_length. reflexivity.
  - by rewrite legacy_objects_of_length.
  - by rewrite legacy_objects_of_IDs, legacy_objects_of_length.
  - by rewrite legacy_objects_of_t, frame_rows_coords.
  - exact Htypes.
  - apply Forall2_of_map_eq in Htypes.
    eapply Forall2_impl; [exact Htypes |].
    intros o row ->. apply astype_int_truncates_to.
Qed.

Lemma LEGACY_objects_in_numeral_order_witness :
  frame_number "frame_007b" = 7
  /\ exists objs,
      objects legacy_sample 7 = (Ok objs, Z.of_nat (length objs))
      /\ map o_ID objs = [0; 1; 2; 3]
      /\ map o_t objs = [NFloat 1; NFloat 2; NFloat 10; NFloat 10]
      /\ map o_type objs = [2; 1; 2; 3].
Proof.
  destruct (LEGACY_objects_in_numeral_order legacy_sample
              [("frame_2", mkGroup (Some [sample_row 2 1]) None);
               ("frame_10", mkGroup (Some [sample_row 10 (5 # 2); sample_row 10 3])
                                    (Some [[4%Z]; [1%Z]]));
               ("frame_1", mkGroup (Some [sample_row 1 2]) None)]
              7 eq_refl)
    as (_ & _ & _ & Hkey & _ & objs & Hrun & Hlen & HID & Ht & Htype & _).
  - repeat constructor; simpl;
      try (eexists; split; [reflexivity | split; repeat constructor]).
  - split.
    + apply (Hkey "frame_007b" 7%N). exists "frame_", 2%nat, "b".
      split; [reflexivity |]. split.
      * repeat constructor; apply (bool_decide_unpack _); reflexivity.
      * apply (bool_decide_unpack _). reflexivity.
    + exists objs. split; [exact Hrun |]. rewrite HID, Ht, Htype, Hlen.
      repeat split; reflexivity.
Defined.

End LegacySchema.

(** * Further properties of the exporters and readers *)

(** ** The fate table, track by track *)

Lemma fate_add_concat (d : list (string * list Z)) k v :
  concat (map snd (fate_add d k v)) ≡ₚ v :: concat (map snd d).
Proof.
  induction d as [| [k' vs] d IH]; simpl; [done |].
  destruct (String.eqb k' k); simpl.
  - rewrite <- app_assoc. simpl. by rewrite <- Permutation_middle.
  - rewrite IH. by rewrite <- Permutation_middle.
Qed.

Lemma fate_add_nonempty (d : list (string * list Z)) k v :
  Forall (fun e => snd e <> []) d -> Forall (fun e => snd e <> []) (fate_add d k v).
Proof.
  induction 1 as [| [k' vs] d Hvs Hd IH]; simpl.
  - by repeat constructor.
  - destruct (String.eqb k' k); constructor; simpl; try done.
    by destruct vs.
Qed.

(** X1: the lists of the fate table together hold every track exactly once
    (a track ID that occurs twice in the input is listed twice), and no key
    has an empty list; the table is empty only for the empty collection. *)
Theorem fate_table_lists_each_track_once (T : list Tracklet) :
  concat (map snd (fate_table T)) ≡ₚ map ID T
  /\ Forall (fun e => snd e <> []) (fate_table T)
  /\ (fate_table T = [] <-> T = []).
Proof.
  split; [| split].
  - induction T as [| t T IH] using rev_ind; [done |].
    rewrite fate_table_snoc, fate_add_concat, IH, map_app. simpl.
    by rewrite <- Permutation_cons_append.
  - induction T as [| t T IH] using rev_ind; [constructor |].
    rewrite fate_table_snoc. by apply fate_add_nonempty.
  - split; [| by intros ->].
    destruct T as [| t T _] using rev_ind; [done |].
    rewrite fate_table_snoc. intros Hempty. exfalso.
    destruct (fate_table T) as [| [k vs] d]; simpl in Hempty; [discriminate |].
    destruct (String.eqb k (fate_label t)); discriminate.
Qed.

(** ** Duplicate IDs in the JSON collection *)

Lemma dict_set_elem_self {V} (d : list (string * V)) k v : (k, v) ∈ dict_set d k v.
Proof.
  induction d as [| [k' v'] d IH]; simpl; [set_solver |].
  destruct (String.eqb_spec k' k) as [-> | Hne]; set_solver.
Qed.

Lemma dict_set_elem_other {V} (d : list (string * V)) k v k' v' :
  k' <> k -> (k', v') ∈ d -> (k', v') ∈ dict_set d k v.
Proof.
  intros Hne. induction d as [| [k0 v0] d IH]; simpl; [by intros ?%elem_of_nil |].
  destruct (String.eqb_spec k0 k) as [-> | Hne0]; set_solver.
Qed.

Lemma NoDup_keys_functional {V} (d : list (string * V)) k v v' :
  NoDup (map fst d) -> (k, v) ∈ d -> (k, v') ∈ d -> v = v'.
Proof.
  induction d as [| [k0 v0] d IH]; simpl; [by intros _ ?%elem_of_nil |].
  intros [Hk0 Hnd]%NoDup_cons [Heq | Hin]%elem_of_cons [Heq' | Hin']%elem_of_cons.
  - congruence.
  - exfalso. inversion Heq; subst. apply Hk0.
    change k0 with (fst (k0, v')). by apply list_elem_of_fmap_2.
  - exfalso. inversion Heq'; subst. apply Hk0.
    change k0 with (fst (k0, v)). by apply list_elem_of_fmap_2.
  - by apply IH.
Qed.

Lemma tracklet_docs_app T T' :
  tracklet_docs (T ++ T')
  = fold_left (fun d t => dict_set d (tracklet_key t) (to_dict t)) T' (tracklet_docs T).
Proof. unfold tracklet_docs. by rewrite fold_left_app. Qed.

Lemma tracklet_docs_keeps_last T1 t T2 :
  Forall (fun t' => ID t' <> ID t) T2 ->
  (tracklet_key t, to_dict t) ∈ tracklet_docs (T1 ++ t :: T2).
Proof.
  intros Hlater. rewrite (cons_middle t T1 T2), app_assoc, tracklet_docs_app.
  assert ((tracklet_key t, to_dict t) ∈ tracklet_docs (T1 ++ [t])) as Hin.
  { rewrite tracklet_docs_snoc. apply dict_set_elem_self. }
  revert Hin. generalize (tracklet_docs (T1 ++ [t])).
  induction Hlater as [| t' T2 Ht' Hlater IH]; intros d Hin; [done |].
  simpl. apply IH. apply dict_set_elem_other; [| done].
  intros Hkey. apply tracklet_key_inj in Hkey. congruence.
Qed.

Lemma tracklet_docs_count T :
  length (tracklet_docs T) = length (remove_dups (map ID T)).
Proof.
  rewrite <- (length_map (fun e => d_ID (snd e)) (tracklet_docs T)).
  apply Permutation_length, NoDup_Permutation.
  - apply tracklet_docs_IDs_NoDup.
  - apply NoDup_remove_dups.
  - intros id. rewrite elem_of_remove_dups. split.
    + intros [[k doc] [-> Hin]]%list_elem_of_fmap.
      apply tracklet_docs_elem in Hin as [t [Ht [_ ->]]].
      change (ID t ∈ map ID T). by apply list_elem_of_fmap_2.
    + intros [t [-> Ht]]%list_elem_of_fmap.
      pose proof (tracklet_docs_keys T t Ht) as Hk.
      apply list_elem_of_fmap in Hk as [[k doc] [Hk Hin]]. simpl in Hk. subst k.
      pose proof Hin as Hdoc.
      apply tracklet_docs_elem in Hdoc as [t' [_ [Hkey ->]]].
      apply tracklet_key_inj in Hkey. rewrite Hkey.
      change (ID t') with (d_ID (snd (tracklet_key t, to_dict t'))).
      by apply (list_elem_of_fmap_2 (fun e => d_ID (snd e))).
Qed.

(** X2: when several tracks share an ID, [export_JSON] keeps one entry per
    ID, and the entry of an ID documents the last track of the input with
    that ID; the earlier ones are dropped without an error. *)
Theorem export_JSON_last_duplicate_wins filename T1 t T2 w :
  Forall (fun t' => ID t' <> ID t) T2 ->
  can_create w filename = true ->
  exists docs,
    export_JSON filename (map VTracklet (T1 ++ t :: T2)) w
    = (Ok tt, mkWorld (<[filename := JsonTracks docs]> (files w))
                      (can_create w) (stdout w))
    /\ (forall doc, ("Tracklet_" +:+ pretty (ID t), doc) ∈ docs <-> doc = to_dict t)
    /\ length docs = length (remove_dups (map ID (T1 ++ t :: T2))).
Proof.
  intros Hlater Hw.
  set (key := fun e : string * TrackDict => d_ID (snd e)).
  exists (sorted_by key (tracklet_docs (T1 ++ t :: T2))).
  split; [| split].
  - rewrite export_JSON_Tracklets by (by destruct T1).
    unfold write_file. by rewrite Hw.
  - intros doc. rewrite sorted_by_Permutation.
    pose proof (tracklet_docs_keeps_last T1 t T2 Hlater) as Hin. split.
    + intros Hdoc.
      apply (NoDup_keys_functional _ _ _ _ (tracklet_docs_NoDup _) Hdoc Hin).
    + by intros ->.
  - rewrite (Permutation_length (sorted_by_Permutation key _)).
    apply tracklet_docs_count.
Qed.

Lemma export_JSON_last_duplicate_wins_witness :
  exists docs,
    export_JSON "out.json"
      (map VTracklet ([mkTracklet 1 [] 0 1 "interphase" None None] ++ track1 :: [track3]))
      world0
    = (Ok tt, mkWorld (<["out.json" := JsonTracks docs]> (files world0))
                      (can_create world0) (stdout world0))
    /\ (forall doc, ("Tracklet_" +:+ pretty (ID track1), doc) ∈ docs <-> doc = to_dict track1)
    /\ length docs
       = length (remove_dups
                   (map ID ([mkTracklet 1 [] 0 1 "interphase" None None]
                            ++ track1 :: [track3]))).
Proof.
  apply (export_JSON_last_duplicate_wins "out.json"
           [mkTracklet 1 [] 0 1 "interphase" None None] track1 [track3] world0).
  - repeat constructor. discriminate.
  - reflexivity.
Defined.

(** ** Elements after the first *)

Lemma tracklet_dict_raises (rest : list Value) (acc : Result (list (string * TrackDict))) :
  Exists (fun v => isinstance_Tracklet v = false) rest ->
  (forall e, acc = Raise e -> e = mkExn AttributeError "object has no attribute 'to_dict'") ->
  fold_left
    (fun acc trk =>
       match acc with
       | Raise e => Raise e
       | Ok d =>
           match as_Tracklet "to_dict" trk with
           | Ok t => Ok (dict_set d ("Tracklet_" +:+ pretty (ID t)) (to_dict t))
           | Raise e => Raise e
           end
       end)
    rest acc
  = Raise (mkExn AttributeError "object has no attribute 'to_dict'").
Proof.
  intros Hex. revert acc.
  assert (forall l e,
             fold_left
               (fun acc trk =>
                  match acc with
                  | Raise e => Raise e
                  | Ok d =>
                      match as_Tracklet "to_dict" trk with
                      | Ok t => Ok (dict_set d ("Tracklet_" +:+ pretty (ID t)) (to_dict t))
                      | Raise e => Raise e
                      end
                  end)
               l (Raise e) = Raise e) as Hstuck.
  { induction l as [| v l IH]; intros e; simpl; [done | apply IH]. }
  induction Hex as [v rest Hv | v rest Hex IH]; intros acc Hacc; simpl.
  - destruct acc as [d | e].
    + destruct v; try discriminate Hv; apply Hstuck.
    + rewrite Hstuck. f_equal. by apply Hacc.
  - apply IH. intros e. destruct acc as [d | e'].
    + destruct v; simpl; intros Heq; by inversion Heq.
    + intros Heq. inversion Heq; subst. by apply Hacc.
Qed.

Lemma as_Tracklet_mapM_raises (rest : list Value) (w : World) :
  Exists (fun v => isinstance_Tracklet v = false) rest ->
  mapM (fun trk => lift (as_Tracklet "to_array" trk)) rest w
  = (Raise (mkExn AttributeError "object has no attribute 'to_array'"), w).
Proof.
  induction 1 as [v rest Hv | v rest Hex IH]; rewrite mapM_cons.
  - destruct v; try discriminate Hv; reflexivity.
  - destruct v; try reflexivity.
    unfold bind at 1. unfold lift at 1. simpl. unfold bind at 1. by rewrite IH.
Qed.

(** X3: when the first element is a Tracklet and a later one is not (an
    integer, a string, a list, [None]), [export_JSON] and [export_MATLAB]
    raise an attribute error, not the type error of the type check, and
    no file is created. *)
Theorem later_non_Tracklet_attribute_error filename t rest w :
  Exists (fun v => isinstance_Tracklet v = false) rest ->
  (raised (fst (export_JSON filename (VTracklet t :: rest) w)) = Some AttributeError
   /\ snd (export_JSON filename (VTracklet t :: rest) w) = w)
  /\ (raised (fst (export_MATLAB filename (VTracklet t :: rest) w)) = Some AttributeError
      /\ snd (export_MATLAB filename (VTracklet t :: rest) w) = w).
Proof.
  intros Hex.
  assert (export_JSON filename (VTracklet t :: rest) w
          = (Raise (mkExn AttributeError "object has no attribute 'to_dict'"), w))
    as ->.
  { unfold export_JSON, check_track_type. run. unfold tracklet_dict. simpl.
    rewrite tracklet_dict_raises; [reflexivity | done | discriminate]. }
  assert (export_MATLAB filename (VTracklet t :: rest) w
          = (Raise (mkExn AttributeError "object has no attribute 'to_array'"), w))
    as ->.
  { unfold export_MATLAB, check_track_type.
    unfold bind at 1. unfold lift at 1. simpl negb. cbv iota.
    rewrite mapM_cons. unfold bind at 1. unfold bind at 1. unfold lift at 1. simpl.
    unfold bind at 1. by rewrite as_Tracklet_mapM_raises. }
  by repeat split.
Qed.

Lemma later_non_Tracklet_attribute_error_witness :
  (raised (fst (export_JSON "out" [VTracklet track1; VTracklet track3; VStr "track"]
                            world0)) = Some AttributeError
   /\ snd (export_JSON "out" [VTracklet track1; VTracklet track3; VStr "track"]
                       world0) = world0)
  /\ (raised (fst (export_MATLAB "out" [VTracklet track1; VTracklet track3; VStr "track"]
                                 world0)) = Some AttributeError
      /\ snd (export_MATLAB "out" [VTracklet track1; VTracklet track3; VStr "track"]
                            world0) = world0).
Proof.
  apply (later_non_Tracklet_attribute_error "out" track1
           [VTracklet track3; VStr "track"] world0).
  apply Exists_cons_tl, Exists_cons_hd. reflexivity.
Defined.

(** ** What the HDF5 exporter leaves alone *)

(** X4: [export_HDF] never creates, changes or removes a file, whatever the
    tracks, the dummies and the file name; and it returns normally only on
    the branch that prints 'oops!', for a list that starts with a
    Tracklet. *)
Theorem export_HDF_never_writes wt wd filename tracks dummies w :
  files (snd (export_HDF wt wd filename tracks dummies w)) = files w
  /\ can_create (snd (export_HDF wt wd filename tracks dummies w)) = can_create w
  /\ (is_ok (fst (export_HDF wt wd filename tracks dummies w)) = true ->
      exists t rest,
        tracks = VTracklet t :: rest
        /\ stdout (snd (export_HDF wt wd filename tracks dummies w))
           = stdout w ++ [PStr "oops!"]).
Proof.
  destruct tracks as [| v rest]; [by repeat split |].
  destruct v as [| z | s | refs | t]; try (by repeat split).
  - unfold export_HDF, os_path_exists, HDF5_FileHandler.__init__. run.
    case_bool_decide as Hfound; simpl; [| by repeat split].
    destruct refs as [| r0 refs]; simpl; [by repeat split |].
    destruct (isinstance_int r0); simpl; [| by repeat split].
    destruct (files w !! filename) as [[] |]; simpl; by repeat split.
  - repeat split. intros _. by exists t, rest.
Qed.

(** ** Strings and paths *)

Lemma append_length (s1 s2 : string) :
  String.length (s1 +:+ s2) = (String.length s1 + String.length s2)%nat.
Proof.
  induction s1 as [| a s1 IH]; [done |].
  rewrite append_cons. simpl. by rewrite IH.
Qed.

Lemma append_inj_same_length (a b s s' : string) :
  String.length a = String.length b -> a +:+ s = b +:+ s' -> a = b /\ s = s'.
Proof.
  revert b. induction a as [| c a IH]; intros [| c' b] Hlen Heq;
    try discriminate Hlen.
  - done.
  - rewrite !append_cons in Heq. injection Heq as -> Heq.
    simpl in Hlen. destruct (IH b) as [-> ->]; [lia | done | done].
Qed.

(** Cancelling a common ending. *)
Lemma append_inj_r (a b s : string) : a +:+ s = b +:+ s -> a = b.
Proof.
  intros Heq. apply (append_inj_same_length a b s s); [| done].
  apply (f_equal String.length) in Heq. rewrite !append_length in Heq. lia.
Qed.

Lemma os_path_join_relative dir (name : string) :
  startswith_slash name = false -> os_path_join dir name = join_prefix dir +:+ name.
Proof.
  intros Hrel. unfold os_path_join, join_prefix. rewrite Hrel.
  destruct (bool_decide (dir = "") || endswith_slash dir); [done |].
  by rewrite append_assoc.
Qed.

Lemma os_path_join_inj dir (name name' : string) :
  startswith_slash name = false -> startswith_slash name' = false ->
  os_path_join dir name = os_path_join dir name' -> name = name'.
Proof.
  intros Hn Hn'. rewrite !os_path_join_relative by done.
  apply (inj (String.append _)).
Qed.

Lemma track_file_name_relative cts t : startswith_slash (track_file_name cts t) = false.
Proof. reflexivity. Qed.

Lemma track_file_name_inj cts t t' :
  track_file_name cts t = track_file_name cts t' -> ID t = ID t'.
Proof.
  unfold track_file_name. intros Heq. injection Heq as Heq.
  change (pretty (ID t) +:+ ("_" +:+ cts +:+ ".json")
          = pretty (ID t') +:+ ("_" +:+ cts +:+ ".json")) in Heq.
  apply append_inj_r in Heq. by apply (inj pretty) in Heq.
Qed.

Lemma track_path_inj dir cts t t' :
  os_path_join dir (track_file_name cts t) = os_path_join dir (track_file_name cts t') ->
  ID t = ID t'.
Proof.
  intros Heq. apply os_path_join_inj in Heq; [| done..].
  by apply track_file_name_inj in Heq.
Qed.

Lemma track_path_not_zip dir cts t :
  os_path_join dir (track_file_name cts t) <> os_path_join dir (zip_file_name cts).
Proof.
  intros Heq. apply os_path_join_inj in Heq; [| done..]. discriminate Heq.
Qed.

Lemma track_path_not_manifest dir cts t :
  os_path_join dir (track_file_name cts t) <> os_path_join dir (manifest_file_name cts).
Proof.
  intros Heq. apply os_path_join_inj in Heq; [| done..]. discriminate Heq.
Qed.

Lemma zip_path_not_manifest dir cts :
  os_path_join dir (zip_file_name cts) <> os_path_join dir (manifest_file_name cts).
Proof.
  intros Heq. apply os_path_join_inj in Heq; [| done..].
  unfold zip_file_name, manifest_file_name in Heq. injection Heq as Heq.
  change (cts +:+ ".zip" = cts +:+ ".json") in Heq.
  apply (inj (String.append _)) in Heq. discriminate Heq.
Qed.

Lemma track_names_NoDup cts (T : list Tracklet) :
  NoDup (map ID T) <-> NoDup (map (track_file_name cts) T).
Proof.
  induction T as [| t T IH]; simpl; [split; intros; constructor |].
  rewrite !NoDup_cons, IH. apply and_iff_compat_r. apply not_iff_compat. split.
  - intros [t' [Heq Ht']]%list_elem_of_fmap.
    apply list_elem_of_fmap. exists t'. split; [| done].
    unfold track_file_name. by rewrite Heq.
  - intros [t' [Heq Ht']]%list_elem_of_fmap.
    apply list_elem_of_fmap. exists t'. split; [| done].
    by apply track_file_name_inj in Heq.
Qed.

(** ** Running the archive exporter *)

Lemma export_all_tracks_JSON_loops export_dir tracks cell_type ct as_zip_archive :
  allowed_cell_type cell_type = Some ct ->
  export_all_tracks_JSON export_dir tracks cell_type as_zip_archive
  = (filenames <- foldM (write_track export_dir (str_cell_type ct)) tracks [] ;;
     (if as_zip_archive then
        write_file (os_path_join export_dir (zip_file_name (str_cell_type ct)))
                   (ZipFile []) ;;;
        foldM (zip_member export_dir
                 (os_path_join export_dir (zip_file_name (str_cell_type ct))))
              filenames [] ;;;
        ret tt
      else ret tt) ;;;
     write_file (os_path_join export_dir (manifest_file_name (str_cell_type ct)))
                (JsonManifest (str_cell_type ct) export_dir as_zip_archive filenames)).
Proof. intros Hct. unfold export_all_tracks_JSON. rewrite Hct. reflexivity. Qed.

Lemma lookup_write_all_notin (es : list (string * FileData)) m p :
  p ∉ map fst es -> write_all es m !! p = m !! p.
Proof.
  revert m. induction es as [| [q d] es IH]; intros m Hp; [done |].
  simpl in *. rewrite IH by set_solver. apply lookup_insert_ne. set_solver.
Qed.

Lemma lookup_write_all_in (es : list (string * FileData)) m p d :
  NoDup (map fst es) -> (p, d) ∈ es -> write_all es m !! p = Some d.
Proof.
  revert m. induction es as [| [q d'] es IH]; intros m Hnd Hin.
  - by apply elem_of_nil in Hin.
  - simpl in *. apply NoDup_cons in Hnd as [Hq Hnd].
    apply elem_of_cons in Hin as [Heq | Hin].
    + inversion Heq; subst. rewrite lookup_write_all_notin by done.
      apply lookup_insert_eq.
    + by apply IH.
Qed.

Lemma lookup_remove_all_in (ps : list string) m p :
  p ∈ ps -> remove_all ps m !! p = None.
Proof.
  revert m. induction ps as [| q ps IH]; intros m Hp; [by apply elem_of_nil in Hp |].
  simpl. destruct (decide (p ∈ ps)) as [Hin | Hnotin]; [by apply IH |].
  assert (p = q) as -> by set_solver.
  clear IH Hp. revert m. induction ps as [| q' ps IH]; intros m; simpl.
  - apply lookup_delete_eq.
  - rewrite delete_delete. apply IH. set_solver.
Qed.

Lemma lookup_remove_all_notin (ps : list string) m p :
  p ∉ ps -> remove_all ps m !! p = m !! p.
Proof.
  revert m. induction ps as [| q ps IH]; intros m Hp; [done |].
  simpl. rewrite IH by set_solver. apply lookup_delete_ne. set_solver.
Qed.

Lemma write_tracks_run dir cts (T : list Tracklet) :
  forall acc w,
    Forall (fun t => can_create w (os_path_join dir (track_file_name cts t)) = true) T ->
    foldM (write_track dir cts) (map VTracklet T) acc w
    = (Ok (acc ++ map (track_file_name cts) T),
       mkWorld (write_all (map (track_entry dir cts) T) (files w))
               (can_create w) (stdout w)).
Proof.
  induction T as [| t T IH]; intros acc w Hw.
  - simpl. rewrite app_nil_r. by destruct w.
  - apply Forall_cons in Hw as [Ht Hw]. simpl map. rewrite foldM_cons.
    unfold bind at 1. unfold write_track at 1.
    unfold bind at 1. unfold lift at 1. simpl as_Tracklet. cbv iota beta.
    unfold bind at 1. unfold export_single_track_JSON, write_file.
    change ("track_" +:+ pretty (ID t) +:+ "_" +:+ cts +:+ ".json")
      with (track_file_name cts t).
    rewrite Ht. unfold ret at 1.
    rewrite IH by done. simpl. by rewrite <- app_assoc.
Qed.

Lemma zip_members_run dir cts (T : list Tracklet) :
  NoDup (map ID T) ->
  forall members D c o,
    c (os_path_join dir (zip_file_name cts)) = true ->
    (forall t, t ∈ T ->
       D !! os_path_join dir (track_file_name cts t) = Some (JsonTrack (to_dict t))) ->
    foldM (zip_member dir (os_path_join dir (zip_file_name cts)))
          (map (track_file_name cts) T) members
          (mkWorld (<[os_path_join dir (zip_file_name cts) := ZipFile members]> D) c o)
    = (Ok (members ++ map (track_member cts) T),
       mkWorld (<[os_path_join dir (zip_file_name cts)
                  := ZipFile (members ++ map (track_member cts) T)]>
                  (remove_all (map fst (map (track_entry dir cts) T)) D))
               c o).
Proof.
  induction T as [| t T IH]; intros Hnd members D c o Hc HD.
  - simpl. by rewrite app_nil_r.
  - simpl in Hnd. apply NoDup_cons in Hnd as [Ht Hnd].
    simpl map. rewrite foldM_cons. unfold bind at 1. unfold zip_member at 1.
    unfold bind at 1. unfold read_file. simpl files.
    rewrite lookup_insert_ne by (apply not_eq_sym, track_path_not_zip).
    rewrite (HD t) by set_solver.
    unfold bind at 1. unfold write_file at 1. simpl can_create. rewrite Hc.
    simpl files. rewrite insert_insert_eq.
    unfold bind at 1. unfold os_remove. simpl files.
    rewrite lookup_insert_ne by (apply not_eq_sym, track_path_not_zip).
    rewrite (HD t) by set_solver. unfold ret at 1. simpl.
    rewrite delete_insert_ne by apply track_path_not_zip.
    rewrite (IH Hnd); [by rewrite <- app_assoc | done |].
    intros t' Ht'. rewrite lookup_delete_ne; [apply HD; set_solver |].
    intros Heq. apply track_path_inj in Heq. apply Ht. rewrite Heq.
    by apply list_elem_of_fmap_2.
Qed.

Lemma track_entries_NoDup dir cts (T : list Tracklet) :
  NoDup (map ID T) -> NoDup (map fst (map (track_entry dir cts) T)).
Proof.
  induction T as [| t T IH]; simpl; [constructor |].
  intros [Ht Hnd]%NoDup_cons. apply NoDup_cons. split; [| by apply IH].
  rewrite map_map. simpl. intros [t' [Heq Ht']]%list_elem_of_fmap.
  apply track_path_inj in Heq. apply Ht. rewrite Heq. by apply list_elem_of_fmap_2.
Qed.

(** A list of Tracklets with pairwise distinct IDs is exported without an
    error when the files can be created, and leaves [archive_files]. *)
Lemma export_all_tracks_JSON_run dir (T : list Tracklet) cell_type ct zipped w :
  allowed_cell_type cell_type = Some ct ->
  NoDup (map ID T) ->
  Forall (fun t => can_create w (os_path_join dir
                                   (track_file_name (str_cell_type ct) t)) = true) T ->
  (zipped = true -> can_create w (os_path_join dir (zip_file_name (str_cell_type ct))) = true) ->
  can_create w (os_path_join dir (manifest_file_name (str_cell_type ct))) = true ->
  export_all_tracks_JSON dir (map VTracklet T) cell_type zipped w
  = (Ok tt, mkWorld (archive_files dir (str_cell_type ct) T zipped (files w))
                    (can_create w) (stdout w)).
Proof.
  intros Hct Hnd HT HZ HM. rewrite (export_all_tracks_JSON_loops _ _ _ ct) by done.
  unfold bind at 1. rewrite write_tracks_run by done. simpl app.
  unfold bind at 1. destruct zipped.
  - unfold bind at 1. unfold write_file at 1. simpl can_create. rewrite HZ by done.
    simpl files. unfold bind at 1.
    rewrite (zip_members_run dir (str_cell_type ct) T Hnd []); [| by apply HZ |].
    + unfold ret at 1. unfold write_file. simpl can_create. rewrite HM. reflexivity.
    + intros t Ht. apply lookup_write_all_in; [by apply track_entries_NoDup |].
      by apply (list_elem_of_fmap_2 (track_entry dir (str_cell_type ct))).
  - unfold ret at 1. unfold write_file. simpl can_create. rewrite HM. reflexivity.
Qed.

(** X5: with [as_zip_archive=True], Tracklets with pairwise distinct IDs
    and a recognised cell type are exported without an error; afterwards no
    per-track file is left in the directory, the archive holds the
    documents of the tracks in input order, the manifest records
    [zipped=true] and lists exactly the names of the archive members, and
    every other file is as before. *)
Theorem zip_archive_export dir (T : list Tracklet) cell_type ct w :
  allowed_cell_type cell_type = Some ct ->
  NoDup (map ID T) ->
  Forall (fun t => can_create w (os_path_join dir
                                   (track_file_name (str_cell_type ct) t)) = true) T ->
  can_create w (os_path_join dir (zip_file_name (str_cell_type ct))) = true ->
  can_create w (os_path_join dir (manifest_file_name (str_cell_type ct))) = true ->
  exists w' members,
    export_all_tracks_JSON dir (map VTracklet T) cell_type true w = (Ok tt, w')
    /\ (forall t, t ∈ T ->
          files w' !! os_path_join dir (track_file_name (str_cell_type ct) t) = None)
    /\ files w' !! os_path_join dir (zip_file_name (str_cell_type ct))
       = Some (ZipFile members)
    /\ map snd members = map (fun t => JsonTrack (to_dict t)) T
    /\ files w' !! os_path_join dir (manifest_file_name (str_cell_type ct))
       = Some (JsonManifest (str_cell_type ct) dir true (map fst members))
    /\ (forall p,
          p <> os_path_join dir (zip_file_name (str_cell_type ct)) ->
          p <> os_path_join dir (manifest_file_name (str_cell_type ct)) ->
          (forall t, t ∈ T ->
             p <> os_path_join dir (track_file_name (str_cell_type ct) t)) ->
          files w' !! p = files w !! p).
Proof.
  intros Hct Hnd HT HZ HM. set (cts := str_cell_type ct) in *.
  eexists _, (map (track_member cts) T). split.
  { apply (export_all_tracks_JSON_run dir T cell_type ct true w); done. }
  simpl files. unfold archive_files. fold cts.
  assert (forall t, t ∈ T ->
            os_path_join dir (track_file_name cts t)
            ∈ map fst (map (track_entry dir cts) T)) as Hpaths.
  { intros t Ht. rewrite map_map. simpl.
    by apply (list_elem_of_fmap_2 (fun t => os_path_join dir (track_file_name cts t))). }
  split; [| split; [| split; [| split]]].
  - intros t Ht.
    rewrite lookup_insert_ne by (apply not_eq_sym, track_path_not_manifest).
    rewrite lookup_insert_ne by (apply not_eq_sym, track_path_not_zip).
    by apply lookup_remove_all_in, Hpaths.
  - rewrite lookup_insert_ne by (apply not_eq_sym, zip_path_not_manifest).
    apply lookup_insert_eq.
  - by rewrite map_map.
  - rewrite lookup_insert_eq, map_map. reflexivity.
  - intros p HpZ HpM Hp.
    assert (p ∉ map fst (map (track_entry dir cts) T)) as Hnotin.
    { rewrite map_map. simpl. intros [t [-> Ht]]%list_elem_of_fmap. by apply (Hp t). }
    rewrite !lookup_insert_ne by done.
    by rewrite lookup_remove_all_notin, lookup_write_all_notin.
Qed.

Lemma zip_archive_export_witness :
  exists w' members,
    export_all_tracks_JSON "out" (map VTracklet [track3; track1]) (VStr "GFP") true world0
    = (Ok tt, w')
    /\ (forall t, t ∈ [track3; track1] ->
          files w' !! os_path_join "out" (track_file_name "GFP" t) = None)
    /\ files w' !! "out/tracks_GFP.zip" = Some (ZipFile members)
    /\ map snd members = [JsonTrack (to_dict track3); JsonTrack (to_dict track1)]
    /\ files w' !! "out/tracks_GFP.json"
       = Some (JsonManifest "GFP" "out" true (map fst members)).
Proof.
  destruct (zip_archive_export "out" [track3; track1] (VStr "GFP") (Some "GFP") world0)
    as (w' & members & Hrun & Hloose & Hzip & Hdocs & Hman & _).
  - reflexivity.
  - repeat constructor; set_solver.
  - repeat constructor.
  - reflexivity.
  - reflexivity.
  - exists w', members. repeat split; assumption.
Defined.

(** X6: with [as_zip_archive=False], Tracklets with pairwise distinct IDs
    are exported to one file each, holding the document of the track; the
    manifest records [zipped=false] and lists the file names in input
    order; no archive is made and every other file is as before. *)
Theorem loose_archive_export dir (T : list Tracklet) cell_type ct w :
  allowed_cell_type cell_type = Some ct ->
  NoDup (map ID T) ->
  Forall (fun t => can_create w (os_path_join dir
                                   (track_file_name (str_cell_type ct) t)) = true) T ->
  can_create w (os_path_join dir (manifest_file_name (str_cell_type ct))) = true ->
  exists w',
    export_all_tracks_JSON dir (map VTracklet T) cell_type false w = (Ok tt, w')
    /\ (forall t, t ∈ T ->
          files w' !! os_path_join dir (track_file_name (str_cell_type ct) t)
          = Some (JsonTrack (to_dict t)))
    /\ files w' !! os_path_join dir (manifest_file_name (str_cell_type ct))
       = Some (JsonManifest (str_cell_type ct) dir false
                            (map (track_file_name (str_cell_type ct)) T))
    /\ (forall p,
          p <> os_path_join dir (manifest_file_name (str_cell_type ct)) ->
          (forall t, t ∈ T ->
             p <> os_path_join dir (track_file_name (str_cell_type ct) t)) ->
          files w' !! p = files w !! p).
Proof.
  intros Hct Hnd HT HM. set (cts := str_cell_type ct) in *.
  eexists. split.
  { apply (export_all_tracks_JSON_run dir T cell_type ct false w); done. }
  simpl files. unfold archive_files. fold cts.
  split; [| split].
  - intros t Ht.
    rewrite lookup_insert_ne by (apply not_eq_sym, track_path_not_manifest).
    apply lookup_write_all_in; [by apply track_entries_NoDup |].
    by apply (list_elem_of_fmap_2 (track_entry dir cts)).
  - apply lookup_insert_eq.
  - intros p HpM Hp.
    rewrite lookup_insert_ne by done. apply lookup_write_all_notin.
    rewrite map_map. simpl. intros [t [-> Ht]]%list_elem_of_fmap. by apply (Hp t).
Qed.

Lemma loose_archive_export_witness :
  exists w',
    export_all_tracks_JSON "out/" (map VTracklet [track3; track1]) VNone false world0
    = (Ok tt, w')
    /\ files w' !! "out/track_3_None.json" = Some (JsonTrack (to_dict track3))
    /\ files w' !! "out/tracks_None.json"
       = Some (JsonManifest "None" "out/" false
                            ["track_3_None.json"; "track_1_None.json"]).
Proof.
  destruct (loose_archive_export "out/" [track3; track1] VNone None world0)
    as (w' & Hrun & Hfiles & Hman & _).
  - reflexivity.
  - repeat constructor; set_solver.
  - repeat constructor.
  - reflexivity.
  - exists w'. split; [exact Hrun |]. split; [| exact Hman].
    apply (Hfiles track3). set_solver.
Defined.

(** ** Reading an archive back *)

Lemma mapM_map_pure {S A B C} (f : B -> St S C) (g : A -> B) (h : A -> C)
    (l : list A) (s : S) :
  (forall x, x ∈ l -> f (g x) s = (Ok (h x), s)) ->
  mapM f (map g l) s = (Ok (map h l), s).
Proof.
  induction l as [| x l IH]; intros Hf; [done |].
  simpl map. rewrite mapM_cons. unfold bind at 1. rewrite Hf by set_solver.
  unfold bind at 1. rewrite IH by set_solver. reflexivity.
Qed.

Lemma zip_read_absent (members : list (string * FileData)) name :
  name ∉ map fst members -> is_ok (zip_read members name) = false.
Proof.
  induction members as [| [n d] members IH]; simpl; [done |].
  intros Hname. destruct (zip_read members name) as [d' | e].
  - by rewrite IH in * by set_solver.
  - destruct (String.eqb_spec n name) as [-> | _]; [set_solver | done].
Qed.

Lemma zip_read_member cts (T : list Tracklet) t :
  NoDup (map ID T) -> t ∈ T ->
  zip_read (map (track_member cts) T) (track_file_name cts t)
  = Ok (JsonTrack (to_dict t)).
Proof.
  induction T as [| t0 T IH]; intros Hnd Ht; [by apply elem_of_nil in Ht |].
  simpl in Hnd. apply NoDup_cons in Hnd as [Ht0 Hnd]. simpl.
  apply elem_of_cons in Ht as [-> | Hin].
  2: { by rewrite IH. }
  - pose proof (zip_read_absent (map (track_member cts) T) (track_file_name cts t0)) as Habs.
    destruct (zip_read (map (track_member cts) T) (track_file_name cts t0)) as [d | e].
    + exfalso. assert (true = false); [apply Habs | done].
      rewrite map_map. simpl. intros [t' [Heq Ht']]%list_elem_of_fmap.
      apply track_file_name_inj in Heq. apply Ht0. rewrite Heq.
      by apply list_elem_of_fmap_2.
    + by rewrite String.eqb_refl.
Qed.

(** X7: exporting Tracklets with pairwise distinct IDs and importing the
    directory again, with the cell type given as the string the export
    rendered it to, yields one track per exported track, in input order:
    [from_dict] applied to the track's document with the cell type set and
    the name of the per-track file as 'filename'.  This holds with and
    without a zip archive, and the import changes no file. *)
Theorem archive_round_trip from_dict dir (T : list Tracklet) cell_type ct zipped w :
  allowed_cell_type cell_type = Some ct ->
  NoDup (map ID T) ->
  Forall (fun t => can_create w (os_path_join dir
                                   (track_file_name (str_cell_type ct) t)) = true) T ->
  can_create w (os_path_join dir (zip_file_name (str_cell_type ct))) = true ->
  can_create w (os_path_join dir (manifest_file_name (str_cell_type ct))) = true ->
  exists w',
    export_all_tracks_JSON dir (map VTracklet T) cell_type zipped w = (Ok tt, w')
    /\ import_all_tracks_JSON from_dict dir (Some (str_cell_type ct)) w'
       = (Ok (map (imported_track from_dict (Some (str_cell_type ct))) T), w').
Proof.
  intros Hct Hnd HT HZ HM. set (cts := str_cell_type ct) in *.
  set (w1 := mkWorld (archive_files dir cts T zipped (files w))
                     (can_create w) (stdout w)).
  exists w1. split.
  { apply (export_all_tracks_JSON_run dir T cell_type ct zipped w); done. }
  assert (files w1 !! os_path_join dir (manifest_file_name cts)
          = Some (JsonManifest cts dir zipped (map (track_file_name cts) T))) as Hman.
  { apply lookup_insert_eq. }
  assert (zipped = true ->
          files w1 !! os_path_join dir (zip_file_name cts)
          = Some (ZipFile (map (track_member cts) T))) as Hzip.
  { intros ->. unfold w1, archive_files. simpl.
    rewrite lookup_insert_ne by (apply not_eq_sym, zip_path_not_manifest).
    apply lookup_insert_eq. }
  assert (zipped = false -> forall t, t ∈ T ->
          files w1 !! os_path_join dir (track_file_name cts t)
          = Some (JsonTrack (to_dict t))) as Hfile.
  { intros -> t Ht. unfold w1, archive_files. simpl.
    rewrite lookup_insert_ne by (apply not_eq_sym, track_path_not_manifest).
    apply lookup_write_all_in; [by apply track_entries_NoDup |].
    by apply (list_elem_of_fmap_2 (track_entry dir cts)). }
  clearbody w1.
  unfold import_all_tracks_JSON. simpl str_cell_type.
  change ("tracks_" +:+ cts +:+ ".json") with (manifest_file_name cts).
  change ("tracks_" +:+ cts +:+ ".zip") with (zip_file_name cts).
  unfold bind at 1. unfold os_path_exists. cbv beta. rewrite Hman.
  rewrite bool_decide_eq_true_2 by eauto. change (negb true) with false. cbv iota.
  unfold bind at 1. unfold json_load. cbv beta. rewrite Hman. simpl is_json. cbv iota.
  unfold bind at 1. unfold lift at 1. simpl manifest_entry.
  rewrite bool_decide_eq_true_2 by done.
  destruct zipped.
  - unfold bind at 1. unfold zip_open. cbv beta. rewrite Hzip by done.
    apply mapM_map_pure. intros t Ht.
    unfold bind at 1. unfold lift at 1. rewrite zip_read_member by done.
    unfold bind at 1. reflexivity.
  - apply mapM_map_pure. intros t Ht.
    unfold bind at 1. unfold json_load. cbv beta. rewrite Hfile by done. reflexivity.
Qed.

Lemma archive_round_trip_witness :
  exists w',
    export_all_tracks_JSON "out" (map VTracklet [track3; track1]) (VStr "RFP") true world0
    = (Ok tt, w')
    /\ import_all_tracks_JSON
         (fun d fn => mkTracklet (d_ID d) (d_objects d) (d_parentID d) (d_rootID d)
                                 (d_fate_label d) (d_cell_type d) (Some fn))
         "out" (Some "RFP") w'
       = (Ok [mkTracklet 3 [] 1 1 "interphase" (Some "RFP") (Some "track_3_RFP.json");
              mkTracklet 1 [] 0 1 "apoptosis" (Some "RFP") (Some "track_1_RFP.json")],
          w').
Proof.
  apply (archive_round_trip
           (fun d fn => mkTracklet (d_ID d) (d_objects d) (d_parentID d) (d_rootID d)
                                   (d_fate_label d) (d_cell_type d) (Some fn))
           "out" [track3; track1] (VStr "RFP") (Some "RFP") true world0).
  - reflexivity.
  - repeat constructor; set_solver.
  - repeat constructor.
  - reflexivity.
  - reflexivity.
Defined.

(** ** What the importer leaves alone *)

Lemma leaves_world_bind {A B} (m : Py A) (f : A -> Py B) :
  leaves_world m -> (forall a, leaves_world (f a)) -> leaves_world (bind m f).
Proof.
  intros Hm Hf w. unfold bind. specialize (Hm w).
  destruct (m w) as [[a | e] w1]; simpl in Hm; subst w1; [apply Hf | done].
Qed.

Lemma leaves_world_lift {A} (r : Result A) : leaves_world (lift r).
Proof. by intros w. Qed.

Lemma leaves_world_raise {A} k msg : leaves_world (raise (A := A) k msg).
Proof. by intros w. Qed.

Lemma leaves_world_mapM {A B} (f : A -> Py B) (l : list A) :
  (forall x, leaves_world (f x)) -> leaves_world (mapM f l).
Proof.
  intros Hf. induction l as [| x l IH]; [by intros w |].
  rewrite mapM_cons. apply leaves_world_bind; [apply Hf |].
  intros y. apply leaves_world_bind; [apply IH |]. by intros ys w.
Qed.

Lemma leaves_world_json_load path : leaves_world (json_load path).
Proof.
  intros w. unfold json_load. destruct (files w !! path) as [d |]; [| done].
  by destruct (is_json d).
Qed.

Lemma leaves_world_zip_open path : leaves_world (zip_open path).
Proof.
  intros w. unfold zip_open. by destruct (files w !! path) as [[] |].
Qed.

(** X8: [import_all_tracks_JSON] only reads: whatever the directory holds
    and whether it returns tracks or raises, every file, and the rest of the
    world, is as before. *)
Theorem import_all_tracks_JSON_only_reads from_dict folder cell_type w :
  snd (import_all_tracks_JSON from_dict folder cell_type w) = w.
Proof.
  revert w. change (leaves_world (import_all_tracks_JSON from_dict folder cell_type)).
  unfold import_all_tracks_JSON.
  apply leaves_world_bind; [by intros w |]. intros found.
  destruct (negb found); [apply leaves_world_raise |].
  apply leaves_world_bind; [apply leaves_world_json_load |]. intros track_files.
  apply leaves_world_bind; [apply leaves_world_lift |]. intros [as_zipped names].
  destruct as_zipped.
  - apply leaves_world_bind; [apply leaves_world_zip_open |]. intros zipped_tracks.
    apply leaves_world_mapM. intros track_fn.
    apply leaves_world_bind; [apply leaves_world_lift |]. intros track_file.
    apply leaves_world_bind; [apply leaves_world_lift |]. intros d.
    apply leaves_world_lift.
  - apply leaves_world_mapM. intros track_fn.
    apply leaves_world_bind; [apply leaves_world_json_load |]. intros d.
    apply leaves_world_lift.
Qed.

(** X9: an archive exported with [cell_type=None] cannot be read back with
    [cell_type=None]: the manifest is found under 'tracks_None.json' but is
    keyed by the string 'None', and the import raises a key error. *)
Theorem archive_without_cell_type_not_read_back from_dict dir (T : list Tracklet) zipped w :
  NoDup (map ID T) ->
  Forall (fun t => can_create w (os_path_join dir (track_file_name "None" t)) = true) T ->
  can_create w (os_path_join dir (zip_file_name "None")) = true ->
  can_create w (os_path_join dir (manifest_file_name "None")) = true ->
  exists w',
    export_all_tracks_JSON dir (map VTracklet T) VNone zipped w = (Ok tt, w')
    /\ import_all_tracks_JSON from_dict dir None w' = (Raise (mkExn KeyError "None"), w').
Proof.
  intros Hnd HT HZ HM.
  set (w1 := mkWorld (archive_files dir "None" T zipped (files w))
                     (can_create w) (stdout w)).
  exists w1. split.
  { apply (export_all_tracks_JSON_run dir T VNone None zipped w); done. }
  assert (files w1 !! os_path_join dir (manifest_file_name "None")
          = Some (JsonManifest "None" dir zipped (map (track_file_name "None") T))) as Hman.
  { apply lookup_insert_eq. }
  clearbody w1.
  unfold import_all_tracks_JSON. simpl str_cell_type.
  change ("tracks_" +:+ "None" +:+ ".json") with (manifest_file_name "None").
  unfold bind at 1. unfold os_path_exists. cbv beta. rewrite Hman.
  rewrite bool_decide_eq_true_2 by eauto. change (negb true) with false. cbv iota.
  unfold bind at 1. unfold json_load. cbv beta. rewrite Hman. simpl is_json. cbv iota.
  unfold bind at 1. unfold lift at 1. reflexivity.
Qed.

Lemma archive_without_cell_type_not_read_back_witness :
  exists w',
    export_all_tracks_JSON "out" (map VTracklet [track3; track1]) VNone true world0
    = (Ok tt, w')
    /\ import_all_tracks_JSON
         (fun d fn => mkTracklet (d_ID d) (d_objects d) (d_parentID d) (d_rootID d)
                                 (d_fate_label d) (d_cell_type d) (Some fn))
         "out" None w'
       = (Raise (mkExn KeyError "None"), w').
Proof.
  apply (archive_without_cell_type_not_read_back
           (fun d fn => mkTracklet (d_ID d) (d_objects d) (d_parentID d) (d_rootID d)
                                   (d_fate_label d) (d_cell_type d) (Some fn))
           "out" [track3; track1] true world0).
  - repeat constructor; set_solver.
  - repeat constructor.
  - reflexivity.
  - reflexivity.
Defined.

(** ** Archive exports that fail half way *)

Lemma foldM_app {S A B} (body : B -> A -> St S B) (l1 l2 : list A) acc s :
  foldM body (l1 ++ l2) acc s
  = match foldM body l1 acc s with
    | (Ok acc', s') => foldM body l2 acc' s'
    | (Raise e, s') => (Raise e, s')
    end.
Proof.
  revert acc s. induction l1 as [| x l1 IH]; intros acc s; [done |].
  simpl app. rewrite !foldM_cons. unfold bind.
  destruct (body acc x s) as [[acc' | e] s']; [apply IH | done].
Qed.

Lemma lookup_write_all_is_Some (es : list (string * FileData)) m p :
  p ∈ map fst es -> is_Some (write_all es m !! p).
Proof.
  revert m. induction es as [| [q d] es IH]; intros m Hp; [by apply elem_of_nil in Hp |].
  simpl in *. destruct (decide (p ∈ map fst es)) as [Hin | Hnotin]; [by apply IH |].
  assert (p = q) as -> by set_solver.
  rewrite lookup_write_all_notin by done. rewrite lookup_insert_eq. eauto.
Qed.

(** The archive loop stops with an OS error at a name whose file is gone. *)
Lemma zip_loop_missing dir Z (l : list string) :
  forall members D c o,
    c Z = true ->
    (forall n, n ∈ l -> os_path_join dir n <> Z) ->
    (exists n, n ∈ l /\ D !! os_path_join dir n = None) ->
    exists w',
      foldM (zip_member dir Z) l members (mkWorld (<[Z := ZipFile members]> D) c o)
      = (Raise (mkExn OSError "No such file or directory"), w')
      /\ (forall q, q <> Z -> (forall n, n ∈ l -> q <> os_path_join dir n) ->
            files w' !! q = D !! q).
Proof.
  induction l as [| n0 l IH]; intros members D c o Hc HZ (n & Hn & Hgone).
  - by apply elem_of_nil in Hn.
  - rewrite foldM_cons. unfold bind at 1. unfold zip_member at 1.
    unfold bind at 1. unfold read_file. cbv beta. simpl files.
    rewrite lookup_insert_ne by (apply not_eq_sym, HZ; set_solver).
    destruct (D !! os_path_join dir n0) as [d |] eqn:Hn0.
    + unfold bind at 1. unfold write_file at 1. simpl can_create. rewrite Hc.
      simpl files. rewrite insert_insert_eq.
      unfold bind at 1. unfold os_remove. simpl files.
      rewrite lookup_insert_ne by (apply not_eq_sym, HZ; set_solver).
      rewrite Hn0. unfold ret at 1. simpl.
      rewrite delete_insert_ne by (apply HZ; set_solver).
      destruct (IH (members ++ [(n0, d)]) (delete (os_path_join dir n0) D) c o)
        as (w' & Hrun & Hframe); [done | set_solver | |].
      * exists n. split.
        -- apply elem_of_cons in Hn as [-> | Hn]; [congruence | done].
        -- destruct (decide (os_path_join dir n = os_path_join dir n0)) as [-> | Hne].
           ++ apply lookup_delete_eq.
           ++ by rewrite lookup_delete_ne.
      * exists w'. split; [exact Hrun |]. intros q HqZ Hq.
        rewrite Hframe by set_solver. apply lookup_delete_ne, not_eq_sym, Hq. set_solver.
    + eexists. split; [reflexivity |]. intros q HqZ Hq. simpl.
      by rewrite lookup_insert_ne.
Qed.

(** The archive loop over names that occur twice stops with an OS error. *)
Lemma zip_loop_duplicate dir Z (l : list string) :
  forall members D c o,
    c Z = true ->
    (forall n, n ∈ l -> startswith_slash n = false) ->
    (forall n, n ∈ l -> os_path_join dir n <> Z) ->
    (forall n, n ∈ l -> is_Some (D !! os_path_join dir n)) ->
    ~ NoDup l ->
    exists w',
      foldM (zip_member dir Z) l members (mkWorld (<[Z := ZipFile members]> D) c o)
      = (Raise (mkExn OSError "No such file or directory"), w')
      /\ (forall q, q <> Z -> (forall n, n ∈ l -> q <> os_path_join dir n) ->
            files w' !! q = D !! q).
Proof.
  induction l as [| n0 l IH]; intros members D c o Hc Hrel HZ Hpresent Hdup.
  - exfalso. apply Hdup. constructor.
  - rewrite foldM_cons. unfold bind at 1. unfold zip_member at 1.
    unfold bind at 1. unfold read_file. cbv beta. simpl files.
    rewrite lookup_insert_ne by (apply not_eq_sym, HZ; set_solver).
    destruct (Hpresent n0) as [d Hn0]; [set_solver |]. rewrite Hn0.
    unfold bind at 1. unfold write_file at 1. simpl can_create. rewrite Hc.
    simpl files. rewrite insert_insert_eq.
    unfold bind at 1. unfold os_remove. simpl files.
    rewrite lookup_insert_ne by (apply not_eq_sym, HZ; set_solver).
    rewrite Hn0. unfold ret at 1. simpl.
    rewrite delete_insert_ne by (apply HZ; set_solver).
    assert (forall w',
              (forall q, q <> Z -> (forall n, n ∈ l -> q <> os_path_join dir n) ->
                         files w' !! q = delete (os_path_join dir n0) D !! q) ->
              forall q, q <> Z -> (forall n, n ∈ n0 :: l -> q <> os_path_join dir n) ->
                        files w' !! q = D !! q) as Hframe.
    { intros w' Hw' q HqZ Hq. rewrite Hw' by set_solver.
      apply lookup_delete_ne, not_eq_sym, Hq. set_solver. }
    destruct (decide (n0 ∈ l)) as [Hin | Hnotin].
    + destruct (zip_loop_missing dir Z l (members ++ [(n0, d)])
                  (delete (os_path_join dir n0) D) c o)
        as (w' & Hrun & Hw'); [done | set_solver | |].
      * exists n0. split; [done | apply lookup_delete_eq].
      * exists w'. split; [exact Hrun | by apply Hframe].
    + destruct (IH (members ++ [(n0, d)]) (delete (os_path_join dir n0) D) c o)
        as (w' & Hrun & Hw'); [done | set_solver | set_solver | | |].
      * intros n Hn. rewrite lookup_delete_ne; [apply Hpresent; set_solver |].
        intros Heq. apply os_path_join_inj in Heq; [| apply Hrel; set_solver..].
        congruence.
      * intros Hnd. apply Hdup. by constructor.
      * exists w'. split; [exact Hrun | by apply Hframe].
Qed.

(** X10: with [as_zip_archive=True], Tracklets of which two share an ID
    make the export fail with an OS error: both write to the same per-track
    file, which is removed when it is archived the first time and missing
    the second time.  The manifest is not written. *)
Theorem zip_archive_duplicate_ID_fails dir (T : list Tracklet) cell_type ct w :
  allowed_cell_type cell_type = Some ct ->
  ~ NoDup (map ID T) ->
  Forall (fun t => can_create w (os_path_join dir
                                   (track_file_name (str_cell_type ct) t)) = true) T ->
  can_create w (os_path_join dir (zip_file_name (str_cell_type ct))) = true ->
  raised (fst (export_all_tracks_JSON dir (map VTracklet T) cell_type true w))
  = Some OSError
  /\ files (snd (export_all_tracks_JSON dir (map VTracklet T) cell_type true w))
       !! os_path_join dir (manifest_file_name (str_cell_type ct))
     = files w !! os_path_join dir (manifest_file_name (str_cell_type ct)).
Proof.
  intros Hct Hdup HT HZ. set (cts := str_cell_type ct) in *.
  assert (exists e w',
             export_all_tracks_JSON dir (map VTracklet T) cell_type true w
             = (Raise e, w')
             /\ exn_kind e = OSError
             /\ files w' !! os_path_join dir (manifest_file_name cts)
                = files w !! os_path_join dir (manifest_file_name cts))
    as (e & w' & -> & He & Hman); [| by rewrite <- He].
  rewrite (export_all_tracks_JSON_loops _ _ _ ct) by done. fold cts.
  unfold bind at 1. rewrite write_tracks_run by done. simpl app.
  unfold bind at 1. unfold bind at 1. unfold write_file at 1. simpl can_create.
  rewrite HZ. cbn [files can_create stdout]. unfold bind at 1.
  destruct (zip_loop_duplicate dir (os_path_join dir (zip_file_name cts))
              (map (track_file_name cts) T) []
              (write_all (map (track_entry dir cts) T) (files w))
              (can_create w) (stdout w))
    as (w' & Hrun & Hframe).
  - done.
  - by intros n [t [-> _]]%list_elem_of_fmap.
  - intros n [t [-> _]]%list_elem_of_fmap. apply track_path_not_zip.
  - intros n [t [-> Ht]]%list_elem_of_fmap. apply lookup_write_all_is_Some.
    rewrite map_map. simpl.
    by apply (list_elem_of_fmap_2 (fun t => os_path_join dir (track_file_name cts t))).
  - by rewrite <- track_names_NoDup.
  - rewrite Hrun. eexists _, w'. split; [reflexivity |]. split; [reflexivity |].
    rewrite Hframe.
    + apply lookup_write_all_notin. rewrite map_map. simpl.
      intros [t [Heq _]]%list_elem_of_fmap.
      by apply (track_path_not_manifest dir cts t).
    + apply not_eq_sym, zip_path_not_manifest.
    + intros n [t [-> _]]%list_elem_of_fmap.
      apply not_eq_sym, track_path_not_manifest.
Qed.

Lemma zip_archive_duplicate_ID_fails_witness :
  raised (fst (export_all_tracks_JSON "out"
                 (map VTracklet
                      [track1; track3; mkTracklet 1 [] 0 1 "interphase" None None])
                 (VStr "GFP") true world0))
  = Some OSError
  /\ files (snd (export_all_tracks_JSON "out"
                   (map VTracklet
                        [track1; track3; mkTracklet 1 [] 0 1 "interphase" None None])
                   (VStr "GFP") true world0))
       !! os_path_join "out" (manifest_file_name "GFP")
     = files world0 !! os_path_join "out" (manifest_file_name "GFP").
Proof.
  apply (zip_archive_duplicate_ID_fails "out"
           [track1; track3; mkTracklet 1 [] 0 1 "interphase" None None]
           (VStr "GFP") (Some "GFP") world0).
  - reflexivity.
  - simpl. intros [Hnotin _]%NoDup_cons. apply Hnotin. set_solver.
  - repeat constructor.
  - reflexivity.
Defined.

(** X11: [export_all_tracks_JSON] does not check the tracks before it
    writes: when a non-Tracklet follows some Tracklets, the export raises an
    attribute error at that element, by which time the per-track files of
    the Tracklets before it are on disk; the manifest is not written. *)
Theorem archive_export_stops_at_non_Tracklet
    dir (T : list Tracklet) v rest cell_type ct zipped w :
  allowed_cell_type cell_type = Some ct ->
  isinstance_Tracklet v = false ->
  Forall (fun t => can_create w (os_path_join dir
                                   (track_file_name (str_cell_type ct) t)) = true) T ->
  raised (fst (export_all_tracks_JSON dir (map VTracklet T ++ v :: rest)
                                      cell_type zipped w))
  = Some AttributeError
  /\ (forall t, t ∈ T ->
        is_Some (files (snd (export_all_tracks_JSON dir (map VTracklet T ++ v :: rest)
                                                    cell_type zipped w))
                   !! os_path_join dir (track_file_name (str_cell_type ct) t)))
  /\ files (snd (export_all_tracks_JSON dir (map VTracklet T ++ v :: rest)
                                        cell_type zipped w))
       !! os_path_join dir (manifest_file_name (str_cell_type ct))
     = files w !! os_path_join dir (manifest_file_name (str_cell_type ct)).
Proof.
  intros Hct Hv HT. set (cts := str_cell_type ct) in *.
  assert (exists e w',
             export_all_tracks_JSON dir (map VTracklet T ++ v :: rest) cell_type zipped w
             = (Raise e, w')
             /\ exn_kind e = AttributeError
             /\ (forall t, t ∈ T ->
                   is_Some (files w' !! os_path_join dir (track_file_name cts t)))
             /\ files w' !! os_path_join dir (manifest_file_name cts)
                = files w !! os_path_join dir (manifest_file_name cts))
    as (e & w' & -> & He & Hfiles & Hman); [| by rewrite <- He].
  rewrite (export_all_tracks_JSON_loops _ _ _ ct) by done. fold cts.
  unfold bind at 1. rewrite foldM_app, write_tracks_run by done.
  rewrite foldM_cons. unfold bind at 1. unfold write_track at 1.
  unfold bind at 1. unfold lift at 1.
  assert (as_Tracklet "ID" v
          = Raise (mkExn AttributeError "object has no attribute 'ID'")) as ->.
  { by destruct v. }
  eexists _, _. split; [reflexivity |]. split; [reflexivity |]. simpl files. split.
  - intros t Ht. apply lookup_write_all_is_Some. rewrite map_map. simpl.
    by apply (list_elem_of_fmap_2 (fun t => os_path_join dir (track_file_name cts t))).
  - apply lookup_write_all_notin. rewrite map_map. simpl.
    intros [t [Heq _]]%list_elem_of_fmap.
    by apply (track_path_not_manifest dir cts t).
Qed.

Lemma archive_export_stops_at_non_Tracklet_witness :
  raised (fst (export_all_tracks_JSON "out"
                 (map VTracklet [track3; track1] ++ VInt 7 :: [])
                 (VStr "GFP") true world0))
  = Some AttributeError
  /\ (forall t, t ∈ [track3; track1] ->
        is_Some (files (snd (export_all_tracks_JSON "out"
                               (map VTracklet [track3; track1] ++ VInt 7 :: [])
                               (VStr "GFP") true world0))
                   !! os_path_join "out" (track_file_name "GFP" t)))
  /\ files (snd (export_all_tracks_JSON "out"
                   (map VTracklet [track3; track1] ++ VInt 7 :: [])
                   (VStr "GFP") true world0))
       !! os_path_join "out" (manifest_file_name "GFP")
     = files world0 !! os_path_join "out" (manifest_file_name "GFP").
Proof.
  apply (archive_export_stops_at_non_Tracklet "out" [track3; track1] (VInt 7) []
           (VStr "GFP") (Some "GFP") true world0).
  - reflexivity.
  - reflexivity.
  - repeat constructor.
Defined.

(** ** The current schema, for any number of classes *)

Section CurrentSchemaFiles.

Import HDF5_FileHandler.

Lemma class_objects_fields {B} (f : PyTrackObject -> B) (g : list Q * list Z -> B)
    id obj_type rows :
  (forall id row lab, f (object_of_row id obj_type row lab) = g (row, lab)) ->
  map f (class_objects id obj_type rows) = map g rows.
Proof.
  intros Hfg. revert id. induction rows as [| [row lab] rows IH]; intros id; [done |].
  simpl. by rewrite Hfg, IH.
Qed.

Lemma file_objects_fields {B} (f : PyTrackObject -> B) (g : list Q * list Z -> B)
    id ci (classes : list (list (list Q) * list (list Z))) :
  (forall id obj_type row lab, f (object_of_row id obj_type row lab) = g (row, lab)) ->
  map f (file_objects id ci classes)
  = map g (concat (map (fun c => zip (fst c) (snd c)) classes)).
Proof.
  intros Hfg. revert id ci.
  induction classes as [| [txyz labs] classes IH]; intros id ci; [done |].
  simpl. rewrite !map_app, IH. f_equal.
  apply class_objects_fields. intros. apply Hfg.
Qed.

Lemma file_objects_length id ci (classes : list (list (list Q) * list (list Z))) :
  Forall (fun c => length (snd c) = length (fst c)) classes ->
  length (file_objects id ci classes) = length (concat (map fst classes)).
Proof.
  intros Hlen. revert id ci.
  induction Hlen as [| [txyz labs] classes Hc Hlen IH]; intros id ci; [done |].
  simpl in *. rewrite !length_app, class_objects_length, IH, length_zip_with, Hc.
  by rewrite Nat.min_id.
Qed.

Lemma file_objects_defaults id ci (classes : list (list (list Q) * list (list Z))) :
  Forall (fun o => o_dummy o = false /\ o_probability o = [0%Q])
         (file_objects id ci classes).
Proof.
  revert id ci. induction classes as [| [txyz labs] classes IH]; intros id ci;
    [constructor |].
  simpl. apply Forall_app. split; [| apply IH].
  generalize (zip txyz labs). intros rows. revert id.
  induction rows as [| [row lab] rows IHrows]; intros id; constructor;
    [done | apply IHrows].
Qed.

(** X12: a file of the current schema with any number of well-formed class
    groups is read without an error, one object per coordinate row in file
    order; the IDs count 0, 1, 2, ... through the whole file, the type of
    an object is the 1-based position of its class, its coordinates are
    the columns 1 to 3 of its row, its label is the first entry of its
    label row, its probability is the single entry 0, and it is no dummy. *)
Theorem objects_of_any_file h (named : list (string * (list (list Q) * list (list Z)))) :
  h5_objects (_hdf h) = Some (map (fun c => (fst c, class_group (snd c))) named) ->
  Forall (fun c => datasets_ok (fst (snd c)) (snd (snd c))) named ->
  exists objs,
    objects h = (Ok objs, with_ID h (Z.of_nat (length objs)))
    /\ length objs = length (concat (map (fun c => fst (snd c)) named))
    /\ map o_ID objs = seqZ 0 (Z.of_nat (length objs))
    /\ map o_type objs
       = concat (imap (fun i c => replicate (length (fst (snd c))) (Z.of_nat i + 1)) named)
    /\ map (fun o => (o_x o, o_y o, o_z o, o_label o)) objs
       = map (fun r => (NFloat (nth 1 (fst r) 0%Q), NFloat (nth 2 (fst r) 0%Q),
                        NFloat (nth 3 (fst r) 0%Q), nth 0 (snd r) 0%Z))
             (concat (map (fun c => zip (fst (snd c)) (snd (snd c))) named))
    /\ Forall (fun o => o_dummy o = false /\ o_probability o = [0%Q]) objs.
Proof.
  intros Hobjs Hok.
  assert (Forall (fun c : list (list Q) * list (list Z) =>
                    length (snd c) = length (fst c)) (map snd named)) as Hlen.
  { apply Forall_fmap. eapply Forall_impl; [exact Hok |]. by intros c (Hc & _). }
  exists (file_objects 0 0 (map snd named)).
  split; [by apply objects_run |].
  split; [| split; [| split; [| split]]].
  - rewrite file_objects_length by done. by rewrite map_map.
  - by apply file_objects_IDs.
  - rewrite file_objects_types by done. f_equal.
    rewrite imap_fmap. by apply imap_ext.
  - rewrite (file_objects_fields _
               (fun r => (NFloat (nth 1 (fst r) 0%Q), NFloat (nth 2 (fst r) 0%Q),
                          NFloat (nth 3 (fst r) 0%Q), nth 0 (snd r) 0%Z))) by done.
    by rewrite map_map.
  - apply file_objects_defaults.
Qed.

Lemma objects_of_any_file_witness :
  exists objs,
    objects (mkHandler "cells.hdf5"
               (mkH5 (Some [("GFP", mkGroup (Some coords_B) (Some (labels_of 2)));
                            ("RFP", mkGroup (Some []) (Some []));
                            ("iRFP", mkGroup (Some coords_A) (Some (labels_of 3)))])
                     None None None)
               None)
    = (Ok objs, mkHandler "cells.hdf5"
                  (mkH5 (Some [("GFP", mkGroup (Some coords_B) (Some (labels_of 2)));
                               ("RFP", mkGroup (Some []) (Some []));
                               ("iRFP", mkGroup (Some coords_A) (Some (labels_of 3)))])
                        None None None)
                  (Some 5))
    /\ map o_ID objs = [0; 1; 2; 3; 4]
    /\ map o_type objs = [1; 1; 3; 3; 3]
    /\ map o_label objs = [2; 2; 2; 2; 2].
Proof.
  destruct (objects_of_any_file
              (mkHandler "cells.hdf5"
                 (mkH5 (Some [("GFP", mkGroup (Some coords_B) (Some (labels_of 2)));
                              ("RFP", mkGroup (Some []) (Some []));
                              ("iRFP", mkGroup (Some coords_A) (Some (labels_of 3)))])
                       None None None)
                 None)
              [("GFP", (coords_B, labels_of 2)); ("RFP", ([], []));
               ("iRFP", (coords_A, labels_of 3))])
    as (objs & Hrun & Hlen & HID & Htype & Hfields & _).
  - reflexivity.
  - repeat constructor.
  - exists objs. simpl in Hlen. rewrite Hlen in Hrun, HID.
    split; [exact Hrun |]. split; [exact HID |]. split; [exact Htype |].
    apply (f_equal (map snd)) in Hfields. rewrite !map_map in Hfields. exact Hfields.
Defined.

End CurrentSchemaFiles.

(** ** Reading the objects again *)

Section ReadingAgain.

Import HDF5_FileHandler.

Lemma same_file_refl h : same_file h h.
Proof. by split. Qed.

Lemma same_file_trans h1 h2 h3 : same_file h1 h2 -> same_file h2 h3 -> same_file h1 h3.
Proof. intros [? ?] [? ?]. split; congruence. Qed.

Lemma bind_same_file {A B} (m : St Handler A) (f : A -> St Handler B) h :
  same_file (snd (m h)) h ->
  (forall a h', same_file (snd (f a h')) h') ->
  same_file (snd (bind m f h)) h.
Proof.
  intros Hm Hf. unfold bind. destruct (m h) as [[a | e] h1]; simpl in *; [| done].
  eapply same_file_trans; [apply Hf | done].
Qed.

Lemma mapM_same_file {A B} (f : A -> St Handler B) (l : list A) :
  (forall x h, same_file (snd (f x h)) h) ->
  forall h, same_file (snd (mapM f l h)) h.
Proof.
  intros Hf. induction l as [| x l IH]; intros h; [apply same_file_refl |].
  rewrite mapM_cons. apply bind_same_file; [apply Hf |]. intros y h'.
  apply bind_same_file; [apply IH |]. intros ys h''. apply same_file_refl.
Qed.

Lemma foldM_same_file {A B} (body : B -> A -> St Handler B) (l : list A) :
  (forall acc x h, same_file (snd (body acc x h)) h) ->
  forall acc h, same_file (snd (foldM body l acc h)) h.
Proof.
  intros Hbody. induction l as [| x l IH]; intros acc h; [apply same_file_refl |].
  rewrite foldM_cons. apply bind_same_file; [apply Hbody |]. intros acc' h'. apply IH.
Qed.

Lemma lift_same_file {A} (r : Result A) h : same_file (snd (lift r h)) h.
Proof. apply same_file_refl. Qed.

Lemma new_PyTrackObject_same_file txyz label obj_type h :
  same_file (snd (new_PyTrackObject txyz label obj_type h)) h.
Proof.
  unfold new_PyTrackObject, bind, lift, get, put, ret.
  destruct (match label with Some l => getitem l 0 | None => Ok 0 end); [| by split].
  destruct (_ID h); [| by split].
  repeat (match goal with
          | |- context [getitem txyz ?i] => destruct (getitem txyz i)
          end; [| by split]).
  by split.
Qed.

Lemma read_class_same_file objects_so_far e h :
  same_file (snd (read_class objects_so_far e h)) h.
Proof.
  destruct e as [ci [c grp]]. unfold read_class.
  apply bind_same_file; [apply lift_same_file |]. intros txyz h1.
  apply bind_same_file; [apply lift_same_file |]. intros labs h2.
  apply bind_same_file; [| intros; apply same_file_refl].
  apply mapM_same_file. intros i h3.
  apply bind_same_file; [apply lift_same_file |]. intros row h4.
  apply bind_same_file; [apply lift_same_file |]. intros lab h5.
  apply new_PyTrackObject_same_file.
Qed.

Lemma objects_same_file h : same_file (snd (objects h)) h.
Proof.
  unfold objects. unfold bind at 1. unfold get. unfold bind at 1. unfold put.
  apply (same_file_trans _ (mkHandler (filename h) (_hdf h) (Some 0))); [| by split].
  apply bind_same_file; [apply lift_same_file |]. intros groups h1.
  apply foldM_same_file. intros. apply read_class_same_file.
Qed.

Lemma objects_of_same_file h h' : same_file h h' -> objects h = objects h'.
Proof.
  destruct h as [fn hdf i], h' as [fn' hdf' i']. intros [Hfn Hhdf].
  simpl in Hfn, Hhdf. subst. reflexivity.
Qed.

(** X13: every access to [objects] starts the ID counter at 0 again: for
    every file, well formed or not, reading the objects a second time on
    the same handler gives the result of the first time (the same objects
    with the same IDs, or the same exception) and leaves the handler in the
    same state. *)
Theorem objects_read_again h : objects (snd (objects h)) = objects h.
Proof. apply objects_of_same_file, objects_same_file. Qed.

End ReadingAgain.

(** ** Class groups that lack a dataset *)

Section MissingDataset.

Import HDF5_FileHandler.

Lemma enumerate_from_app {A} (k : nat) (l1 l2 : list A) :
  combine (seq k (length (l1 ++ l2))) (l1 ++ l2)
  = combine (seq k (length l1)) l1
    ++ combine (seq (k + length l1) (length l2)) l2.
Proof.
  revert k. induction l1 as [| x l1 IH]; intros k.
  - simpl. by rewrite Nat.add_0_r.
  - simpl. rewrite IH, Nat.add_succ_r. reflexivity.
Qed.

(** X14: in the current schema both datasets of a class group are
    required: when the groups before it are well formed and a class group
    has no 'coords' or no 'labels' dataset, [objects] raises a key error and
    returns no object at all, not even those of the classes before. *)
Theorem objects_missing_dataset h
    (named : list (string * (list (list Q) * list (list Z)))) c grp rest :
  h5_objects (_hdf h)
  = Some (map (fun c => (fst c, class_group (snd c))) named ++ (c, grp) :: rest) ->
  Forall (fun c => datasets_ok (fst (snd c)) (snd (snd c))) named ->
  coords grp = None \/ labels grp = None ->
  raised (fst (objects h)) = Some KeyError.
Proof.
  intros Hobjs Hok Hmissing.
  unfold objects. unfold bind at 1. unfold get. unfold bind at 1. unfold put.
  unfold bind at 1. unfold lift at 1. unfold member at 1. rewrite Hobjs.
  unfold enumerate. rewrite enumerate_from_app, foldM_app, length_map.
  rewrite (read_classes_run named Hok 0 0) by done.
  simpl length. simpl seq. simpl combine. rewrite foldM_cons.
  unfold bind at 1. unfold read_class.
  destruct (coords grp) as [txyz |] eqn:Hc; [| reflexivity].
  destruct Hmissing as [Hc' | Hl]; [discriminate Hc' |]. rewrite Hl. reflexivity.
Qed.

Lemma objects_missing_dataset_witness :
  raised (fst (objects
                 (mkHandler "cells.hdf5"
                    (mkH5 (Some [("GFP", mkGroup (Some coords_B) (Some (labels_of 2)));
                                 ("RFP", mkGroup (Some coords_A) None)])
                          None None None)
                    None)))
  = Some KeyError.
Proof.
  apply (objects_missing_dataset _ [("GFP", (coords_B, labels_of 2))]
           "RFP" (mkGroup (Some coords_A) None) []).
  - reflexivity.
  - repeat constructor.
  - by right.
Defined.

End MissingDataset.

(** ** The legacy schema: names, labels and order *)

Section LegacySchemaFiles.

Import HDF5_FileHandler_LEGACY.

Lemma frame_keys_raise {S} (names : list string) (s : S) :
  Exists (fun f => re_search_digits f = None) names ->
  mapM (fun f => k <- lift (lambda_frm f) ;; ret (k, f)) names s
  = (Raise (mkExn AttributeError "'NoneType' object has no attribute 'group'"), s).
Proof.
  induction names as [| f names IH]; intros Hex; [by apply Exists_nil in Hex |].
  rewrite mapM_cons. unfold bind at 1. unfold bind at 1. unfold lift at 1.
  unfold lambda_frm at 1. destruct (re_search_digits f) as [d |] eqn:Hf; [| done].
  unfold ret at 1. unfold bind at 1. rewrite IH; [done |].
  apply Exists_cons in Hex as [Hex | Hex]; [congruence | done].
Qed.

(** X15: one frame group whose name holds no digit makes the legacy reader
    fail for the whole file: the sort key of that name cannot be computed,
    an attribute error is raised and no object is read. *)
Theorem LEGACY_objects_name_without_numeral hdf frames id0 :
  h5_frames hdf = Some frames ->
  Exists (fun f => re_search_digits (fst f) = None) frames ->
  objects hdf id0
  = (Raise (mkExn AttributeError "'NoneType' object has no attribute 'group'"), 0).
Proof.
  intros Hframes Hex. unfold objects. unfold bind at 1. unfold put.
  unfold bind at 1. unfold lift, member. rewrite Hframes.
  unfold bind at 1. unfold sorted_frames. unfold bind at 1.
  rewrite frame_keys_raise; [done |]. by apply Exists_fmap.
Qed.

Lemma LEGACY_objects_name_without_numeral_witness :
  objects (mkH5 None
             (Some [("frame_1", mkGroup (Some [sample_row 1 2]) None);
                    ("background", mkGroup (Some []) None)])
             None None) 3
  = (Raise (mkExn AttributeError "'NoneType' object has no attribute 'group'"), 0).
Proof.
  apply (LEGACY_objects_name_without_numeral _
           [("frame_1", mkGroup (Some [sample_row 1 2]) None);
            ("background", mkGroup (Some []) None)]).
  - reflexivity.
  - apply Exists_cons_tl, Exists_cons_hd. reflexivity.
Defined.

Lemma legacy_objects_of_fields {B} (f : PyTrackObject -> B)
    (g : list Q * option (list Z) -> B) id rows :
  (forall id row lab, f (legacy_object id row lab) = g (row, lab)) ->
  map f (legacy_objects_of id rows) = map g rows.
Proof.
  intros Hfg. revert id. induction rows as [| [row lab] rows IH]; intros id; [done |].
  simpl. by rewrite Hfg, IH.
Qed.

Lemma legacy_objects_of_defaults id rows :
  Forall (fun o => o_dummy o = false /\ o_probability o = [0%Q])
         (legacy_objects_of id rows).
Proof.
  revert id. induction rows as [| [row lab] rows IH]; intros id; constructor;
    [done | apply IH].
Qed.

Lemma legacy_objects_of_unlabelled id (rows : list (list Q * option (list Z))) :
  Forall (fun r => snd r = None) rows ->
  Forall (fun o => o_label o = 0) (legacy_objects_of id rows).
Proof.
  intros Hrows. revert id.
  induction Hrows as [| [row lab] rows Hlab Hrows IH]; intros id; constructor.
  - simpl in Hlab. by subst.
  - apply IH.
Qed.

Lemma frame_rows_without_labels frames frm :
  Forall (fun f => labels (snd f) = None) frames ->
  Forall (fun r => snd r = None) (frame_rows frames frm).
Proof.
  intros Hnone. unfold frame_rows.
  destruct (group_lookup frm frames) as [grp | e] eqn:Hgrp; [| constructor].
  assert (labels grp = None) as ->.
  { clear -Hnone Hgrp. induction Hnone as [| [k g] frames Hg Hnone IH]; [done |].
    simpl in Hgrp. destruct (String.eqb k frm); [by inversion Hgrp; subst | by apply IH]. }
  simpl. generalize (default [] (coords grp)). intros txyz.
  generalize (length txyz). intros n. revert n.
  induction txyz as [| row txyz IH]; intros [| n]; simpl; constructor; [done | apply IH].
Qed.

(** X16: on a well-formed file of the legacy schema every object read is
    no dummy and has the single probability 0, its coordinates are the
    columns 1 to 3 of its row, and its label is the first entry of its
    label row; the objects of a frame without a labels dataset get the
    label 0, so a file without any labels dataset yields label 0
    throughout. *)
Theorem LEGACY_objects_fields hdf frames id0 :
  h5_frames hdf = Some frames ->
  Forall (fun f => is_ok (lambda_frm (fst f)) = true /\ frame_ok (snd f)) frames ->
  exists objs,
    objects hdf id0 = (Ok objs, Z.of_nat (length objs))
    /\ map (fun o => (o_x o, o_y o, o_z o, o_label o)) objs
       = map (fun r => (NFloat (nth 1 (fst r) 0%Q), NFloat (nth 2 (fst r) 0%Q),
                        NFloat (nth 3 (fst r) 0%Q),
                        match snd r with Some l => nth 0 l 0%Z | None => 0%Z end))
             (concat (map (frame_rows frames)
                          (sorted_by frame_number (map fst frames))))
    /\ Forall (fun o => o_dummy o = false /\ o_probability o = [0%Q]) objs
    /\ (Forall (fun f => labels (snd f) = None) frames ->
        Forall (fun o => o_label o = 0) objs).
Proof.
  intros Hframes Hok. set (frms := sorted_by frame_number (map fst frames)).
  assert (Forall (fun frm => exists grp, group_lookup frm frames = Ok grp /\ frame_ok grp)
                 frms) as Hfound.
  { apply Forall_forall. intros frm Hfrm. unfold frms in Hfrm.
    rewrite sorted_by_Permutation in Hfrm.
    apply group_lookup_found; [done |].
    eapply Forall_impl; [exact Hok |]. by intros f [_ Hf]. }
  assert (Forall (fun f => is_ok (lambda_frm f) = true) (map fst frames)) as Hnum.
  { apply Forall_fmap. eapply Forall_impl; [exact Hok |]. by intros f [Hf _]. }
  exists (legacy_objects_of 0 (concat (map (frame_rows frames) frms))).
  split; [| split; [| split]].
  - unfold objects. unfold bind at 1. unfold put.
    unfold bind at 1. unfold lift, member. rewrite Hframes.
    unfold bind at 1. rewrite sorted_frames_run by done.
    fold frms. rewrite (LEGACY_read_frames_run frames frms Hfound [] 0).
    rewrite legacy_objects_of_length. reflexivity.
  - by apply legacy_objects_of_fields.
  - apply legacy_objects_of_defaults.
  - intros Hnone.
    assert (Forall (fun r : list Q * option (list Z) => snd r = None)
                   (concat (map (frame_rows frames) frms))) as Hrows.
    { apply Forall_concat, Forall_fmap, Forall_forall. intros frm _.
      by apply frame_rows_without_labels. }
    by apply legacy_objects_of_unlabelled.
Qed.

Lemma LEGACY_objects_fields_witness :
  exists objs,
    objects legacy_sample 0 = (Ok objs, Z.of_nat (length objs))
    /\ map o_label objs = [0; 0; 4; 1]
    /\ Forall (fun o => o_dummy o = false /\ o_probability o = [0%Q]) objs.
Proof.
  destruct (LEGACY_objects_fields legacy_sample
              [("frame_2", mkGroup (Some [sample_row 2 1]) None);
               ("frame_10", mkGroup (Some [sample_row 10 (5 # 2); sample_row 10 3])
                                    (Some [[4%Z]; [1%Z]]));
               ("frame_1", mkGroup (Some [sample_row 1 2]) None)]
              0 eq_refl)
    as (objs & Hrun & Hfields & Hdefaults & _).
  - repeat constructor; simpl;
      try (eexists; split; [reflexivity | split; repeat constructor]).
  - exists objs. split; [exact Hrun |]. split; [| exact Hdefaults].
    apply (f_equal (map snd)) in Hfields. rewrite !map_map in Hfields. exact Hfields.
Defined.

End LegacySchemaFiles.

(** ** The legacy schema: mismatched labels and equal numerals *)

Section LegacySchemaOrder.

Import HDF5_FileHandler_LEGACY.

Lemma group_lookup_NoDup {A} (frames : list (string * A)) k x :
  NoDup (map fst frames) -> (k, x) ∈ frames -> group_lookup k frames = Ok x.
Proof.
  induction frames as [| [k' x'] frames IH]; simpl; [by intros _ ?%elem_of_nil |].
  intros [Hk' Hnd]%NoDup_cons [Heq | Hin]%elem_of_cons.
  - inversion Heq; subst. by rewrite String.eqb_refl.
  - destruct (String.eqb_spec k' k) as [-> | _]; [| by apply IH].
    exfalso. apply Hk'. change k with (fst (k, x)). by apply list_elem_of_fmap_2.
Qed.

Lemma read_frame_mismatch frames acc frm grp id :
  group_lookup frm frames = Ok grp ->
  label_count_mismatch grp ->
  read_frame frames acc frm id = (Raise (mkExn AssertionError ""), id).
Proof.
  intros Hgrp (txyz & l & Hc & Hl & Hne). unfold read_frame.
  unfold bind at 1. unfold lift at 1. rewrite Hgrp.
  unfold bind at 1. unfold lift at 1. rewrite Hc. unfold member.
  unfold bind at 1. rewrite Hl. by rewrite bool_decide_eq_false_2.
Qed.

Lemma read_frames_mismatch frames (frms : list string) :
  Forall (fun frm => exists grp, group_lookup frm frames = Ok grp
                                 /\ (frame_ok grp \/ label_count_mismatch grp)) frms ->
  Exists (fun frm => exists grp, group_lookup frm frames = Ok grp
                                 /\ label_count_mismatch grp) frms ->
  forall acc id,
    raised (fst (foldM (read_frame frames) frms acc id)) = Some AssertionError.
Proof.
  induction 1 as [| frm frms (grp & Hgrp & Hcase) Hfrms IH]; intros Hex acc id.
  - by apply Exists_nil in Hex.
  - rewrite foldM_cons. unfold bind at 1.
    destruct Hcase as [Hok | Hbad].
    + rewrite (LEGACY_read_frame_run frames acc frm grp id Hgrp Hok).
      apply IH. apply Exists_cons in Hex as [(grp' & Hgrp' & Hbad) | Hex]; [| done].
      exfalso. rewrite Hgrp in Hgrp'. inversion Hgrp'; subst grp'.
      destruct Hok as (txyz & Hc & _ & Hlabs).
      destruct Hbad as (txyz' & l & Hc' & Hl & Hne).
      rewrite Hl in Hlabs. destruct Hlabs as [Hlen _]. congruence.
    + by rewrite (read_frame_mismatch frames acc frm grp id Hgrp Hbad).
Qed.

(** X17: in the legacy schema a labels dataset must have as many rows as
    the coordinates of its frame: when the frame groups are otherwise well
    formed and one of them has labels of another length, [objects] fails
    its assertion and returns no object. *)
Theorem LEGACY_objects_label_count_mismatch hdf frames id0 :
  h5_frames hdf = Some frames ->
  NoDup (map fst frames) ->
  Forall (fun f => is_ok (lambda_frm (fst f)) = true
                   /\ (frame_ok (snd f) \/ label_count_mismatch (snd f))) frames ->
  Exists (fun f => label_count_mismatch (snd f)) frames ->
  raised (fst (objects hdf id0)) = Some AssertionError.
Proof.
  intros Hframes Hnd Hok Hex.
  assert (Forall (fun f => is_ok (lambda_frm f) = true) (map fst frames)) as Hnum.
  { apply Forall_fmap. eapply Forall_impl; [exact Hok |]. by intros f [Hf _]. }
  unfold objects. unfold bind at 1. unfold put.
  unfold bind at 1. unfold lift, member. rewrite Hframes.
  unfold bind at 1. rewrite sorted_frames_run by done.
  apply read_frames_mismatch.
  - apply Forall_forall. intros frm Hfrm. rewrite sorted_by_Permutation in Hfrm.
    apply (group_lookup_found (fun g => frame_ok g \/ label_count_mismatch g)); [done |].
    eapply Forall_impl; [exact Hok |]. by intros f [_ Hf].
  - apply Exists_exists in Hex as ([k g] & Hin & Hbad). simpl in Hbad.
    apply Exists_exists. exists k. split.
    + rewrite sorted_by_Permutation. change k with (fst (k, g)).
      by apply list_elem_of_fmap_2.
    + exists g. split; [by apply group_lookup_NoDup | done].
Qed.

Lemma LEGACY_objects_label_count_mismatch_witness :
  raised (fst (objects
                 (mkH5 None
                    (Some [("frame_2", mkGroup (Some [sample_row 2 1; sample_row 2 1])
                                               (Some [[4%Z]]));
                           ("frame_1", mkGroup (Some [sample_row 1 2]) None)])
                    None None) 0))
  = Some AssertionError.
Proof.
  apply (LEGACY_objects_label_count_mismatch _
           [("frame_2", mkGroup (Some [sample_row 2 1; sample_row 2 1]) (Some [[4%Z]]));
            ("frame_1", mkGroup (Some [sample_row 1 2]) None)]).
  - reflexivity.
  - repeat constructor; set_solver.
  - constructor; [| constructor; [| constructor]]; (split; [reflexivity |]).
    + right. eexists _, _. repeat split; try reflexivity. simpl. lia.
    + left. eexists. split; [reflexivity |]. split; repeat constructor.
  - apply Exists_cons_hd. eexists _, _. repeat split; try reflexivity. simpl. lia.
Defined.

Lemma filter_insert_by {A} (key : A -> Z) (n : Z) x (l : list A) :
  filter (fun a => key a = n) (insert_by key x l)
  = filter (fun a => key a = n) (x :: l).
Proof.
  induction l as [| y l IH]; [done |].
  simpl. destruct (Z.ltb_spec (key y) (key x)) as [Hlt | Hge]; [| done].
  rewrite filter_cons, IH, !filter_cons.
  repeat case_decide; try done; lia.
Qed.

Lemma filter_sorted_by {A} (key : A -> Z) (n : Z) (l : list A) :
  filter (fun a => key a = n) (sorted_by key l) = filter (fun a => key a = n) l.
Proof.
  induction l as [| x l IH]; [done |].
  change (sorted_by key (x :: l)) with (insert_by key x (sorted_by key l)).
  by rewrite filter_insert_by, !filter_cons, IH.
Qed.

(** X18: the frame names are sorted by numeral only, and the sort is
    stable: frames whose names carry the same numeral are processed in the
    order in which the file lists them. *)
Theorem frames_with_equal_numerals_keep_order {S} (names : list string) (s : S) n :
  Forall (fun f => is_ok (lambda_frm f) = true) names ->
  exists frms,
    sorted_frames names s = (Ok frms, s)
    /\ filter (fun f => frame_number f = n) frms
       = filter (fun f => frame_number f = n) names.
Proof.
  intros Hnum. exists (sorted_by frame_number names). split.
  - by apply sorted_frames_run.
  - apply filter_sorted_by.
Qed.

Lemma frames_with_equal_numerals_keep_order_witness :
  exists frms,
    sorted_frames ["frame_2"; "b_1"; "frame_10"; "a_1"; "frame_01"] tt = (Ok frms, tt)
    /\ filter (fun f => frame_number f = 1) frms = ["b_1"; "a_1"; "frame_01"].
Proof.
  destruct (frames_with_equal_numerals_keep_order
              ["frame_2"; "b_1"; "frame_10"; "a_1"; "frame_01"] tt 1)
    as (frms & Hrun & Hkeep).
  - repeat constructor.
  - exists frms. split; [exact Hrun | exact Hkeep].
Defined.

End LegacySchemaOrder.
